(** * libbiomeval MPI work distribution: Distributor, Receiver, worker loop

    A shallow embedding of
      - [be_mpi_recordstoredistributor.cpp] (work package construction,
        checkpoint save and restore),
      - [be_mpi_receiver.cpp] (message encoding, the worker loop, the
        Receiver's request and dispatch loops, start-up and shutdown),
      - [be_io_filerecstore_impl.cpp] (the record store the Distributor
        sequences through),
      - [be_text.cpp] (trimming, splitting, letter case) and
        [be_time_timer.cpp] (the timer),
    with the properties the design document states about them and further
    properties of the code. *)

From Stdlib Require Import ZArith Lia List String Ascii.
From Stdlib Require Import Numbers.DecimalString Numbers.DecimalZ.
From Stdlib Require Import Numbers.DecimalPos Strings.Byte.
From stdpp Require Import base gmap strings list.
From coqutil Require Import Byte Word.LittleEndianList.

Open Scope Z_scope.

(** ** C++ values: fixed-width integers, exceptions, decimal text *)

Module Cxx.

(** An unsigned integer of [w] bits holds its value modulo [2^w]. *)
Definition wrap (w : Z) (z : Z) : Z := z mod 2 ^ w.

Definition uint32_t (z : Z) : Z := wrap 32 z.
Definition uint64_t (z : Z) : Z := wrap 64 z.

Definition INT_MIN : Z := - 2 ^ 31.
Definition INT_MAX : Z := 2 ^ 31 - 1.

(** An [int] holds 32 bits in two's complement.  Where a result does not
    fit, the language leaves the behaviour undefined; the value here is the
    one the machine's wrap-around arithmetic gives. *)
Definition int32_t (z : Z) : Z :=
  let u := wrap 32 z in if u <? 2 ^ 31 then u else u - 2 ^ 32.

(** The exceptions the modelled code throws and catches.  Every handler in
    the modelled files is [catch (Error::Exception &)], preceded where it
    matters by [catch (MPI::TerminateJob &)]; exceptions of the C++ library
    ([std::invalid_argument] of [std::stoi], ...) match neither, and [Crash]
    stands for the end of the process on a null dereference. *)
Inductive Exception : Type :=
| StrategyError (what : string)
| ObjectDoesNotExist (what : string)
| ErrorException (what : string)
| TerminateJob (what : string)
| StdException (what : string)
| Crash (what : string).

Definition whatString (e : Exception) : string :=
  match e with
  | StrategyError w | ObjectDoesNotExist w | ErrorException w
  | TerminateJob w | StdException w | Crash w => w
  end.

(** Does [catch (Error::Exception &)] take the exception? *)
Definition isErrorException (e : Exception) : bool :=
  match e with
  | StdException _ | Crash _ => false
  | _ => true
  end.

Definition isTerminateJob (e : Exception) : bool :=
  match e with
  | TerminateJob _ => true
  | _ => false
  end.

(** The outcome of a call that may throw. *)
Inductive result (A : Type) : Type :=
| Ok (a : A)
| Throw (e : Exception).
Arguments Ok {A} a.
Arguments Throw {A} e.

Definition isOk {A} (r : result A) : bool :=
  match r with Ok _ => true | Throw _ => false end.

(** [std::to_string(int)]: the decimal numeral, with a minus sign for a
    negative value. *)
Definition to_string (z : Z) : string :=
  NilZero.string_of_int (Z.to_int z).

Definition isspace (c : ascii) : bool :=
  match c with
  | " "%char | "009"%char | "010"%char | "011"%char | "012"%char
  | "013"%char => true
  | _ => false
  end.

Fixpoint skip_spaces (s : string) : string :=
  match s with
  | String c r => if isspace c then skip_spaces r else s
  | EmptyString => s
  end.

(** The longest prefix of decimal digits, as a numeral. *)
Fixpoint digit_prefix (s : string) : Decimal.uint :=
  match s with
  | String c r =>
      match uint_of_char c (Some (digit_prefix r)) with
      | Some u => u
      | None => Decimal.Nil
      end
  | EmptyString => Decimal.Nil
  end.

(** [strtol]-style conversion behind [std::stoi] and [std::stoll]: skips
    white space, takes an optional sign and the longest run of digits, ignores
    what follows; throws [std::invalid_argument] when there is no digit and
    [std::out_of_range] when the value is outside [lo .. hi]. *)
Definition parse_int (lo hi : Z) (s : string) : result Z :=
  let s1 := skip_spaces s in
  let '(neg, s2) :=
    match s1 with
    | String "-"%char r => (true, r)
    | String "+"%char r => (false, r)
    | _ => (false, s1)
    end in
  match digit_prefix s2 with
  | Decimal.Nil => Throw (StdException "invalid_argument")
  | d =>
      let v := if neg then - Z.of_uint d else Z.of_uint d in
      if (lo <=? v) && (v <=? hi) then Ok v
      else Throw (StdException "out_of_range")
  end.

Definition stoi (s : string) : result Z := parse_int INT_MIN INT_MAX s.

End Cxx.

Import Cxx.

(** ** Byte arrays ([Memory::uint8Array], an [AutoArray<uint8_t>]) *)

(** [be_memory_autoarray.h] is not part of the sources at hand.  A fresh or
    grown array holds whatever the allocator returns: [uninitialised i] is the
    byte found at offset [i] of such memory.  Nothing is assumed about it. *)
Class Allocator : Type := { uninitialised : nat -> byte }.

Module Memory.
Section WithAllocator.
Context {alloc : Allocator}.

Definition uint8Array : Type := list byte.

(** [uint8Array a(size)]. *)
Definition newArray (size : Z) : uint8Array :=
  map uninitialised (seq 0 (Z.to_nat size)).

(** [a.resize(new_size)]: the first [new_size] elements are kept; elements
    the array did not have are uninitialised. *)
Definition resize (a : uint8Array) (new_size : nat) : uint8Array :=
  take new_size a
    ++ map uninitialised (seq (length a) (new_size - length a)).

(** [memcpy(&a[index], src, length src)], and a store through a pointer to
    [&a[index]]: the bytes of [src] replace those at [index ..]; the
    callers size the array first, and bytes that would fall outside of it
    are dropped here. *)
Definition memcpy (a : uint8Array) (index : nat) (src : list byte)
  : uint8Array :=
  list_inserts index src a.

End WithAllocator.

(** A fresh array is compared as it stands, not element by element. *)
Arguments newArray : simpl never.
Strategy 100 [newArray].
End Memory.

Import Memory.

(** ** Task status and command vocabulary ([be_mpi.h]) *)

Module TaskStatus.
Inductive t : Type := OK | Exit | Failed | RequestJobTermination.
Definition all : list t := [OK; Exit; Failed; RequestJobTermination].
Definition eqb (a b : t) : bool :=
  match a, b with
  | OK, OK | Exit, Exit | Failed, Failed
  | RequestJobTermination, RequestJobTermination => true
  | _, _ => false
  end.
End TaskStatus.

Module TaskCommand.
Inductive t : Type := Continue | Ignore | Exit | QuickExit | TermExit.
Definition all : list t := [Continue; Ignore; Exit; QuickExit; TermExit].
Definition eqb (a b : t) : bool :=
  match a, b with
  | Continue, Continue | Ignore, Ignore | Exit, Exit
  | QuickExit, QuickExit | TermExit, TermExit => true
  | _, _ => false
  end.
End TaskCommand.

(** [be_mpi.h], [be_framework_enumeration.h] and
    [be_memory_autoarrayutility.h] are not part of the sources at hand.  What
    the message helpers need from them is collected here: the integer each
    enumerator stands for ([to_int_type]), which are distinct [int32_t]
    values, and whether [AutoArrayUtility::setString] stores the terminating
    NUL with the characters. *)
Class WireCodes : Type := {
  status_int : TaskStatus.t -> Z;
  command_int : TaskCommand.t -> Z;
  setString_nul : bool;
  status_int_inj : forall a b, status_int a = status_int b -> a = b;
  command_int_inj : forall a b, command_int a = command_int b -> a = b;
  status_int_range : forall a, INT_MIN <= status_int a <= INT_MAX;
  command_int_range : forall a, INT_MIN <= command_int a <= INT_MAX
}.

Module Message.
Section WithCodes.
Context {codes : WireCodes}.

(** [to_enum<T>(int)] is a cast; a value that names no enumerator is
    [None] here. *)
Definition to_enum_status (z : Z) : option TaskStatus.t :=
  List.find (fun s => status_int s =? z) TaskStatus.all.

Definition to_enum_command (z : Z) : option TaskCommand.t :=
  List.find (fun c => command_int c =? z) TaskCommand.all.

(** [AutoArrayUtility::setString(message, str)]. *)
Definition setString (str : string) : uint8Array :=
  list_byte_of_string str ++ (if setString_nul then [x00] else []).

(** [to_string(const Memory::uint8Array &)]: the bytes as characters. *)
Definition array_to_string (message : uint8Array) : string :=
  string_of_list_byte message.

Definition commandToMessage (taskCommand : TaskCommand.t) : uint8Array :=
  setString (to_string (command_int taskCommand)).

Definition messageToCommand (message : uint8Array)
  : result (option TaskCommand.t) :=
  match stoi (array_to_string message) with
  | Ok z => Ok (to_enum_command z)
  | Throw e => Throw e
  end.

Definition statusToMessage (taskStatus : TaskStatus.t) : uint8Array :=
  setString (to_string (status_int taskStatus)).

Definition messageToStatus (message : uint8Array)
  : result (option TaskStatus.t) :=
  match stoi (array_to_string message) with
  | Ok z => Ok (to_enum_status z)
  | Throw e => Throw e
  end.

End WithCodes.
End Message.

(** Modelled from the spec: the numbering of the enumerators, whose
    declaration ([be_mpi.h]) is absent; they are numbered from 0 in the order
    the data model lists them.  Used for concrete runs only. *)
Definition spec_status_int (s : TaskStatus.t) : Z :=
  match s with
  | TaskStatus.OK => 0
  | TaskStatus.Exit => 1
  | TaskStatus.Failed => 2
  | TaskStatus.RequestJobTermination => 3
  end.

Definition spec_command_int (c : TaskCommand.t) : Z :=
  match c with
  | TaskCommand.Continue => 0
  | TaskCommand.Ignore => 1
  | TaskCommand.Exit => 2
  | TaskCommand.QuickExit => 3
  | TaskCommand.TermExit => 4
  end.

Definition spec_codes (nul : bool) : WireCodes.
Proof.
  refine {| status_int := spec_status_int;
            command_int := spec_command_int;
            setString_nul := nul |}.
  - intros [] []; simpl; intros H; try reflexivity; discriminate H.
  - intros [] []; simpl; intros H; try reflexivity; discriminate H.
  - intros []; vm_compute; split; discriminate.
  - intros []; vm_compute; split; discriminate.
Defined.

(** ** Work packages ([be_mpi_workpackage.h]) and their payload *)

Module WorkPackage.
(** A package is its element count and its raw data
    ([setNumElements]/[getNumElements], [setData]/[getData]). *)
Record t : Type := mk { numElements : Z; data : uint8Array }.
End WorkPackage.

Module Payload.
Section WithAllocator.
Context {alloc : Allocator}.

(** The host representation of a [uint32_t] and of a [uint64_t] stored
    through a pointer into the buffer: little-endian, 4 and 8 bytes. *)
Definition store_uint32 (z : Z) : list byte := le_split 4 z.
Definition store_uint64 (z : Z) : list byte := le_split 8 z.

(** [fillBufferWithKeyAndValue(buf, key, value, index)]
    (be_mpi_recordstoredistributor.cpp); returns the buffer and the
    updated [index]. *)
Definition fillBufferWithKeyAndValue
    (buf : uint8Array) (key : string) (value : uint8Array) (index : Z)
  : uint8Array * Z :=
  let keyLength := uint32_t (Z.of_nat (String.length key)) in
  let valueSize := uint64_t (Z.of_nat (length value)) in
  let neededSpace := uint64_t (index + 4 + keyLength + 8 + valueSize) in
  let buf := resize buf (Z.to_nat neededSpace) in
  let buf := memcpy buf (Z.to_nat index) (store_uint32 keyLength) in
  let index := uint64_t (index + 4) in
  let buf := memcpy buf (Z.to_nat index) (store_uint64 valueSize) in
  let index := uint64_t (index + 8) in
  let buf :=
    memcpy buf (Z.to_nat index)
      (take (Z.to_nat keyLength) (list_byte_of_string key)) in
  let index := uint64_t (index + keyLength) in
  if valueSize =? 0 then (buf, index)
  else
    let buf := memcpy buf (Z.to_nat index) (take (Z.to_nat valueSize) value) in
    (buf, uint64_t (index + valueSize)).

(** The key and value pairs of a package, in order. *)
Definition entries : Type := list (string * uint8Array).

(** Packing a sequence of pairs the way [createWorkPackage] does when
    every pull succeeds: the buffer starts with 16384 elements, [index]
    with 0, and each pair is added with [fillBufferWithKeyAndValue]. *)
Fixpoint fill (es : entries) (buf : uint8Array) (index : Z)
  : uint8Array * Z :=
  match es with
  | [] => (buf, index)
  | (k, v) :: es' =>
      let '(buf', index') := fillBufferWithKeyAndValue buf k v index in
      fill es' buf' index'
  end.

Definition pack (es : entries) : WorkPackage.t :=
  WorkPackage.mk (Z.of_nat (length es)) (fst (fill es (newArray 16384) 0)).

(** Modelled from the spec: the reader of a payload (the record
    processor, [be_mpi_recordprocessor.cpp], is absent).  The payload is a
    sequence of records [{keyLength : uint32, valueSize : uint64,
    key : bytes[keyLength], value : bytes[valueSize]}]; [count] of them are
    read from the front, and the read fails when the payload ends early. *)
Fixpoint unpack_entries (count : nat) (payload : list byte)
  : option entries :=
  match count with
  | O => Some []
  | S count' =>
      let keyLength := Z.to_nat (le_combine (take 4 payload)) in
      let valueSize := Z.to_nat (le_combine (take 8 (drop 4 payload))) in
      let body := drop 12 payload in
      if (length payload <? 12)%nat
         || (length body <? keyLength + valueSize)%nat
      then None
      else
        let key := string_of_list_byte (take keyLength body) in
        let value := take valueSize (drop keyLength body) in
        match unpack_entries count' (drop (keyLength + valueSize) body) with
        | Some es => Some ((key, value) :: es)
        | None => None
        end
  end.

(** Modelled from the spec: reading a work package back, from its element
    count and its payload. *)
Definition unpack (wp : WorkPackage.t) : option entries :=
  unpack_entries (Z.to_nat (WorkPackage.numElements wp))
    (WorkPackage.data wp).

End WithAllocator.

(** *** The bytes of a payload, for the statements about it *)

(** The bytes of one entry: key length, value size, key, value. *)
Definition entryBytes (e : string * uint8Array) : list byte :=
  store_uint32 (Z.of_nat (String.length (fst e)))
    ++ store_uint64 (Z.of_nat (length (snd e)))
    ++ list_byte_of_string (fst e) ++ snd e.

Definition entrySize (e : string * uint8Array) : Z :=
  12 + Z.of_nat (String.length (fst e)) + Z.of_nat (length (snd e)).

Definition payloadSize (es : entries) : Z :=
  fold_right (fun e n => entrySize e + n) 0 es.

Definition payloadBytes (es : entries) : list byte :=
  concat (map entryBytes es).

(** The entries the layout can hold: a key length is a [uint32_t], and the
    sizes and the buffer index are [uint64_t]. *)
Definition representable (es : entries) : Prop :=
  Forall (fun e => Z.of_nat (String.length (fst e)) < 2 ^ 32) es
  /\ payloadSize es < 2 ^ 64.

End Payload.

(** ** Record stores ([IO::RecordStore]) *)

Module RecordStore.

(** [IO::RecordStore::Record]. *)
Record record : Type := mkRecord { key : string; data : uint8Array }.

(** The part of the [IO::RecordStore] interface the Distributor uses.
    Each call returns its outcome and the store as the call leaves it (a
    failing call may still have moved the cursor). *)
Class Store (S : Type) : Type := {
  sequence : S -> result record * S;
  sequenceKey : S -> result string * S;
  setCursorAtKey : string -> S -> result unit * S;
  getCount : S -> Z
}.

(** The [cursor] argument of [sequence]. *)
Inductive SeqCursor : Type :=
| BE_RECSTORE_SEQ_START
| BE_RECSTORE_SEQ_NEXT
| SEQ_OTHER (value : Z).

Definition isStart (c : SeqCursor) : bool :=
  match c with BE_RECSTORE_SEQ_START => true | _ => false end.

(** [RecordStore::Impl::validateKeyString], as the class comment of
    [FileRecordStore::Impl] states it: a key is not empty, holds no path
    delimiter and does not begin with white space. *)
Definition isPathDelimiter (c : ascii) : bool :=
  match c with "/"%char | "\"%char => true | _ => false end.

Definition validateKeyString (k : string) : bool :=
  match k with
  | EmptyString => false
  | String c _ =>
      negb (isspace c)
      && negb (existsb isPathDelimiter (list_ascii_of_string k))
  end.

End RecordStore.

Module FileRecordStore.
Import RecordStore.

(** What [stat] says of a directory entry. *)
Inductive StatResult : Type := StatFails | Directory | RegularFile.

(** An entry of the directory [_theFilesDir] as [readdir] returns it, with
    what [stat] answers for it and what reading the file of that name
    yields: its bytes, or the exception of [IO::Utility::getFileSize],
    [fopen] or a short [fread]. *)
Record dirent : Type := mkDirent {
  d_ino : Z;
  d_name : string;
  st_mode : StatResult;
  content : result uint8Array
}.

(** The state of a [FileRecordStore::Impl]: the directory, [_cursorPos],
    and of the base class the sequencing state ([getCursor]/[setCursor])
    and the record count ([getCount]). *)
Record t : Type := mk {
  opendirOk : bool;
  theFiles : list dirent;
  _cursorPos : Z;
  cursor : SeqCursor;
  count : Z
}.

Definition setCursorPos (fs : t) (p : Z) : t :=
  mk (opendirOk fs) (theFiles fs) p (cursor fs) (count fs).

Definition setCursor (fs : t) (c : SeqCursor) : t :=
  mk (opendirOk fs) (theFiles fs) (_cursorPos fs) c (count fs).

(** [FileRecordStore::Impl::read(key)]. *)
Definition read (fs : t) (k : string) : result uint8Array :=
  if negb (validateKeyString k) then
    Throw (StrategyError "Invalid key format")
  else
    match List.find (fun e => String.eqb (d_name e) k) (theFiles fs) with
    | None => Throw (ObjectDoesNotExist "")
    | Some e => content e
    end.

(** The [readdir] loop of [i_sequence]: entries with [d_ino == 0] and
    directories are passed over, a failing [stat] throws, and the loop
    breaks at the [pos]-th record file.  Returns [entry] ([None] for
    [nullptr], the directory being exhausted) and [i]. *)
Fixpoint seekPosition (es : list dirent) (i pos : Z)
  : result (option dirent * Z) :=
  match es with
  | [] => Ok (None, i)
  | e :: es' =>
      if d_ino e =? 0 then seekPosition es' i pos
      else
        match st_mode e with
        | StatFails => Throw (StrategyError "Cannot stat store file")
        | Directory => seekPosition es' i pos
        | RegularFile =>
            if i =? pos then Ok (Some e, i)
            else seekPosition es' (uint64_t (i + 1)) pos
        end
  end.

(** [FileRecordStore::Impl::i_sequence(returnData, cursor)]. *)
Definition i_sequence (returnData : bool) (cur : SeqCursor) (fs : t)
  : result record * t :=
  match cur with
  | SEQ_OTHER _ =>
      (Throw (StrategyError "Invalid cursor position as argument"), fs)
  | _ =>
      if negb (opendirOk fs) then
        (Throw (StrategyError "Cannot open store directory"), fs)
      else
        let fs :=
          if isStart (cursor fs) || isStart cur
          then setCursorPos fs 1 else fs in
        if count fs <? _cursorPos fs then
          (Throw (ObjectDoesNotExist "No record at position"), fs)
        else
          match seekPosition (theFiles fs) 1 (_cursorPos fs) with
          | Throw e => (Throw e, fs)
          | Ok (entry, i) =>
              if _cursorPos fs <? i then
                (Throw (StrategyError
                          "Record cursor position out of sync"), fs)
              else
                match entry with
                | None => (Throw (Crash "entry->d_name: entry is null"), fs)
                | Some e =>
                    let fs := setCursor fs BE_RECSTORE_SEQ_NEXT in
                    let fs := setCursorPos fs (uint64_t (i + 1)) in
                    if returnData then
                      match read fs (d_name e) with
                      | Ok bytes => (Ok (mkRecord (d_name e) bytes), fs)
                      | Throw ex => (Throw ex, fs)
                      end
                    else (Ok (mkRecord (d_name e) []), fs)
                end
          end
  end.

Definition sequence (fs : t) : result record * t :=
  i_sequence true BE_RECSTORE_SEQ_NEXT fs.

Definition sequenceKey (fs : t) : result string * t :=
  match i_sequence false BE_RECSTORE_SEQ_NEXT fs with
  | (Ok r, fs') => (Ok (key r), fs')
  | (Throw e, fs') => (Throw e, fs')
  end.

(** The [readdir] loop of [setCursorAtKey]: the position of the record
    file named [k], [None] when the directory is exhausted.  The counter
    is an [int i]. *)
Fixpoint seekKey (es : list dirent) (i : Z) (k : string)
  : result (option Z) :=
  match es with
  | [] => Ok None
  | e :: es' =>
      if d_ino e =? 0 then seekKey es' i k
      else
        match st_mode e with
        | StatFails => Throw (StrategyError "Cannot stat store file")
        | Directory => seekKey es' i k
        | RegularFile =>
            if String.eqb k (d_name e) then Ok (Some i)
            else seekKey es' (int32_t (i + 1)) k
        end
  end.

(** [FileRecordStore::Impl::setCursorAtKey(key)]; [_cursorPos = i] turns
    the [int] into the [uint64_t] of the member. *)
Definition setCursorAtKey (k : string) (fs : t) : result unit * t :=
  if negb (validateKeyString k) then
    (Throw (StrategyError "Invalid key format"), fs)
  else if negb (opendirOk fs) then
    (Throw (StrategyError "Cannot open store directory"), fs)
  else
    match seekKey (theFiles fs) 1 k with
    | Throw e => (Throw e, fs)
    | Ok None => (Throw (ObjectDoesNotExist k), fs)
    | Ok (Some i) => (Ok tt, setCursorPos fs (uint64_t i))
    end.

#[export] Instance store : Store t := {
  RecordStore.sequence := sequence;
  RecordStore.sequenceKey := sequenceKey;
  RecordStore.setCursorAtKey := setCursorAtKey;
  RecordStore.getCount := count
}.

End FileRecordStore.

(** ** The checkpoint store ([IO::PropertiesFile]) *)

Module PropertiesFile.

(** Modelled from the spec: the checkpoint store, a key/value property file
    with [setProperty], [getProperty], [setPropertyFromInteger],
    [getPropertyAsInteger] and [sync()] ([be_io_propertiesfile.h] is
    absent).  [props] are the properties of the object, [stored] those of
    the file; [sync] writes the former to the latter, or throws when the
    file cannot be written. *)
Record t : Type := mk {
  props : gmap string string;
  stored : gmap string string;
  writable : bool
}.

Definition INT64_MIN : Z := - 2 ^ 63.
Definition INT64_MAX : Z := 2 ^ 63 - 1.

(** The value of a [uint64_t] passed as [int64_t]. *)
Definition int64_t (z : Z) : Z :=
  let u := uint64_t z in if u <? 2 ^ 63 then u else u - 2 ^ 64.

Definition getProperty (p : t) (name : string) : result string :=
  match props p !! name with
  | Some v => Ok v
  | None => Throw (ObjectDoesNotExist name)
  end.

Definition setProperty (p : t) (name value : string) : t :=
  mk (<[name := value]> (props p)) (stored p) (writable p).

Definition setPropertyFromInteger (p : t) (name : string) (value : Z) : t :=
  setProperty p name (to_string (int64_t value)).

Definition getPropertyAsInteger (p : t) (name : string) : result Z :=
  match getProperty p name with
  | Throw e => Throw e
  | Ok v =>
      match parse_int INT64_MIN INT64_MAX v with
      | Ok z => Ok z
      | Throw _ => Throw (ErrorException "ConversionError")
      end
  end.

Definition sync (p : t) : result unit * t :=
  if writable p then (Ok tt, mk (props p) (props p) (writable p))
  else (Throw (StrategyError "Could not write properties"), p).

End PropertiesFile.

(** ** The Distributor of a record store
       ([be_mpi_recordstoredistributor.cpp]) *)

Module RecordStoreDistributor.
Import RecordStore.

Definition CHECKPOINTLASTKEY : string := "Last Key".
Definition CHECKPOINTNUMKEYS : string := "Num Keys".
(** Modelled from the spec: the name under which the checkpoint keeps its
    [reason] ([Distributor::CHECKPOINTREASON], declared in the absent
    [be_mpi_distributor.h]). *)
Definition CHECKPOINTREASON : string := "Reason".

Section WithStore.
Context {alloc : Allocator} {S : Type} {store : Store S}.

(** The state of a [RecordStoreDistributor] of rank 0: its members, and of
    its resources the chunk size, the record store, the log sheet and the
    checkpoint data. *)
Record t : Type := mk {
  _recordsRemaining : Z;
  _lastDistributedKey : string;
  _includeValues : bool;
  chunkSize : Z;
  recordStore : S;
  logsheet : list string;
  checkpointData : PropertiesFile.t
}.

(** The constructor (rank 0, with a record store). *)
Definition create (includeValues : bool) (chunk : Z) (rs : S)
    (chk : PropertiesFile.t) : t :=
  mk (uint64_t (getCount rs)) "" includeValues chunk rs [] chk.

(** What [createWorkPackage] does to the counter and to the record store,
    in program order: the assignment to [_recordsRemaining] (with the new
    value) and each [sequence()] or [sequenceKey()] call (with its
    outcome). *)
Inductive Event : Type :=
| SetRemaining (value : Z)
| Pull (outcome : result record).

Definition isPull (e : Event) : bool :=
  match e with Pull _ => true | SetRemaining _ => false end.

Definition isGoodPull (e : Event) : bool :=
  match e with Pull (Ok _) => true | _ => false end.

(** The locals of the [for] loop of [createWorkPackage] and the members it
    changes. *)
Record Filling : Type := mkFilling {
  f_store : S;
  f_lastKey : string;
  f_packageData : uint8Array;
  f_index : Z;
  f_realKeyCount : Z;
  f_record : record;
  f_log : list string;
  f_events : list Event
}.

(** The [try] block's pull: [record = recordStore->sequence()] or
    [record.key = recordStore->sequenceKey()]. *)
Definition pull (includeValues : bool) (rec : record) (rs : S)
  : result record * S :=
  if includeValues then sequence rs
  else
    match sequenceKey rs with
    | (Ok k, rs') => (Ok (mkRecord k (data rec)), rs')
    | (Throw e, rs') => (Throw e, rs')
    end.

(** One iteration of the loop, with the state as the iteration leaves it.
    [Throw] is an exception the [catch (Error::Exception &)] does not
    take: it leaves [createWorkPackage]. *)
Definition fillOne (includeValues : bool) (f : Filling)
  : result unit * Filling :=
  let '(r, rs') := pull includeValues (f_record f) (f_store f) in
  match r with
  | Ok rec =>
      let '(buf, index) :=
        Payload.fillBufferWithKeyAndValue
          (f_packageData f) (key rec) (data rec) (f_index f) in
      (Ok tt,
       mkFilling rs' (key rec) buf index
         (uint64_t (f_realKeyCount f + 1)) rec (f_log f)
         (f_events f ++ [Pull (Ok rec)]))
  | Throw e =>
      if isErrorException e then
        (Ok tt,
         mkFilling rs' (f_lastKey f) (f_packageData f) (f_index f)
           (f_realKeyCount f) (f_record f)
           (f_log f ++ [("Caught " +:+ whatString e)%string])
           (f_events f ++ [Pull (Throw e)]))
      else
        (Throw e,
         mkFilling rs' (f_lastKey f) (f_packageData f) (f_index f)
           (f_realKeyCount f) (f_record f) (f_log f)
           (f_events f ++ [Pull (Throw e)]))
  end.

(** [for (n = 0; n < keyCount; n++)]. *)
Fixpoint fillLoop (includeValues : bool) (keyCount : nat) (f : Filling)
  : result unit * Filling :=
  match keyCount with
  | O => (Ok tt, f)
  | Datatypes.S n =>
      match fillOne includeValues f with
      | (Ok _, f') => fillLoop includeValues n f'
      | (Throw e, f') => (Throw e, f')
      end
  end.

(** [RecordStoreDistributor::createWorkPackage(workPackage)]: the package
    (or the exception that leaves the call), the Distributor afterwards,
    and the events of the call. *)
Definition createWorkPackage (d : t)
  : result WorkPackage.t * t * list Event :=
  let packageData := newArray 16384 in
  if _recordsRemaining d =? 0 then
    (Ok (WorkPackage.mk 0 packageData), d, [])
  else
    let keyCount :=
      if chunkSize d <? _recordsRemaining d
      then chunkSize d else _recordsRemaining d in
    let remaining := uint64_t (_recordsRemaining d - keyCount) in
    let '(r, f) :=
      fillLoop (_includeValues d) (Z.to_nat keyCount)
        (mkFilling (recordStore d) (_lastDistributedKey d) packageData 0 0
           (mkRecord "" []) (logsheet d) [SetRemaining remaining]) in
    (match r with
     | Ok _ => Ok (WorkPackage.mk (f_realKeyCount f) (f_packageData f))
     | Throw e => Throw e
     end,
     mk remaining (f_lastKey f) (_includeValues d) (chunkSize d)
       (f_store f) (f_log f) (checkpointData d),
     f_events f).

(** [n] successive calls of [createWorkPackage]: their outcomes, the
    Distributor after the last one, and the events of all of them. *)
Fixpoint createWorkPackages (n : nat) (d : t)
  : list (result WorkPackage.t) * t * list Event :=
  match n with
  | O => ([], d, [])
  | Datatypes.S n' =>
      let '(r, d1, ev1) := createWorkPackage d in
      let '(rs, d2, ev2) := createWorkPackages n' d1 in
      (r :: rs, d2, ev1 ++ ev2)
  end.

Definition setCheckpointData (d : t) (chk : PropertiesFile.t) : t :=
  mk (_recordsRemaining d) (_lastDistributedKey d) (_includeValues d)
    (chunkSize d) (recordStore d) (logsheet d) chk.

Definition writeDebug (d : t) (line : string) : t :=
  mk (_recordsRemaining d) (_lastDistributedKey d) (_includeValues d)
    (chunkSize d) (recordStore d) (logsheet d ++ [line])
    (checkpointData d).

Definition setRecordStore (d : t) (rs : S) : t :=
  mk (_recordsRemaining d) (_lastDistributedKey d) (_includeValues d)
    (chunkSize d) rs (logsheet d) (checkpointData d).

Definition setRecordsRemaining (d : t) (n : Z) : t :=
  mk n (_lastDistributedKey d) (_includeValues d)
    (chunkSize d) (recordStore d) (logsheet d) (checkpointData d).

(** [RecordStoreDistributor::checkpointSave(reason)]. *)
Definition checkpointSave (reason : string) (d : t) : t :=
  let chkData := checkpointData d in
  let chkData := PropertiesFile.setProperty chkData CHECKPOINTREASON reason in
  let chkData :=
    PropertiesFile.setProperty chkData CHECKPOINTLASTKEY
      (_lastDistributedKey d) in
  let keyCount :=
    uint64_t (getCount (recordStore d) - _recordsRemaining d) in
  let chkData :=
    PropertiesFile.setPropertyFromInteger chkData CHECKPOINTNUMKEYS
      keyCount in
  match PropertiesFile.sync chkData with
  | (Ok _, chkData) =>
      writeDebug (setCheckpointData d chkData)
        ("Checkpoint saved: " +:+ reason)%string
  | (Throw e, chkData) =>
      writeDebug (setCheckpointData d chkData)
        ("Checkpoint save: Caught " +:+ whatString e)%string
  end.

(** The [catch] of [checkpointRestore]: an [Error::Exception] is logged
    and thrown again; another exception passes through. *)
Definition rethrow (e : Exception) (d : t) : result unit * t :=
  (Throw e,
   if isErrorException e
   then writeDebug d ("Checkpoint restore: Caught " +:+ whatString e)%string
   else d).

(** [RecordStoreDistributor::checkpointRestore()]. *)
Definition checkpointRestore (d : t) : result unit * t :=
  let chkData := checkpointData d in
  match PropertiesFile.getProperty chkData CHECKPOINTLASTKEY with
  | Throw e => rethrow e d
  | Ok lastKey =>
      match setCursorAtKey lastKey (recordStore d) with
      | (Throw e, rs) => rethrow e (setRecordStore d rs)
      | (Ok _, rs) =>
          match sequence rs with
          | (Throw e, rs) => rethrow e (setRecordStore d rs)
          | (Ok _, rs) =>
              let d := setRecordStore d rs in
              match PropertiesFile.getPropertyAsInteger chkData
                      CHECKPOINTNUMKEYS with
              | Throw e => rethrow e d
              | Ok numKeys =>
                  let d :=
                    setRecordsRemaining d
                      (uint64_t (_recordsRemaining d - numKeys)) in
                  match PropertiesFile.getProperty chkData
                          CHECKPOINTREASON with
                  | Throw e => rethrow e d
                  | Ok reason =>
                      (Ok tt,
                       writeDebug d
                         ("Checkpoint restore: " +:+ reason)%string)
                  end
              end
          end
      end
  end.

(** *** The pulls and packages of a run, for the statements about them *)

(** The records of the pulls that succeeded, and the pair each one puts
    into the package. *)
Definition goodRecords (os : list (result record)) : list record :=
  omap (fun o => match o with Ok r => Some r | Throw _ => None end) os.

Definition entryOf (r : record) : string * uint8Array := (key r, data r).

(** A pull the loop goes on after: it succeeded, or threw what the
    [catch (Error::Exception &)] takes. *)
Definition survivable (o : result record) : bool :=
  match o with
  | Ok _ => true
  | Throw e => isErrorException e
  end.

(** One read of the record store as [IO::RecordStore] serves it: the next
    record with its value ([sequence()]), or the next key alone
    ([sequenceKey()]), the value then being empty. *)
Definition readNext (includeValues : bool) (rs : S) : result record * S :=
  if includeValues then sequence rs
  else
    match sequenceKey rs with
    | (Ok k, rs') => (Ok (mkRecord k []), rs')
    | (Throw e, rs') => (Throw e, rs')
    end.

(** [n] successive reads of the store, cut short after a read that throws
    what is no [Error::Exception]: the outcomes, and the store as the last
    read leaves it. *)
Fixpoint readRun (includeValues : bool) (n : nat) (rs : S)
  : list (result record) * S :=
  match n with
  | O => ([], rs)
  | Datatypes.S n' =>
      let '(o, rs1) := readNext includeValues rs in
      if survivable o then
        let '(os, rs2) := readRun includeValues n' rs1 in (o :: os, rs2)
      else ([o], rs1)
  end.

(** The number of keys a call sets out to pull. *)
Definition target (d : t) : Z :=
  Z.min (_recordsRemaining d) (chunkSize d).

Definition numElementsOf (r : result WorkPackage.t) : Z :=
  match r with
  | Ok wp => WorkPackage.numElements wp
  | Throw _ => 0
  end.

Definition sumElements (rs : list (result WorkPackage.t)) : Z :=
  fold_right Z.add 0 (map numElementsOf rs).

(** The keys a run tried to read, and those it read. *)
Definition pullCount (evs : list Event) : Z :=
  Z.of_nat (length (filter (fun e => isPull e = true) evs)).

Definition goodPullCount (evs : list Event) : Z :=
  Z.of_nat (length (filter (fun e => isGoodPull e = true) evs)).

Definition allPullsGood (evs : list Event) : Prop :=
  forall e, In e evs -> isPull e = true -> isGoodPull e = true.

(** The sizes of [n] successive packages when every read succeeds. *)
Fixpoint chunks (n : nat) (remaining chunk : Z) : list Z :=
  match n with
  | O => []
  | Datatypes.S n' =>
      Z.min remaining chunk
        :: chunks n' (Z.max 0 (remaining - chunk)) chunk
  end.

End WithStore.
End RecordStoreDistributor.

(** ** How a loop that talks to its surroundings ends *)

(** The loops of the worker and of the Receiver run against a script of what
    their surroundings answer.  A run ends with a value, with an exception no
    handler of the function takes, or with the script used up while the loop
    is still going. *)
Inductive Ending (A : Type) : Type :=
| Returned (a : A)
| Uncaught (e : Exception)
| ScriptEnded.
Arguments Returned {A} a.
Arguments Uncaught {A} e.
Arguments ScriptEnded {A}.

(** ** The worker loop ([Receiver::PackageWorker::workerMain]) *)

Module PackageWorker.
Section WithCodes.
Context {codes : WireCodes}.
Import Message.

(** What one pass through the [while] loop meets, call by call: the value
    of [stopRequested()], of [MPI::Exit || MPI::QuickExit ||
    MPI::TermExit], and the outcomes of [sendMessageToManager], of the
    three [waitForMessage]/[receiveMessageFromManager] pairs (command,
    element count, package data) and of [processWorkPackage]. *)
Record Turn : Type := mkTurn {
  stopRequested : bool;
  exitCondition : bool;
  sendMessageToManager : result unit;
  waitForCommand : result bool;
  receiveCommand : result uint8Array;
  waitForCount : result bool;
  receiveCount : result uint8Array;
  waitForData : result bool;
  receiveData : result uint8Array;
  processWorkPackage : result unit
}.

(** What the worker does that others can see. *)
Inductive Event : Type :=
| LogMessage (text : string)
| SentToManager (message : uint8Array)
| Processed (workPackage : WorkPackage.t) (outcome : result unit).

(** How a pass ends: [continue] (or the end of the body) with the value of
    [taskStatus], [break] (or the loop condition failing), or an exception
    that leaves [workerMain]. *)
Inductive Next : Type :=
| Again (taskStatus : TaskStatus.t)
| Leave
| Escapes (e : Exception).

(** [std::memcpy(&wpCount, &message[0], sizeof(wpCount))]. *)
Definition readCount (message : uint8Array) : Z :=
  le_combine (take 8 message).

(** The second [try] block: receive the element count and the data. *)
Definition receiveWorkPackage (t : Turn) : result WorkPackage.t :=
  match waitForCount t with
  | Throw e => Throw e
  | Ok _ =>
      match receiveCount t with
      | Throw e => Throw e
      | Ok message =>
          let wpCount := readCount message in
          match waitForData t with
          | Throw e => Throw e
          | Ok _ =>
              match receiveData t with
              | Throw e => Throw e
              | Ok message => Ok (WorkPackage.mk wpCount message)
              end
          end
      end
  end.

(** The third [try] block. *)
Definition process (t : Turn) (wp : WorkPackage.t) : list Event * Next :=
  match processWorkPackage t with
  | Ok u => ([Processed wp (Ok u)], Again TaskStatus.OK)
  | Throw e =>
      if isTerminateJob e then
        ([Processed wp (Throw e);
          LogMessage
            ("Package processor wants complete job termination: "
               +:+ whatString e)%string],
         Again TaskStatus.RequestJobTermination)
      else if isErrorException e then
        ([Processed wp (Throw e);
          LogMessage
            ("Package processor wants shutdown: " +:+ whatString e)%string],
         Again TaskStatus.Failed)
      else ([Processed wp (Throw e)], Escapes e)
  end.

(** From the first [waitForMessage()] to the end of the body; the status
    sent was [OK]. *)
Definition awaitCommand (t : Turn) : list Event * Next :=
  let failed (text : string) (e : Exception) : list Event * Next :=
    if isErrorException e
    then ([LogMessage (text +:+ whatString e)%string],
          Again TaskStatus.Failed)
    else ([], Escapes e) in
  match waitForCommand t with
  | Throw e => failed "Worker receive message failure: "%string e
  | Ok false => ([], Leave)
  | Ok true =>
      match receiveCommand t with
      | Throw e => failed "Worker receive message failure: "%string e
      | Ok message =>
          match messageToCommand message with
          | Throw e => ([], Escapes e)
          | Ok (Some TaskCommand.Ignore) => ([], Again TaskStatus.OK)
          | Ok _ =>
              match receiveWorkPackage t with
              | Throw e => failed "Failed to receive work package: "%string e
              | Ok wp => process t wp
              end
          end
      end
  end.

(** One pass through the loop, the loop condition included. *)
Definition pass (taskStatus : TaskStatus.t) (t : Turn)
  : list Event * Next :=
  if stopRequested t then ([], Leave)
  else
    let '(ev0, taskStatus) :=
      if exitCondition t
      then ([LogMessage "Early Exit: End package requests"],
            TaskStatus.Exit)
      else ([], taskStatus) in
    let message := statusToMessage taskStatus in
    match sendMessageToManager t with
    | Throw e =>
        if isErrorException e
        then (ev0 ++ [LogMessage ("Worker send message failure: "
                                    +:+ whatString e)%string], Leave)
        else (ev0, Escapes e)
    | Ok _ =>
        if negb (TaskStatus.eqb taskStatus TaskStatus.OK)
        then (ev0 ++ [SentToManager message], Leave)
        else
          let '(ev, next) := awaitCommand t in
          (ev0 ++ SentToManager message :: ev, next)
    end.

(** The [while] loop, entered with [taskStatus], and what follows it up to
    [return (0)]. *)
Fixpoint workerLoop (taskStatus : TaskStatus.t) (script : list Turn)
  : list Event * Ending Z :=
  match script with
  | [] => ([], ScriptEnded)
  | t :: script' =>
      match pass taskStatus t with
      | (ev, Again taskStatus') =>
          let '(ev', r) := workerLoop taskStatus' script' in (ev ++ ev', r)
      | (ev, Leave) =>
          (ev ++ [LogMessage "Worker process exiting"], Returned 0)
      | (ev, Escapes e) => (ev, Uncaught e)
      end
  end.

(** What [workerMain] meets before the loop: opening the log sheet, and
    [newProcessor] ([Ok false] for a null processor). *)
Record Startup : Type := mkStartup {
  openLogsheet : result unit;
  newProcessor : result bool
}.

(** [Receiver::PackageWorker::workerMain()]. *)
Definition workerMain (s : Startup) (script : list Turn)
  : list Event * Ending Z :=
  match openLogsheet s with
  | Throw e =>
      if isErrorException e then ([], Returned (-1)) else ([], Uncaught e)
  | Ok _ =>
      match newProcessor s with
      | Throw e =>
          ([LogMessage
              "Worker failed to create a child package processor"],
           Returned (-1))
      | Ok false =>
          ([LogMessage
              "Worker failed to create a child package processor"],
           Returned (-1))
      | Ok true => workerLoop TaskStatus.OK script
      end
  end.

(** The messages a run sent to the manager, in order. *)
Definition sentMessages (evs : list Event) : list uint8Array :=
  omap (fun e => match e with SentToManager m => Some m | _ => None end)
    evs.

(** Did the run call [processWorkPackage], and did the call throw [e]? *)
Definition processThrew (e : Exception) (evs : list Event) : Prop :=
  exists wp, In (Processed wp (Throw e)) evs.

End WithCodes.
End PackageWorker.

(** ** The Receiver ([be_mpi_receiver.cpp]) *)

Module Receiver.
Section WithCodes.
Context {codes : WireCodes}.
Import Message.

(** The process-wide flags [MPI::Exit], [MPI::QuickExit], [MPI::TermExit]. *)
Record ExitFlags : Type := mkFlags {
  Exit : bool;
  QuickExit : bool;
  TermExit : bool
}.

Definition noFlags : ExitFlags := mkFlags false false false.

(** Signal handlers set the flags and nothing clears them: the flags a
    check sees are those seen before together with those raised since. *)
Definition raise (seen raised : ExitFlags) : ExitFlags :=
  mkFlags (Exit seen || Exit raised) (QuickExit seen || QuickExit raised)
    (TermExit seen || TermExit raised).

Inductive Signal : Type := SIGINT | SIGKILL.

(** A local worker, as [getNextMessage] identifies it. *)
Definition Worker : Type := nat.

(** What the Receiver does that others can see.  [SendToDistributor] is a
    [Send] of a status to Task-0; [AskForWorkPackage] is the [Sendrecv] of
    the request loop, which sends Task-0 the status [OK] and receives its
    command; [StartWorker] and [StopWorker] are the calls of
    [startWorker] and of a [stopWorker] that returns. *)
Inductive Event : Type :=
| LogMessage (text : string)
| SendToDistributor (taskStatus : TaskStatus.t)
| AskForWorkPackage
| ReceivedWorkPackage (workPackage : WorkPackage.t)
| BroadcastSignal (signo : Signal)
| FromWorker (worker : Worker) (message : uint8Array)
| SendToWorker (worker : Worker) (message : uint8Array)
| StopWorker (worker : Worker)
| PerformInitialization
| StartWorker
| PerformShutdown
| Barrier.

(** What one pass through the [while (true)] of [sendWorkPackage] meets:
    flags raised since the last check, [getNumActiveWorkers()], an
    out-of-band command of Task-0 if [Iprobe] finds one, and the outcomes
    of [getNextMessage] and of [stopWorker]. *)
Record Poll : Type := mkPoll {
  p_raised : ExitFlags;
  getNumActiveWorkers : Z;
  oobCmd : option Z;
  getNextMessage : result (option (Worker * uint8Array));
  stopWorker : result unit
}.

(** The outcomes of the three [sendMessageToWorker] calls that hand the
    package over. *)
Record Handover : Type := mkHandover {
  sendContinue : result unit;
  sendCount : result unit;
  sendData : result unit
}.

(** The out-of-band check of [sendWorkPackage]. *)
Definition outOfBand (flags : ExitFlags) (oob : option Z)
  : list Event * ExitFlags :=
  match oob with
  | None => ([], flags)
  | Some cmd =>
      match to_enum_command cmd with
      | Some TaskCommand.QuickExit =>
          ([LogMessage "OOB Quick Exit received"],
           mkFlags (Exit flags) true (TermExit flags))
      | Some TaskCommand.TermExit =>
          ([LogMessage "OOB Term Exit received"],
           mkFlags (Exit flags) (QuickExit flags) true)
      | _ => ([], flags)
      end
  end.

(** The tail of [sendWorkPackage]: the [Continue] command, the element
    count, the data. *)
Definition handOver (worker : Worker) (wp : WorkPackage.t) (h : Handover)
  : list Event * Ending unit :=
  let m1 := commandToMessage TaskCommand.Continue in
  match sendContinue h with
  | Throw e => ([], Uncaught e)
  | Ok _ =>
      let m2 := le_split 8 (WorkPackage.numElements wp) in
      match sendCount h with
      | Throw e => ([SendToWorker worker m1], Uncaught e)
      | Ok _ =>
          match sendData h with
          | Throw e =>
              ([SendToWorker worker m1; SendToWorker worker m2], Uncaught e)
          | Ok _ =>
              ([SendToWorker worker m1; SendToWorker worker m2;
                SendToWorker worker (WorkPackage.data wp);
                LogMessage
                  ("Sent work package of size "
                     +:+ to_string (Z.of_nat (length (WorkPackage.data wp)))
                     +:+ " to worker")%string],
               Returned tt)
          end
      end
  end.

(** [Receiver::sendWorkPackage(workPackage)].  [Uncaught e] is an
    exception that leaves the function. *)
Fixpoint sendWorkPackage (flags : ExitFlags) (wp : WorkPackage.t)
    (polls : list Poll) (h : Handover)
  : list Event * Ending unit * ExitFlags :=
  match polls with
  | [] => ([], ScriptEnded, flags)
  | p :: polls' =>
      if getNumActiveWorkers p =? 0 then
        ([], Uncaught (StrategyError "No workers"), flags)
      else
        let '(ev0, flags) := outOfBand (raise flags (p_raised p)) (oobCmd p) in
        if QuickExit flags || TermExit flags then (ev0, Returned tt, flags)
        else
          match getNextMessage p with
          | Throw e => (ev0, Uncaught e, flags)
          | Ok None =>
              let '(ev, r, flags) := sendWorkPackage flags wp polls' h in
              (ev0 ++ ev, r, flags)
          | Ok (Some (worker, message)) =>
              let ev1 := ev0 ++ [FromWorker worker message] in
              match messageToStatus message with
              | Throw e => (ev1, Uncaught e, flags)
              | Ok (Some TaskStatus.RequestJobTermination) =>
                  (ev1, Uncaught (TerminateJob ""), flags)
              | Ok (Some TaskStatus.OK) =>
                  let '(ev, r) := handOver worker wp h in
                  (ev1 ++ ev, r, flags)
              | Ok _ =>
                  match stopWorker p with
                  | Ok _ =>
                      let '(ev, r, flags) :=
                        sendWorkPackage flags wp polls' h in
                      (ev1 ++ StopWorker worker :: ev, r, flags)
                  | Throw e =>
                      if isErrorException e then
                        let '(ev, r, flags) :=
                          sendWorkPackage flags wp polls' h in
                        (ev1 ++ LogMessage
                                  ("Task-N stopping worker: Caught: "
                                     +:+ whatString e)%string :: ev,
                         r, flags)
                      else (ev1, Uncaught e, flags)
                  end
              end
          end
  end.

(** What one pass through the [while (true)] of [requestWorkPackages]
    meets: flags raised since the last check, the command Task-0 answers
    the request with, the package that follows (raw data, then element
    count), and what its dispatch meets. *)
Record Round : Type := mkRound {
  r_raised : ExitFlags;
  taskCommand : Z;
  workPackageRaw : uint8Array;
  numElements : Z;
  polls : list Poll;
  handover : Handover
}.

(** The three checks of the local exit conditions at the top of the loop:
    the events of the branch taken, if one is. *)
Definition localExit (flags : ExitFlags) : option (list Event) :=
  if Exit flags then
    Some [LogMessage "Exit signal"; SendToDistributor TaskStatus.Exit]
  else if QuickExit flags then
    Some [LogMessage "Quick Exit signal"; BroadcastSignal SIGINT;
          SendToDistributor TaskStatus.Exit]
  else if TermExit flags then
    Some [LogMessage "Termination Exit signal"; BroadcastSignal SIGKILL;
          SendToDistributor TaskStatus.Exit]
  else None.

(** The [try] block around [sendWorkPackage] with its two handlers: the
    events, the flags, and how the pass ends ([inl status]: the loop goes
    on with [status]; [inr ending]: the loop is left). *)
Definition dispatch (flags : ExitFlags) (status : TaskStatus.t) (r : Round)
  : list Event * ExitFlags * (TaskStatus.t + Ending TaskStatus.t) :=
  let wp := WorkPackage.mk (numElements r) (workPackageRaw r) in
  let '(ev, e, flags) := sendWorkPackage flags wp (polls r) (handover r) in
  match e with
  | Returned _ => (ev, flags, inl status)
  | ScriptEnded => (ev, flags, inr ScriptEnded)
  | Uncaught ex =>
      if isTerminateJob ex then
        (ev ++ [LogMessage
                  ("Package processor requested job termination "
                     +:+ whatString ex)%string;
                SendToDistributor TaskStatus.RequestJobTermination],
         flags, inl TaskStatus.RequestJobTermination)
      else if isErrorException ex then
        (ev ++ [LogMessage
                  ("Failure to process work package: "
                     +:+ whatString ex)%string;
                SendToDistributor TaskStatus.Failed],
         flags, inr (Returned TaskStatus.Failed))
      else (ev, flags, inr (Uncaught ex))
  end.

(** One pass through the loop of [requestWorkPackages].  (The log line
    that names the command received is left out: the names are in the
    absent [be_mpi.cpp].) *)
Definition round (flags : ExitFlags) (status : TaskStatus.t) (r : Round)
  : list Event * ExitFlags * (TaskStatus.t + Ending TaskStatus.t) :=
  let flags := raise flags (r_raised r) in
  match localExit flags with
  | Some ev => (ev, flags, inr (Returned TaskStatus.Exit))
  | None =>
      let ask := [LogMessage "Asking for work package"; AskForWorkPackage] in
      match to_enum_command (taskCommand r) with
      | Some TaskCommand.Ignore => (ask, flags, inl status)
      | Some TaskCommand.Exit => (ask, flags, inr (Returned status))
      | Some TaskCommand.QuickExit =>
          (ask ++ [BroadcastSignal SIGINT], flags, inr (Returned status))
      | Some TaskCommand.TermExit =>
          (ask ++ [BroadcastSignal SIGKILL], flags, inr (Returned status))
      | _ =>
          let wp := WorkPackage.mk (numElements r) (workPackageRaw r) in
          let '(ev, flags, next) := dispatch flags status r in
          (ask ++ ReceivedWorkPackage wp :: ev, flags, next)
      end
  end.

(** [Receiver::requestWorkPackages()], entered with the flags as last
    seen; [status] is [TaskStatus::OK] at the start. *)
Fixpoint requestLoop (flags : ExitFlags) (status : TaskStatus.t)
    (script : list Round)
  : list Event * ExitFlags * Ending TaskStatus.t :=
  match script with
  | [] => ([], flags, ScriptEnded)
  | r :: script' =>
      match round flags status r with
      | (ev, flags, inl status') =>
          let '(ev', flags, e) := requestLoop flags status' script' in
          (ev ++ ev', flags, e)
      | (ev, flags, inr e) => (ev, flags, e)
      end
  end.

Definition requestWorkPackages (flags : ExitFlags) (script : list Round)
  : list Event * ExitFlags * Ending TaskStatus.t :=
  requestLoop flags TaskStatus.OK script.

(** What [shutdown] meets: flags raised since the last check,
    [getNumActiveWorkers()], for each pass of its loop the outcomes of
    [getNextMessage] and [stopWorker], and the outcome of
    [performShutdown]. *)
Record Closing : Type := mkClosing {
  c_raised : ExitFlags;
  workerCount : Z;
  lastMessages : list (result (option (Worker * uint8Array)) * result unit);
  performShutdown : result unit
}.

(** The [for] loop of [shutdown] that stops the workers: its events, and
    the exception that leaves it when [getNextMessage] or [stopWorker]
    throws what the handlers ([catch (Error::Exception &)]) do not take. *)
Fixpoint stopWorkers (n : nat)
    (ms : list (result (option (Worker * uint8Array)) * result unit))
  : list Event * option Exception :=
  match n, ms with
  | Datatypes.S n', (Ok (Some (worker, _)), stopped) :: ms' =>
      match stopped with
      | Ok _ =>
          let '(ev, escaped) := stopWorkers n' ms' in
          (StopWorker worker :: ev, escaped)
      | Throw e =>
          if isErrorException e then
            let '(ev, escaped) := stopWorkers n' ms' in
            (LogMessage ("Task-N stopping worker: Caught: "
                           +:+ whatString e)%string :: ev, escaped)
          else ([], Some e)
      end
  | Datatypes.S _, (Throw e, _) :: _ =>
      if isErrorException e then
        ([LogMessage ("Task-N receiving message: Caught: "
                        +:+ whatString e)%string], None)
      else ([], Some e)
  | _, _ => ([], None)
  end.

(** [Receiver::shutdown(taskStatus, reason)].  [Uncaught e] is an
    exception that leaves the function: what follows the throwing call is
    not done. *)
Definition shutdown (flags : ExitFlags) (taskStatus : TaskStatus.t)
    (reason : string) (c : Closing) : list Event * Ending unit :=
  let flags := raise flags (c_raised c) in
  let '(stops, escaped) :=
    if negb (TermExit flags) && (0 <? workerCount c) then
      let '(ev, escaped) :=
        stopWorkers (Z.to_nat (workerCount c)) (lastMessages c) in
      (LogMessage "Stopping workers" :: ev, escaped)
    else ([], None) in
  let begun := LogMessage ("Shutting down: " +:+ reason)%string :: stops in
  let final :=
    [Barrier; LogMessage "Sending final message";
     SendToDistributor taskStatus] in
  match escaped with
  | Some e => (begun, Uncaught e)
  | None =>
      match performShutdown c with
      | Ok _ => (begun ++ PerformShutdown :: final, Returned tt)
      | Throw e =>
          if isErrorException e then
            (begun ++ PerformShutdown
               :: LogMessage ("Could not shutdown package processor: "
                                +:+ whatString e)%string :: final,
             Returned tt)
          else (begun ++ [PerformShutdown], Uncaught e)
      end
  end.

(** The reason [start] gives [shutdown] for the status its request loop
    ended with. *)
Definition shutdownReason (status : TaskStatus.t) : string :=
  match status with
  | TaskStatus.OK => "Normal end"
  | TaskStatus.Exit => "Early exit"
  | TaskStatus.RequestJobTermination =>
      "Early exit (job termination requested)"
  | TaskStatus.Failed => "Failed"
  end.

(** What [start] meets: the opening of the log sheet, the start-up flag of
    Task-0, [performInitialization], the outcome of [startWorker] for each
    of the [getWorkersPerNode()] workers, the number of workers running
    after [startWorkers], the rounds of the request loop and the
    shutdown. *)
Record Startup : Type := mkStartup {
  openLogsheet : result unit;
  startupFlag : Z;
  performInitialization : result unit;
  workerStarts : list (result unit);
  workersStarted : Z;
  rounds : list Round;
  closing : Closing
}.

(** [Receiver::startWorkers()]: its events, and the exception of a
    [startWorker] that leaves it. *)
Fixpoint startWorkers (starts : list (result unit))
  : list Event * option Exception :=
  match starts with
  | [] => ([], None)
  | Ok _ :: starts' =>
      let '(ev, escaped) := startWorkers starts' in
      (StartWorker :: ev, escaped)
  | Throw e :: starts' =>
      if isErrorException e then
        let '(ev, escaped) := startWorkers starts' in
        (StartWorker
           :: LogMessage ("Worker start failed: " +:+ whatString e)%string
           :: ev, escaped)
      else ([StartWorker], Some e)
  end.

(** [Receiver::start()], entered with the flags as the process has them.
    The handlers take [Error::Exception]s; another exception leaves
    [start].  When the log sheet cannot be opened, [_logsheet] stays null,
    and the [shutdown] that follows begins by writing to it. *)
Definition start (flags : ExitFlags) (s : Startup)
  : list Event * Ending unit :=
  let closes (before : list Event) (taskStatus : TaskStatus.t)
      (reason : string) : list Event * Ending unit :=
    let '(ev, e) := shutdown flags taskStatus reason (closing s) in
    (before ++ ev, e) in
  match openLogsheet s with
  | Throw e =>
      if isErrorException e then
        ([Barrier; SendToDistributor TaskStatus.Failed],
         Uncaught (Crash "MPI::logMessage(*log, ...): _logsheet is null"))
      else ([Barrier], Uncaught e)
  | Ok _ =>
      let waited := [Barrier; LogMessage "Wait for startup message"] in
      if startupFlag s =? status_int TaskStatus.Failed then
        closes (waited ++ [SendToDistributor TaskStatus.OK])
          TaskStatus.OK "Distributor says abort"%string
      else
        match performInitialization s with
        | Throw e =>
            if isErrorException e then
              closes
                (waited
                   ++ [PerformInitialization;
                       LogMessage ("Could not initialize package processor: "
                                     +:+ whatString e)%string;
                       SendToDistributor TaskStatus.Failed])
                TaskStatus.Failed "Failed performInitalization()"%string
            else (waited ++ [PerformInitialization], Uncaught e)
        | Ok _ =>
            let '(evw, escaped) := startWorkers (workerStarts s) in
            let before := waited ++ PerformInitialization :: evw in
            match escaped with
            | Some e => (before, Uncaught e)
            | None =>
                if workersStarted s =? 0 then
                  closes (before ++ [SendToDistributor TaskStatus.Failed])
                    TaskStatus.Failed "No workers"%string
                else
                  match requestWorkPackages flags (rounds s) with
                  | (ev, flags, Returned status) =>
                      let '(evc, e) :=
                        shutdown flags status (shutdownReason status)
                          (closing s) in
                      (before ++ SendToDistributor TaskStatus.OK
                         :: ev ++ evc, e)
                  | (ev, _, Uncaught e) =>
                      (before ++ SendToDistributor TaskStatus.OK :: ev,
                       Uncaught e)
                  | (ev, _, ScriptEnded) =>
                      (before ++ SendToDistributor TaskStatus.OK :: ev,
                       ScriptEnded)
                  end
            end
        end
  end.

(** The statuses a run sent to Task-0, in order: those of its [Send]s and
    the [OK] that goes with each request for work. *)
Definition sentToDistributor (evs : list Event) : list TaskStatus.t :=
  omap (fun e => match e with
                 | SendToDistributor s => Some s
                 | AskForWorkPackage => Some TaskStatus.OK
                 | _ => None
                 end) evs.

(** An outcome the handlers of [start] and [shutdown] go on after: a
    return, or an [Error::Exception]. *)
Definition caught {A : Type} (o : result A) : bool :=
  match o with
  | Ok _ => true
  | Throw e => isErrorException e
  end.

(** A shutdown whose collaborators ([getNextMessage], [stopWorker],
    [performShutdown]) throw nothing but [Error::Exception]s. *)
Definition orderly (c : Closing) : bool :=
  forallb (fun m => caught (fst m) && caught (snd m)) (lastMessages c)
  && caught (performShutdown c).

(** Does the event request a work package, or send anything to a worker? *)
Definition isPackageTraffic (e : Event) : bool :=
  match e with
  | AskForWorkPackage | ReceivedWorkPackage _ | SendToWorker _ _ => true
  | _ => false
  end.


(** *** Rounds and their events, for the statements about them *)

(** Does the command Task-0 answers with announce a work package?  Every
    value does that is not [Ignore], [Exit], [QuickExit] or [TermExit]. *)
Definition announcesPackage (c : option TaskCommand.t) : bool :=
  match c with
  | Some TaskCommand.Ignore | Some TaskCommand.Exit
  | Some TaskCommand.QuickExit | Some TaskCommand.TermExit => false
  | _ => true
  end.

(** A status message of a worker that says [status] was received. *)
Definition receivedStatus (status : TaskStatus.t) (evs : list Event) : Prop :=
  exists (worker : Worker) (message : uint8Array),
    In (FromWorker worker message) evs
    /\ messageToStatus message = Ok (Some status).

(** The events with which a pass of the request loop that receives the
    package [wp] begins. *)
Definition asked (wp : WorkPackage.t) : list Event :=
  [LogMessage "Asking for work package"; AskForWorkPackage;
   ReceivedWorkPackage wp].

(** The request loop after the rounds [pre], if none of them ends it: the
    events so far, the flags and [status]. *)
Fixpoint afterRounds (flags : ExitFlags) (status : TaskStatus.t)
    (pre : list Round) : option (list Event * ExitFlags * TaskStatus.t) :=
  match pre with
  | [] => Some ([], flags, status)
  | r :: pre' =>
      match round flags status r with
      | (ev, flags', inl status') =>
          match afterRounds flags' status' pre' with
          | Some (ev', flags'', status'') => Some (ev ++ ev', flags'', status'')
          | None => None
          end
      | (_, _, inr _) => None
      end
  end.

End WithCodes.
End Receiver.

(** ** Sample data for concrete runs *)

Module Scenario.

(** Memory that holds the byte a5 wherever it was not written. *)
Definition allocator : Allocator := {| uninitialised := fun _ => xa5 |}.

(** Three pairs, the second with an empty value. *)
Definition entries : Payload.entries :=
  [("k0"%string, [x01; x02; x03]); ("k1"%string, []); ("k2"%string, [xff])].

Definition recordFile (name : string) : FileRecordStore.dirent :=
  FileRecordStore.mkDirent 7 name FileRecordStore.RegularFile (Ok [x01]).

Definition dots : list FileRecordStore.dirent :=
  [FileRecordStore.mkDirent 1 "." FileRecordStore.Directory
     (Throw (StrategyError ""));
   FileRecordStore.mkDirent 2 ".." FileRecordStore.Directory
     (Throw (StrategyError ""))].

(** A [FileRecordStore] of ten records [k0 .. k9], every one readable, as
    it is when opened. *)
Definition tenRecords : FileRecordStore.t :=
  FileRecordStore.mk true
    (dots ++ map recordFile
               ["k0"; "k1"; "k2"; "k3"; "k4"; "k5"; "k6"; "k7"; "k8";
                "k9"]%string)
    1 RecordStore.BE_RECSTORE_SEQ_START 10.

(** The same store with nothing in it. *)
Definition noRecords : FileRecordStore.t :=
  FileRecordStore.mk true dots 1 RecordStore.BE_RECSTORE_SEQ_START 0.

(** The same store after its first record was sequenced. *)
Definition tenRecordsInUse : FileRecordStore.t :=
  snd (FileRecordStore.sequence tenRecords).

Definition noCheckpoint : PropertiesFile.t := PropertiesFile.mk ∅ ∅ true.

(** The checkpoint a run leaves that has distributed [k0 .. k7]. *)
Definition checkpointAfterEight : PropertiesFile.t :=
  let ps : gmap string string :=
    <[RecordStoreDistributor.CHECKPOINTREASON := "Package sent"%string]>
      (<[RecordStoreDistributor.CHECKPOINTLASTKEY := "k7"%string]>
         (<[RecordStoreDistributor.CHECKPOINTNUMKEYS := "8"%string]> ∅)) in
  PropertiesFile.mk ps ps true.

(** A Distributor over the ten records that sends the values too. *)
Definition distributor (chunk : Z)
  : RecordStoreDistributor.t (S := FileRecordStore.t) :=
  RecordStoreDistributor.create (store := FileRecordStore.store)
    true chunk tenRecords noCheckpoint.

(** A Distributor over the empty store. *)
Definition idleDistributor
  : RecordStoreDistributor.t (S := FileRecordStore.t) :=
  RecordStoreDistributor.create (store := FileRecordStore.store)
    true 4 noRecords noCheckpoint.

(** A Distributor that is to resume from [checkpointAfterEight]: newly
    constructed over the store as opened. *)
Definition resumingDistributor
  : RecordStoreDistributor.t (S := FileRecordStore.t) :=
  RecordStoreDistributor.create (store := FileRecordStore.store)
    true 4 tenRecords checkpointAfterEight.

(** The enumerators numbered from 0, text stored without a NUL. *)
Definition codes : WireCodes := spec_codes false.

(** A pass of the worker loop in which the package processor asks for the
    end of the whole job. *)
Definition jobTerminated : PackageWorker.Turn :=
  PackageWorker.mkTurn false false (Ok tt)
    (Ok true) (Ok (Message.commandToMessage (codes := codes)
                     TaskCommand.Continue))
    (Ok true) (Ok (le_split 8 3))
    (Ok true) (Ok (WorkPackage.data (Payload.pack (alloc := allocator)
                                       entries)))
    (Throw (TerminateJob "stop the job")).

(** The same pass with a package processor that fails otherwise. *)
Definition packageFailed : PackageWorker.Turn :=
  PackageWorker.mkTurn false false (Ok tt)
    (Ok true) (Ok (Message.commandToMessage (codes := codes)
                     TaskCommand.Continue))
    (Ok true) (Ok (le_split 8 3))
    (Ok true) (Ok (WorkPackage.data (Payload.pack (alloc := allocator)
                                       entries)))
    (Throw (ErrorException "cannot process")).

(** A pass in which nothing is in the way of the send; the manager is not
    heard of again. *)
Definition quiet : PackageWorker.Turn :=
  PackageWorker.mkTurn false false (Ok tt)
    (Ok false) (Throw (ErrorException "")) (Ok false)
    (Throw (ErrorException "")) (Ok false) (Throw (ErrorException ""))
    (Ok tt).

(** The same pass, with a process-wide exit flag set in the meantime. *)
Definition quietAfterExitFlag : PackageWorker.Turn :=
  PackageWorker.mkTurn false true (Ok tt)
    (Ok false) (Throw (ErrorException "")) (Ok false)
    (Throw (ErrorException "")) (Ok false) (Throw (ErrorException ""))
    (Ok tt).

(** A poll of the dispatch with two workers, that receives [status] from
    worker [w]. *)
Definition pollFrom (w : Receiver.Worker) (status : TaskStatus.t)
  : Receiver.Poll :=
  Receiver.mkPoll Receiver.noFlags 2 None
    (Ok (Some (w, Message.statusToMessage (codes := codes) status)))
    (Ok tt).

(** A poll that finds no worker active. *)
Definition pollNoWorkers : Receiver.Poll :=
  Receiver.mkPoll Receiver.noFlags 0 None (Ok None) (Ok tt).

Definition handoverOk : Receiver.Handover :=
  Receiver.mkHandover (Ok tt) (Ok tt) (Ok tt).

(** A round of the request loop: Task-0 answers [Continue] and sends the
    package of [entries]; the dispatch meets [polls]. *)
Definition packageRound (raised : Receiver.ExitFlags)
    (polls : list Receiver.Poll) : Receiver.Round :=
  Receiver.mkRound raised (command_int (WireCodes := codes)
                             TaskCommand.Continue)
    (WorkPackage.data (Payload.pack (alloc := allocator) entries)) 3
    polls handoverOk.

(** What the shutdown meets: two workers that report and are stopped. *)
Definition closing : Receiver.Closing :=
  Receiver.mkClosing Receiver.noFlags 2
    [(Ok (Some (0%nat, Message.statusToMessage (codes := codes)
                         TaskStatus.OK)), Ok tt);
     (Ok (Some (1%nat, Message.statusToMessage (codes := codes)
                         TaskStatus.OK)), Ok tt)]
    (Ok tt).

(** A Receiver that dispatches one package to worker 0 and then finds the
    QuickExit flag set. *)
Definition quickExitRun : Receiver.Startup :=
  Receiver.mkStartup (Ok tt) (status_int (WireCodes := codes) TaskStatus.OK)
    (Ok tt) [Ok tt; Ok tt] 2
    [packageRound Receiver.noFlags [pollFrom 0%nat TaskStatus.OK];
     packageRound (Receiver.mkFlags false true false)
       [pollFrom 1%nat TaskStatus.OK];
     packageRound Receiver.noFlags [pollFrom 0%nat TaskStatus.OK]]
    closing.

End Scenario.

(** ** The directory of a [FileRecordStore], for the statements about it *)

Module StoreDirectory.
Import RecordStore FileRecordStore.

(** The entries the [readdir] loops count: those with an inode number that
    [stat] finds to be no directory. *)
Definition isRecordFile (e : dirent) : bool :=
  negb (d_ino e =? 0)
  && match st_mode e with RegularFile => true | _ => false end.

Definition recordFiles (fs : t) : list dirent :=
  List.filter isRecordFile (theFiles fs).

(** [stat] does not fail on the entry (it is not called on one without an
    inode number). *)
Definition statOk (e : dirent) : bool :=
  (d_ino e =? 0)
  || match st_mode e with StatFails => false | _ => true end.

(** The directory can be opened and read through. *)
Definition readable (fs : t) : Prop :=
  opendirOk fs = true /\ forallb statOk (theFiles fs) = true.

(** The store's record count is the number of record files. *)
Definition inOrder (fs : t) : Prop :=
  readable fs
  /\ count fs = Z.of_nat (length (recordFiles fs))
  /\ count fs + 1 < 2 ^ 64.

(** What sequencing answers at a record file: its name, and with
    [returnData] what [read] gives for that name. *)
Definition recordAt (returnData : bool) (fs : t) (e : dirent)
  : result record :=
  if returnData then
    match read fs (d_name e) with
    | Ok bytes => Ok (mkRecord (d_name e) bytes)
    | Throw ex => Throw ex
    end
  else Ok (mkRecord (d_name e) []).

(** The store with its sequencing begun and [_cursorPos] at [p]. *)
Definition positioned (fs : t) (p : Z) : t :=
  mk (opendirOk fs) (theFiles fs) p BE_RECSTORE_SEQ_NEXT (count fs).

(** [n] successive calls of [sequence()]. *)
Fixpoint sequenceN (n : nat) (fs : t) : list (result record) * t :=
  match n with
  | O => ([], fs)
  | Datatypes.S n' =>
      let '(r, fs1) := sequence fs in
      let '(rs, fs2) := sequenceN n' fs1 in
      (r :: rs, fs2)
  end.

End StoreDirectory.

(** ** The pulls of a call, for the statements about them *)

Module Pulling.
Import RecordStore RecordStoreDistributor StoreDirectory.

(** The outcomes of the pulls among the events of a call, in order. *)
Definition pulled (evs : list Event) : list (result record) :=
  omap (fun e => match e with
                 | Pull o => Some o
                 | SetRemaining _ => None
                 end) evs.

(** The pair a record puts into a package that is to hold keys only. *)
Definition keyOnly (r : record) : string * uint8Array := (key r, []).

(** A Distributor over a [FileRecordStore] that is in order, with its
    store at position [p] and as many records remaining as there are from
    that position on. *)
Definition standsAt (iv : bool) (d : t (S := FileRecordStore.t)) (p : Z)
  : Prop :=
  let fs := recordStore d in
  inOrder fs
  /\ p = (if isStart (FileRecordStore.cursor fs) then 1
          else FileRecordStore._cursorPos fs)
  /\ 1 <= p
  /\ _recordsRemaining d = FileRecordStore.count fs - (p - 1)
  /\ 0 <= _recordsRemaining d
  /\ _includeValues d = iv
  /\ Forall (fun e => survivable (recordAt iv fs e) = true) (recordFiles fs).

End Pulling.

(** ** What goes between the Receiver and its workers, for the statements
       about it *)

Module Traffic.
Import Receiver.

(** The messages a run of the Receiver sent to workers, in order, each with
    the worker it went to. *)
Definition sentToWorkers (evs : list Receiver.Event)
  : list (Receiver.Worker * uint8Array) :=
  omap (fun e => match e with
                 | Receiver.SendToWorker w m => Some (w, m)
                 | _ => None
                 end) evs.

(** The workers a run of the Receiver stopped, in order. *)
Definition stoppedWorkers (evs : list Receiver.Event)
  : list Receiver.Worker :=
  omap (fun e => match e with
                 | Receiver.StopWorker w => Some w
                 | _ => None
                 end) evs.

(** The packages a run of the worker loop handed to the package
    processor, in order. *)
Definition processedPackages (evs : list PackageWorker.Event)
  : list WorkPackage.t :=
  omap (fun e => match e with
                 | PackageWorker.Processed wp _ => Some wp
                 | _ => None
                 end) evs.

Section WithCodes.
Context {codes : WireCodes}.

(** The three messages that hand a package to [worker]: the [Continue]
    command, the element count as 8 bytes, the data. *)
Definition packageMessages (worker : Receiver.Worker) (wp : WorkPackage.t)
  : list (Receiver.Worker * uint8Array) :=
  [(worker, Message.commandToMessage TaskCommand.Continue);
   (worker, le_split 8 (WorkPackage.numElements wp));
   (worker, WorkPackage.data wp)].

(** The package went to the worker whose request the dispatch took: the
    events are those up to a status message [OK] of that worker, with
    nothing sent to a worker so far, and after it what is sent for the
    package, all of it to that worker, while no worker is stopped or heard
    any more. *)
Definition handedOver (wp : WorkPackage.t) (evs : list Receiver.Event)
  : Prop :=
  exists (pre : list Receiver.Event) (worker : Receiver.Worker)
         (message : uint8Array) (post : list Receiver.Event),
    evs = pre ++ Receiver.FromWorker worker message :: post
    /\ Message.messageToStatus message = Ok (Some TaskStatus.OK)
    /\ sentToWorkers pre = []
    /\ sentToWorkers post `prefix_of` packageMessages worker wp
    /\ stoppedWorkers post = []
    /\ forall (w : Receiver.Worker) (m : uint8Array),
         ~ In (Receiver.FromWorker w m) post.

(** Every stop of a worker follows at once on a status message of that
    worker, which says neither [OK] nor [RequestJobTermination]. *)
Definition stopsFollowReports (evs : list Receiver.Event) : Prop :=
  forall (pre post : list Receiver.Event) (worker : Receiver.Worker),
    evs = pre ++ Receiver.StopWorker worker :: post ->
    exists (pre' : list Receiver.Event) (message : uint8Array)
           (st : option TaskStatus.t),
      pre = pre' ++ [Receiver.FromWorker worker message]
      /\ Message.messageToStatus message = Ok st
      /\ st <> Some TaskStatus.OK
      /\ st <> Some TaskStatus.RequestJobTermination.

(** The discipline of a dispatch, as a property of its events, its ending
    and the flags it leaves. *)
Definition disciplined (wp : WorkPackage.t)
    (run : list Event * Ending unit * ExitFlags) : Prop :=
  let evs := fst (fst run) in
  (sentToWorkers evs = [] \/ handedOver wp evs)
  /\ (snd (fst run) = Returned tt ->
      QuickExit (snd run) || TermExit (snd run) = false ->
      exists w : Worker, sentToWorkers evs = packageMessages w wp)
  /\ stopsFollowReports evs
  /\ sentToDistributor evs = [].

End WithCodes.

(** The kinds of event a shutdown consists of. *)
Definition closingEvent (e : Receiver.Event) : bool :=
  match e with
  | Receiver.LogMessage _ | Receiver.StopWorker _ | Receiver.PerformShutdown
  | Receiver.Barrier | Receiver.SendToDistributor _ => true
  | _ => false
  end.

(** The signal the request loop broadcasts to the workers when Task-0
    answers with a command that ends the loop. *)
Definition broadcastFor (c : TaskCommand.t) : list Receiver.Event :=
  match c with
  | TaskCommand.QuickExit => [Receiver.BroadcastSignal Receiver.SIGINT]
  | TaskCommand.TermExit => [Receiver.BroadcastSignal Receiver.SIGKILL]
  | _ => []
  end.

(** What [start] does before it enters the request loop, when nothing is
    in its way: [workers] are the events of [startWorkers]. *)
Definition started (workers : list Receiver.Event)
  : list Receiver.Event :=
  [Receiver.Barrier; Receiver.LogMessage "Wait for startup message";
   Receiver.PerformInitialization]
    ++ workers ++ [Receiver.SendToDistributor TaskStatus.OK].

End Traffic.

(** ** Text utilities ([be_text.cpp]) *)

Module Text.

(** A [std::string] is the list of its characters here. *)

(** What the functions take from a [std::locale]: which characters are
    white space ([std::isspace(c, locale)]) and the case conversions of the
    [std::ctype<char>] facet. *)
Record locale : Type := mkLocale {
  isspace : ascii -> bool;
  toupper : ascii -> ascii;
  tolower : ascii -> ascii
}.

Definition islower (c : ascii) : bool :=
  (97 <=? nat_of_ascii c)%nat && (nat_of_ascii c <=? 122)%nat.

Definition isupper (c : ascii) : bool :=
  (65 <=? nat_of_ascii c)%nat && (nat_of_ascii c <=? 90)%nat.

(** [std::toupper(int)] and [std::tolower(int)] of [<cctype>], in the "C"
    locale a program runs in unless it calls [setlocale]. *)
Definition std_toupper (c : ascii) : ascii :=
  if islower c then ascii_of_nat (nat_of_ascii c - 32) else c.

Definition std_tolower (c : ascii) : ascii :=
  if isupper c then ascii_of_nat (nat_of_ascii c + 32) else c.

(** [std::locale::classic()]. *)
Definition classic : locale := mkLocale Cxx.isspace std_toupper std_tolower.

(** [std::find_if(first, last, pred)]: the range from the first element on
    that satisfies [pred]; the empty range ([last]) when none does. *)
Fixpoint find_if {A : Type} (pred : A -> bool) (range : list A) : list A :=
  match range with
  | [] => []
  | c :: r => if pred c then range else find_if pred r
  end.

(** [output.erase(output.begin(), find_if(begin, end, pred))] leaves what
    [find_if] found. *)
Definition ltrimWhitespace (s : list ascii) (locale : locale) : list ascii :=
  find_if (fun c => negb (isspace locale c)) s.

(** [output.erase(find_if(rbegin, rend, pred).base(), output.end())]: the
    search runs over the string reversed, and what is kept ends with the
    element found. *)
Definition rtrimWhitespace (s : list ascii) (locale : locale) : list ascii :=
  rev (find_if (fun c => negb (isspace locale c)) (rev s)).

Definition ltrim (s : list ascii) (trimChar : ascii) : list ascii :=
  find_if (fun c => negb (Ascii.eqb trimChar c)) s.

Definition rtrim (s : list ascii) (trimChar : ascii) : list ascii :=
  rev (find_if (fun c => negb (Ascii.eqb trimChar c)) (rev s)).

Definition trim (s : list ascii) (trimChar : ascii) : list ascii :=
  ltrim (rtrim s trimChar) trimChar.

Section WithDefaultLocale.

(** The default argument of the [locale] parameters, declared in the absent
    [be_text.h]. *)
Variable defaultLocale : locale.

(** [trimWhitespace(s, locale)] calls the two functions without its
    [locale]: they trim by their default argument. *)
Definition trimWhitespace (s : list ascii) (locale : locale) : list ascii :=
  ltrimWhitespace (rtrimWhitespace s defaultLocale) defaultLocale.

End WithDefaultLocale.

Inductive Error : Type := ParameterError (what : string).

(** The [for] loop of [split], from index [i] on: [prev] is [str[i - 1]]
    ([None] when [i] is 0) and [rest] is [str[i ..]]. *)
Fixpoint splitLoop (delimiter : ascii) (escape : bool) (prev : option ascii)
    (rest : list ascii) (ret : list (list ascii)) (cur_str : list ascii)
  : list (list ascii) * list ascii :=
  match rest with
  | [] => (ret, cur_str)
  | c :: rest' =>
      if Ascii.eqb c delimiter then
        if (length cur_str =? 0)%nat then
          splitLoop delimiter escape (Some c) rest' ret cur_str
        else if escape
                && match prev with
                   | Some p => Ascii.eqb p "\"%char
                   | None => false
                   end
        then
          splitLoop delimiter escape (Some c) rest' ret
            (take (length cur_str - 1) cur_str ++ [c])
        else splitLoop delimiter escape (Some c) rest' (ret ++ [cur_str]) []
      else splitLoop delimiter escape (Some c) rest' ret (cur_str ++ [c])
  end.

(** [Text::split(str, delimiter, escape)], for a string an [unsigned int]
    index reaches the end of (shorter than 2^32 characters). *)
Definition split (str : list ascii) (delimiter : ascii) (escape : bool)
  : Error + list (list ascii) :=
  if Ascii.eqb delimiter "\"%char then
    inl (ParameterError "Cannot use \ as delimiter")
  else
    let '(ret, cur_str) := splitLoop delimiter escape None str [] [] in
    let ret := if (length cur_str =? 0)%nat then ret else ret ++ [cur_str] in
    inr (if (length ret =? 0)%nat then ret ++ [str] else ret).

(** [std::equal(first1, last1, first2, pred)]; the second range is at least
    as long as the first where it is called. *)
Fixpoint equal {A : Type} (pred : A -> A -> bool) (range1 range2 : list A)
  : bool :=
  match range1, range2 with
  | [], _ => true
  | a :: r1, b :: r2 => pred a b && equal pred r1 r2
  | _ :: _, [] => false
  end.

Definition caseInsensitiveCompare (str1 str2 : list ascii) : bool :=
  (length str1 =? length str2)%nat
  && equal (fun str1Char str2Char =>
              Ascii.eqb (std_toupper str1Char) (std_toupper str2Char))
       str1 str2.

Definition toUppercase (str : list ascii) (locale : locale) : list ascii :=
  map (toupper locale) str.

Definition toLowercase (str : list ascii) (locale : locale) : list ascii :=
  map (tolower locale) str.

(** Tokens, each followed by a run of one [delimiter] or more ([S n] of
    them). *)
Fixpoint separated (delimiter : ascii) (tokens : list (list ascii * nat))
  : list ascii :=
  match tokens with
  | [] => []
  | (t, n) :: ts => t ++ repeat delimiter (S n) ++ separated delimiter ts
  end.

(** The tokens joined with one [delimiter] between two of them, and a
    token with a backslash put before each [delimiter] in it. *)
Fixpoint join (delimiter : ascii) (tokens : list (list ascii)) : list ascii :=
  match tokens with
  | [] => []
  | [t] => t
  | t :: ts => t ++ delimiter :: join delimiter ts
  end.

Fixpoint escaped (delimiter : ascii) (token : list ascii) : list ascii :=
  match token with
  | [] => []
  | c :: r =>
      if Ascii.eqb c delimiter then "\"%char :: c :: escaped delimiter r
      else c :: escaped delimiter r
  end.

End Text.

(** ** Timers ([be_time_timer.cpp]) *)

Module Timer.

(** A [Timer]: [_inProgress] and the two time points, each the number of
    nanoseconds the clock ([BE_CLOCK_TYPE], a [std::chrono] clock that
    counts nanoseconds) had counted when it was read. *)
Record t : Type := mk {
  _inProgress : bool;
  _start : Z;
  _finish : Z
}.

(** [Timer::Timer()]: both time points are the clock's epoch. *)
Definition create : t := mk false 0 0.

(** [Timer::start()]; [now] is what [BE_CLOCK_TYPE::now()] returns. *)
Definition start (now : Z) (tm : t) : result unit * t :=
  if _inProgress tm then
    (Throw (StrategyError "Timing already in progress"), tm)
  else (Ok tt, mk true now (_finish tm)).

(** [Timer::stop()]. *)
Definition stop (now : Z) (tm : t) : result unit * t :=
  let stopTime := now in
  if negb (_inProgress tm) then
    (Throw (StrategyError "Timing not in progress"), tm)
  else (Ok tt, mk false (_start tm) stopTime).

(** [Timer::elapsed(nano)]: the [duration_cast] to microseconds truncates;
    the count is returned as a [uint64_t]. *)
Definition elapsed (nano : bool) (tm : t) : result Z :=
  if _inProgress tm then Throw (StrategyError "Timing in progress")
  else if nano then Ok (uint64_t (_finish tm - _start tm))
  else Ok (uint64_t (Z.quot (_finish tm - _start tm) 1000)).


(** [Timer::time(func)]: [func] is [None] for an empty [std::function],
    and else what the call [func()] ends with; [now1] and [now2] are the
    clock readings of [start()] and [stop()]. *)
Definition time (func : option (result unit)) (now1 now2 : Z) (tm : t)
  : result unit * t :=
  match func with
  | None => (Throw (StrategyError "Timing nullptr function"), tm)
  | Some outcome =>
      match start now1 tm with
      | (Throw e, tm) => (Throw e, tm)
      | (Ok _, tm) =>
          match outcome with
          | Throw e => (Throw e, tm)
          | Ok _ => stop now2 tm
          end
      end
  end.

End Timer.

(** * Properties *)

(** ** Decimal text *)

Module CxxFacts.

Lemma digit_prefix_string_of_uint (d : Decimal.uint) (rest : string) :
  digit_prefix rest = Decimal.Nil ->
  digit_prefix (NilEmpty.string_of_uint d +:+ rest) = d.
Proof.
  intros Hrest. induction d; simpl; rewrite ?IHd; auto.
Qed.

(** A numeral that is not empty prints as text that begins with a digit:
    no white space to skip, no sign to take. *)
Lemma string_of_uint_head (d : Decimal.uint) (rest : string) :
  d <> Decimal.Nil ->
  exists c s, NilEmpty.string_of_uint d +:+ rest = String c s
              /\ isspace c = false /\ c <> "-"%char /\ c <> "+"%char.
Proof.
  intros Hd. destruct d; try congruence; simpl;
    eexists _, _; (split; [reflexivity|]); repeat split; discriminate.
Qed.

Lemma parse_digits (lo hi : Z) (neg : bool) (d : Decimal.uint)
    (rest : string) :
  d <> Decimal.Nil ->
  digit_prefix rest = Decimal.Nil ->
  let v := if neg then - Z.of_uint d else Z.of_uint d in
  lo <= v <= hi ->
  match digit_prefix (NilEmpty.string_of_uint d +:+ rest) with
  | Decimal.Nil => Throw (StdException "invalid_argument")
  | d' =>
      let v' := if neg then - Z.of_uint d' else Z.of_uint d' in
      if (lo <=? v') && (v' <=? hi) then Ok v'
      else Throw (StdException "out_of_range")
  end = Ok v.
Proof.
  intros Hd Hrest v Hv.
  rewrite digit_prefix_string_of_uint by assumption.
  assert (Hb : (lo <=? v) && (v <=? hi) = true).
  { apply andb_true_iff; split; apply Z.leb_le; lia. }
  destruct d; try congruence; cbv zeta; fold v; rewrite Hb; reflexivity.
Qed.

Lemma of_uint_to_uint (p : positive) : Z.of_uint (Pos.to_uint p) = Z.pos p.
Proof. exact (DecimalZ.of_to (Z.pos p)). Qed.

(** Reading back what [to_string] printed, whatever follows it, as long as
    that is not a digit. *)
Lemma parse_int_to_string (lo hi z : Z) (rest : string) :
  lo <= z <= hi ->
  digit_prefix rest = Decimal.Nil ->
  parse_int lo hi (to_string z +:+ rest) = Ok z.
Proof.
  intros Hz Hrest. unfold parse_int, to_string.
  destruct z as [|p|p]; simpl Z.to_int.
  - simpl. change (String.append "" rest) with rest. rewrite Hrest.
    change (Z.of_uint (Decimal.D0 Decimal.Nil)) with 0.
    assert (Hb : (lo <=? 0) && (0 <=? hi) = true)
      by (apply andb_true_iff; split; apply Z.leb_le; lia).
    rewrite Hb. reflexivity.
  - pose proof (Unsigned.to_uint_nonnil p) as Hnn.
    unfold NilZero.string_of_int, NilZero.string_of_uint.
    assert (Hs : match Pos.to_uint p with
                 | Decimal.Nil => "0"%string
                 | _ => NilEmpty.string_of_uint (Pos.to_uint p)
                 end = NilEmpty.string_of_uint (Pos.to_uint p))
      by (destruct (Pos.to_uint p); congruence).
    rewrite Hs.
    destruct (string_of_uint_head (Pos.to_uint p) rest Hnn)
      as (c & s & Heq & Hsp & Hm & Hp).
    assert (Hskip : skip_spaces (NilEmpty.string_of_uint (Pos.to_uint p)
                                   +:+ rest)
                    = NilEmpty.string_of_uint (Pos.to_uint p) +:+ rest)
      by (rewrite Heq; simpl; rewrite Hsp; reflexivity).
    rewrite Hskip.
    assert (Hsign :
      match NilEmpty.string_of_uint (Pos.to_uint p) +:+ rest with
      | String "-"%char r => (true, r)
      | String "+"%char r => (false, r)
      | _ => (false, NilEmpty.string_of_uint (Pos.to_uint p) +:+ rest)
      end = (false, NilEmpty.string_of_uint (Pos.to_uint p) +:+ rest)).
    { rewrite Heq.
      destruct c as [[] [] [] [] [] [] [] []]; try reflexivity; congruence. }
    rewrite Hsign.
    rewrite <- (of_uint_to_uint p).
    apply (parse_digits lo hi false); auto.
    simpl. rewrite of_uint_to_uint. exact Hz.
  - pose proof (Unsigned.to_uint_nonnil p) as Hnn.
    unfold NilZero.string_of_int, NilZero.string_of_uint.
    assert (Hs : match Pos.to_uint p with
                 | Decimal.Nil => "0"%string
                 | _ => NilEmpty.string_of_uint (Pos.to_uint p)
                 end = NilEmpty.string_of_uint (Pos.to_uint p))
      by (destruct (Pos.to_uint p); congruence).
    rewrite Hs. simpl.
    replace (Z.neg p) with (- Z.of_uint (Pos.to_uint p))
      by (rewrite of_uint_to_uint; reflexivity).
    apply (parse_digits lo hi true); auto.
    simpl. rewrite of_uint_to_uint. exact Hz.
Qed.

Lemma string_of_list_byte_app (a b : list byte) :
  string_of_list_byte (a ++ b)
  = (string_of_list_byte a +:+ string_of_list_byte b)%string.
Proof.
  unfold string_of_list_byte.
  induction a as [|x a IH]; simpl; [reflexivity|]. now rewrite IH.
Qed.

End CxxFacts.

(** ** Commands and statuses on the wire *)

Module MessageFacts.
Section WithCodes.
Context {codes : WireCodes}.
Import Message CxxFacts.

Lemma to_enum_command_int (c : TaskCommand.t) :
  to_enum_command (command_int c) = Some c.
Proof.
  assert (Hne : forall a b, a <> b -> (command_int a =? command_int b) = false).
  { intros a b Hab. apply Z.eqb_neq. intros E. apply Hab.
    now apply command_int_inj. }
  unfold to_enum_command, TaskCommand.all.
  destruct c; simpl; rewrite ?Z.eqb_refl, ?Hne by discriminate; reflexivity.
Qed.

Lemma to_enum_status_int (s : TaskStatus.t) :
  to_enum_status (status_int s) = Some s.
Proof.
  assert (Hne : forall a b, a <> b -> (status_int a =? status_int b) = false).
  { intros a b Hab. apply Z.eqb_neq. intros E. apply Hab.
    now apply status_int_inj. }
  unfold to_enum_status, TaskStatus.all.
  destruct s; simpl; rewrite ?Z.eqb_refl, ?Hne by discriminate; reflexivity.
Qed.

(** What [setString] appends to the text is not a digit. *)
Lemma array_to_string_setString (str : string) :
  exists rest,
    array_to_string (setString str) = (str +:+ rest)%string
    /\ digit_prefix rest = Decimal.Nil.
Proof.
  unfold array_to_string, setString.
  rewrite string_of_list_byte_app, string_of_list_byte_of_string.
  eexists; split; [reflexivity|].
  destruct setString_nul; reflexivity.
Qed.

Lemma stoi_message (z : Z) :
  INT_MIN <= z <= INT_MAX ->
  stoi (array_to_string (setString (to_string z))) = Ok z.
Proof.
  intros Hz.
  destruct (array_to_string_setString (to_string z)) as (rest & -> & Hrest).
  apply parse_int_to_string; assumption.
Qed.

(** C9. Converting a task command to a message and the message back gives
    the command, and likewise for a task status: the decimal text of the
    enumerator's integer, decoded, is the enumerator. *)
Theorem message_roundtrip :
  (forall c : TaskCommand.t,
      messageToCommand (commandToMessage c) = Ok (Some c))
  /\ (forall s : TaskStatus.t,
      messageToStatus (statusToMessage s) = Ok (Some s)).
Proof.
  split.
  - intros c. unfold messageToCommand, commandToMessage.
    rewrite (stoi_message _ (command_int_range c)).
    now rewrite to_enum_command_int.
  - intros s. unfold messageToStatus, statusToMessage.
    rewrite (stoi_message _ (status_int_range s)).
    now rewrite to_enum_status_int.
Qed.

End WithCodes.

(** The messages of the five commands, with the enumerators numbered from 0
    and no NUL stored: one digit each. *)
Example command_messages :
  map (@Message.commandToMessage (spec_codes false)) TaskCommand.all
  = [[x30]; [x31]; [x32]; [x33]; [x34]].
Proof. reflexivity. Qed.

End MessageFacts.

(** ** The payload layout *)

Module PayloadFacts.
Import Payload.

Section WithAllocator.
Context {alloc : Allocator}.

Lemma length_newArray (n : Z) : length (newArray n) = Z.to_nat n.
Proof. unfold newArray. now rewrite length_map, length_seq. Qed.

Lemma length_resize (a : uint8Array) (n : nat) : length (resize a n) = n.
Proof.
  unfold resize. rewrite length_app, length_take, length_map, length_seq. lia.
Qed.

(** Growing or shrinking an array to [i + n] elements keeps its first [i]
    elements, if it had that many. *)
Lemma resize_split (a : uint8Array) (i n : nat) :
  (i <= length a)%nat ->
  exists r, resize a (i + n) = take i a ++ r /\ length r = n.
Proof.
  intros Hi. exists (drop i (resize a (i + n))). split.
  - rewrite <- (take_drop i (resize a (i + n))) at 1. f_equal.
    unfold resize. rewrite take_app_le by (rewrite length_take; lia).
    rewrite take_take. f_equal. lia.
  - rewrite length_drop, length_resize. lia.
Qed.

(** Copying [src] over a part of equal length. *)
Lemma memcpy_middle (a b c src : list byte) (i : nat) :
  i = length a -> length b = length src ->
  memcpy (a ++ b ++ c) i src = a ++ src ++ c.
Proof.
  intros -> Hb. unfold memcpy.
  rewrite <- (Nat.add_0_r (length a)), list_inserts_app_r.
  now rewrite list_inserts_0_r.
Qed.

Lemma length_list_byte_of_string (s : string) :
  length (list_byte_of_string s) = String.length s.
Proof.
  unfold list_byte_of_string. rewrite length_map.
  induction s; simpl; auto.
Qed.

Lemma entrySize_pos e : 12 <= entrySize e.
Proof. unfold entrySize. lia. Qed.

Lemma payloadSize_nonneg es : 0 <= payloadSize es.
Proof.
  induction es as [|e es IH]; simpl; [lia|]. pose proof (entrySize_pos e). lia.
Qed.

Lemma length_entryBytes e : Z.of_nat (length (entryBytes e)) = entrySize e.
Proof.
  unfold entryBytes, entrySize, store_uint32, store_uint64.
  rewrite !length_app, !length_le_split, length_list_byte_of_string. lia.
Qed.

Lemma wrap_small (w z : Z) : 0 <= z < 2 ^ w -> wrap w z = z.
Proof. intros H. unfold wrap. now apply Z.mod_small. Qed.

(** One entry added at [index]: what was before [index] stays, the bytes of
    the entry follow, and [index] moves past them. *)
Lemma fillBufferWithKeyAndValue_spec
    (buf : uint8Array) (k : string) (v : uint8Array) (index : Z) :
  0 <= index ->
  (Z.to_nat index <= length buf)%nat ->
  Z.of_nat (String.length k) < 2 ^ 32 ->
  index + entrySize (k, v) < 2 ^ 64 ->
  fillBufferWithKeyAndValue buf k v index
  = (take (Z.to_nat index) buf ++ entryBytes (k, v),
     index + entrySize (k, v)).
Proof.
  intros Hi Hlen Hk Hfit. unfold entrySize in *. simpl fst in *.
  simpl snd in *.
  unfold fillBufferWithKeyAndValue, uint32_t, uint64_t.
  set (kl := Z.of_nat (String.length k)) in *.
  set (vl := Z.of_nat (length v)) in *.
  assert (Hkl : 0 <= kl) by (unfold kl; lia).
  assert (Hvl : 0 <= vl) by (unfold vl; lia).
  rewrite (wrap_small 32 kl) by lia.
  rewrite (wrap_small 64 vl) by lia.
  rewrite (wrap_small 64 (index + 4 + kl + 8 + vl)) by lia.
  rewrite (wrap_small 64 (index + 4)) by lia.
  rewrite (wrap_small 64 (index + 4 + 8)) by lia.
  rewrite (wrap_small 64 (index + 4 + 8 + kl)) by lia.
  rewrite (wrap_small 64 (index + 4 + 8 + kl + vl)) by lia.
  replace (Z.to_nat (index + 4 + kl + 8 + vl))
    with (Z.to_nat index + (4 + (8 + (String.length k + length v))))%nat
    by (unfold kl, vl; lia).
  destruct (resize_split buf (Z.to_nat index)
              (4 + (8 + (String.length k + length v))) Hlen)
    as (r & -> & Hr).
  set (p := take (Z.to_nat index) buf).
  assert (Hp : length p = Z.to_nat index)
    by (unfold p; rewrite length_take; lia).
  rewrite <- (take_drop 4 r).
  rewrite <- (take_drop 8 (drop 4 r)).
  rewrite <- (take_drop (String.length k) (drop 8 (drop 4 r))).
  set (r1 := take 4 r). set (r2 := take 8 (drop 4 r)).
  set (r3 := take (String.length k) (drop 8 (drop 4 r))).
  set (r4 := drop (String.length k) (drop 8 (drop 4 r))).
  assert (H1 : length r1 = 4%nat) by (unfold r1; rewrite length_take; lia).
  assert (H2 : length r2 = 8%nat)
    by (unfold r2; rewrite length_take, length_drop; lia).
  assert (H3 : length r3 = String.length k)
    by (unfold r3; rewrite length_take, !length_drop; lia).
  assert (H4 : length r4 = length v)
    by (unfold r4; rewrite !length_drop; lia).
  rewrite (memcpy_middle p r1 (r2 ++ r3 ++ r4))
    by (unfold store_uint32; rewrite ?length_le_split; lia).
  replace (p ++ store_uint32 kl ++ r2 ++ r3 ++ r4)
    with ((p ++ store_uint32 kl) ++ r2 ++ r3 ++ r4)
    by (now rewrite <- app_assoc).
  rewrite (memcpy_middle (p ++ store_uint32 kl) r2 (r3 ++ r4))
    by (unfold store_uint32, store_uint64;
        rewrite ?length_app, ?length_le_split; lia).
  replace (Z.to_nat kl) with (String.length k) by (unfold kl; lia).
  rewrite <- (length_list_byte_of_string k), firstn_all.
  replace ((p ++ store_uint32 kl) ++ store_uint64 vl ++ r3 ++ r4)
    with (((p ++ store_uint32 kl) ++ store_uint64 vl) ++ r3 ++ r4)
    by (now rewrite <- !app_assoc).
  rewrite (memcpy_middle _ r3 r4)
    by (unfold store_uint32, store_uint64;
        rewrite ?length_app, ?length_le_split, ?length_list_byte_of_string;
        lia).
  unfold entryBytes. simpl fst. simpl snd. fold kl vl.
  destruct (Z.eqb_spec vl 0) as [Hz|Hz].
  - assert (length v = 0%nat) by (unfold vl in Hz; lia).
    destruct v; [|discriminate]. destruct r4; [|discriminate].
    f_equal; [now rewrite <- !app_assoc | simpl in vl; lia].
  - replace (Z.to_nat vl) with (length v) by (unfold vl; lia).
    rewrite firstn_all.
    replace (((p ++ store_uint32 kl) ++ store_uint64 vl)
               ++ list_byte_of_string k ++ r4)
      with ((((p ++ store_uint32 kl) ++ store_uint64 vl)
               ++ list_byte_of_string k) ++ r4 ++ [])
      by (now rewrite app_nil_r, <- !app_assoc).
    rewrite (memcpy_middle _ r4 [])
      by (unfold store_uint32, store_uint64;
          rewrite ?length_app, ?length_le_split,
            ?length_list_byte_of_string; lia).
    f_equal; [now rewrite app_nil_r, <- !app_assoc | lia].
Qed.

Lemma representable_cons e es :
  representable (e :: es) ->
  Z.of_nat (String.length (fst e)) < 2 ^ 32
  /\ entrySize e + payloadSize es < 2 ^ 64
  /\ representable es.
Proof.
  intros [Hk Hs]. inversion Hk; subst. simpl in Hs.
  pose proof (entrySize_pos e). pose proof (payloadSize_nonneg es).
  repeat split; auto; lia.
Qed.

(** Filling a buffer that is used up to its end appends the bytes of the
    entries. *)
Lemma fill_spec (es : entries) (buf : uint8Array) (index : Z) :
  index = Z.of_nat (length buf) ->
  Forall (fun e => Z.of_nat (String.length (fst e)) < 2 ^ 32) es ->
  index + payloadSize es < 2 ^ 64 ->
  fill es buf index = (buf ++ payloadBytes es, index + payloadSize es).
Proof.
  revert buf index.
  induction es as [|[k v] es IH]; intros buf index Hi Hk Hs; simpl.
  - unfold payloadBytes. simpl. rewrite app_nil_r. f_equal. lia.
  - inversion Hk as [|? ? Hk1 Hk2]; subst. simpl in Hs, Hk1.
    pose proof (payloadSize_nonneg es) as Hnn.
    pose proof (entrySize_pos (k, v)) as Hpos.
    rewrite fillBufferWithKeyAndValue_spec by (auto; lia).
    rewrite Nat2Z.id, firstn_all.
    rewrite IH; auto.
    + unfold payloadBytes. simpl. rewrite <- app_assoc. f_equal. lia.
    + rewrite length_app, Nat2Z.inj_add, length_entryBytes. lia.
    + lia.
Qed.

(** The first package data of a non-empty sequence replaces the fresh
    buffer altogether. *)
Lemma pack_data (e : string * uint8Array) (es : entries) :
  representable (e :: es) ->
  WorkPackage.data (pack (e :: es)) = payloadBytes (e :: es).
Proof.
  intros Hr. destruct (representable_cons _ _ Hr) as (Hk & Hs & Hr').
  destruct e as [k v]. unfold pack. simpl.
  pose proof (payloadSize_nonneg es) as Hnn.
  rewrite fillBufferWithKeyAndValue_spec;
    [|lia|change (Z.to_nat 0) with 0%nat; lia|exact Hk|lia].
  change (Z.to_nat 0) with 0%nat. rewrite take_0, app_nil_l.
  rewrite fill_spec.
  - reflexivity.
  - rewrite length_entryBytes. lia.
  - apply Hr'.
  - lia.
Qed.

Lemma le_combine_store_uint32 (z : Z) :
  0 <= z < 2 ^ 32 -> le_combine (store_uint32 z) = z.
Proof.
  intros Hz. unfold store_uint32. rewrite le_combine_split.
  now apply Z.mod_small.
Qed.

Lemma le_combine_store_uint64 (z : Z) :
  0 <= z < 2 ^ 64 -> le_combine (store_uint64 z) = z.
Proof.
  intros Hz. unfold store_uint64. rewrite le_combine_split.
  now apply Z.mod_small.
Qed.

Lemma payloadBytes_cons e es :
  payloadBytes (e :: es) = entryBytes e ++ payloadBytes es.
Proof. reflexivity. Qed.

Lemma unpack_entries_S (n : nat) (payload : list byte) :
  unpack_entries (Datatypes.S n) payload
  = let keyLength := Z.to_nat (le_combine (take 4 payload)) in
    let valueSize := Z.to_nat (le_combine (take 8 (drop 4 payload))) in
    let body := drop 12 payload in
    if (length payload <? 12)%nat
       || (length body <? keyLength + valueSize)%nat
    then None
    else
      match unpack_entries n (drop (keyLength + valueSize) body) with
      | Some es =>
          Some ((string_of_list_byte (take keyLength body),
                 take valueSize (drop keyLength body)) :: es)
      | None => None
      end.
Proof. reflexivity. Qed.

(** Reading [length es] entries from their bytes, whatever follows. *)
Lemma unpack_entries_payloadBytes (es : entries) (rest : list byte) :
  representable es ->
  unpack_entries (length es) (payloadBytes es ++ rest) = Some es.
Proof.
  induction es as [|[k v] es IH]; intros Hr; [reflexivity|].
  destruct (representable_cons _ _ Hr) as (Hk & Hs & Hr').
  simpl in Hk. unfold entrySize in Hs. simpl in Hs.
  pose proof (payloadSize_nonneg es) as Hnn.
  rewrite payloadBytes_cons.
  unfold entryBytes. simpl fst. simpl snd.
  remember (store_uint32 (Z.of_nat (String.length k))) as e32 eqn:E32.
  remember (store_uint64 (Z.of_nat (length v))) as e64 eqn:E64.
  remember (list_byte_of_string k) as kb eqn:Ekb.
  assert (H32 : length e32 = 4%nat) by (subst e32; apply length_le_split).
  assert (H64 : length e64 = 8%nat) by (subst e64; apply length_le_split).
  assert (Hkb : length kb = String.length k)
    by (subst kb; apply length_list_byte_of_string).
  rewrite <- !app_assoc.
  simpl length. rewrite unpack_entries_S. cbv zeta.
  assert (T4 : take 4 (e32 ++ e64 ++ kb ++ v ++ payloadBytes es ++ rest) = e32)
    by (rewrite take_app_le by lia; rewrite firstn_all2 by lia; reflexivity).
  assert (D4 : drop 4 (e32 ++ e64 ++ kb ++ v ++ payloadBytes es ++ rest)
               = e64 ++ kb ++ v ++ payloadBytes es ++ rest)
    by (rewrite <- H32; apply drop_app_length).
  assert (D12 : drop 12 (e32 ++ e64 ++ kb ++ v ++ payloadBytes es ++ rest)
                = kb ++ v ++ payloadBytes es ++ rest).
  { change 12%nat with (4 + 8)%nat. rewrite <- drop_drop, D4.
    rewrite <- H64. apply drop_app_length. }
  assert (Hlen : (length (e32 ++ e64 ++ kb ++ v ++ payloadBytes es ++ rest)
                  <? 12)%nat = false)
    by (apply Nat.ltb_ge; rewrite !length_app; lia).
  assert (Hbody : (length (kb ++ v ++ payloadBytes es ++ rest)
                   <? String.length k + length v)%nat = false)
    by (apply Nat.ltb_ge; rewrite !length_app; lia).
  rewrite T4, D4, D12, Hlen.
  rewrite take_app_le by lia. rewrite (firstn_all2 e64) by lia.
  rewrite E32, le_combine_store_uint32 by lia.
  rewrite E64, le_combine_store_uint64 by lia.
  rewrite !Nat2Z.id, Hbody. simpl orb. cbv iota.
  rewrite take_app_le by lia. rewrite (firstn_all2 kb) by lia.
  replace (string_of_list_byte kb) with k
    by (subst kb; now rewrite string_of_list_byte_of_string).
  assert (Dk : drop (String.length k) (kb ++ v ++ payloadBytes es ++ rest)
               = v ++ payloadBytes es ++ rest)
    by (rewrite <- Hkb; apply drop_app_length).
  rewrite Dk. rewrite take_app_le by lia. rewrite firstn_all.
  assert (Dkv : drop (String.length k + length v)
                  (kb ++ v ++ payloadBytes es ++ rest)
                = payloadBytes es ++ rest).
  { rewrite <- drop_drop, Dk. apply drop_app_length. }
  rewrite Dkv, (IH Hr'). reflexivity.
Qed.

(** C4. Packing an ordered sequence of (key, value) pairs into a work
    package (element count, and the payload in the layout uint32 key
    length, uint64 value size, key bytes, value bytes) and reading the
    package back gives the same sequence of pairs; values of length 0 are
    nothing special.  The pairs are those the fields of the layout can
    describe. *)
Theorem unpack_pack (es : entries) :
  representable es -> unpack (pack es) = Some es.
Proof.
  intros Hr. unfold unpack.
  destruct es as [|e es].
  - reflexivity.
  - rewrite pack_data by assumption.
    unfold pack, WorkPackage.numElements. rewrite Nat2Z.id.
    rewrite <- (app_nil_r (payloadBytes (e :: es))).
    now apply unpack_entries_payloadBytes.
Qed.

End WithAllocator.

Lemma unpack_pack_witness :
  representable Scenario.entries
  /\ Payload.unpack (Payload.pack (alloc := Scenario.allocator)
                       Scenario.entries)
     = Some Scenario.entries.
Proof.
  assert (H : representable Scenario.entries).
  { split; [repeat constructor|reflexivity]. }
  split; [exact H|].
  apply (unpack_pack (alloc := Scenario.allocator) Scenario.entries H).
Defined.

End PayloadFacts.

(** ** Work package construction *)

Module DistributorFacts.
Import RecordStore RecordStoreDistributor Pulling PayloadFacts.

Lemma pulled_pulls (os : list (result record)) : pulled (map Pull os) = os.
Proof.
  unfold pulled. induction os as [|o os IH]; [reflexivity|].
  simpl. f_equal. exact IH.
Qed.

Lemma pulled_app (a b : list Event) : pulled (a ++ b) = pulled a ++ pulled b.
Proof. unfold pulled. apply omap_app. Qed.

Lemma goodRecords_app (a b : list (result record)) :
  goodRecords (a ++ b) = goodRecords a ++ goodRecords b.
Proof. unfold goodRecords. apply omap_app. Qed.

Section WithStore.
Context {alloc : Allocator} {S : Type} {store : Store S}.

Lemma fillLoop_spec (iv : bool) (n : nat) :
  forall (f f' : Filling (S := S)) (r : result unit),
    fillLoop iv n f = (r, f') ->
    0 <= f_realKeyCount f ->
    f_realKeyCount f + Z.of_nat n < 2 ^ 64 ->
    exists os : list (result record),
      f_events f' = f_events f ++ map Pull os
      /\ (length os <= n)%nat
      /\ (isOk r = true -> length os = n)
      /\ (forallb survivable os = isOk r)
      /\ Payload.fill (map entryOf (goodRecords os))
           (f_packageData f) (f_index f)
         = (f_packageData f', f_index f')
      /\ f_realKeyCount f'
         = f_realKeyCount f + Z.of_nat (length (goodRecords os)).
Proof.
  induction n as [|n IH]; intros f f' r Hrun Hc Hn.
  - simpl in Hrun. inversion Hrun; subst. exists [].
    simpl. rewrite app_nil_r. repeat split; auto. lia.
  - simpl in Hrun. unfold fillOne in Hrun.
    destruct (pull iv (f_record f) (f_store f)) as [o rs'] eqn:Hpull.
    destruct o as [rec|e].
    + destruct (Payload.fillBufferWithKeyAndValue (f_packageData f)
                  (key rec) (data rec) (f_index f)) as [buf index] eqn:Hfill.
      apply IH in Hrun; simpl f_realKeyCount in *;
        [|unfold uint64_t, wrap; apply Z.mod_pos_bound; lia
         |rewrite (wrap_small 64) by lia; lia].
      destruct Hrun as (os & Hev & Hlen & Hok & Hall & Hpack & Hcount).
      exists (Ok rec :: os). simpl in *.
      rewrite Hfill. rewrite (wrap_small 64) in Hcount by lia.
      repeat split; auto; try lia;
        try (rewrite Hev, <- app_assoc; reflexivity).
    + destruct (isErrorException e) eqn:He.
      * apply IH in Hrun; simpl f_realKeyCount in *; [|lia|lia].
        destruct Hrun as (os & Hev & Hlen & Hok & Hall & Hpack & Hcount).
        exists (Throw e :: os). simpl in *. rewrite He.
        repeat split; auto; try lia;
          try (rewrite Hev, <- app_assoc; reflexivity).
      * inversion Hrun; subst. exists [Throw e]. simpl. rewrite He.
        repeat split; auto; try lia.
Qed.

Lemma keyCount_target (d : t (S := S)) :
  (if chunkSize d <? _recordsRemaining d
   then chunkSize d else _recordsRemaining d) = target d.
Proof. unfold target. destruct (Z.ltb_spec (chunkSize d) (_recordsRemaining d)); lia. Qed.

Lemma goodRecords_length (os : list (result record)) :
  (length (goodRecords os) <= length os)%nat.
Proof. induction os as [|[r|e] os IH]; simpl; lia. Qed.

(** A call with records remaining, in full: its events, the counter, and
    the package in terms of the pulls. *)
Lemma createWorkPackage_pulls (d : t (S := S)) :
  0 < _recordsRemaining d < 2 ^ 64 ->
  0 <= chunkSize d ->
  exists (os : list (result record)) (r : result WorkPackage.t)
         (d' : t (S := S)),
    createWorkPackage d
    = (r, d', SetRemaining (_recordsRemaining d - target d) :: map Pull os)
    /\ _recordsRemaining d' = _recordsRemaining d - target d
    /\ (length os <= Z.to_nat (target d))%nat
    /\ (isOk r = true -> length os = Z.to_nat (target d))
    /\ forallb survivable os = isOk r
    /\ forall wp : WorkPackage.t,
         r = Ok wp ->
         wp = WorkPackage.mk (Z.of_nat (length (goodRecords os)))
                (fst (Payload.fill (map entryOf (goodRecords os))
                        (newArray 16384) 0)).
Proof.
  intros Hrem Hchunk. unfold createWorkPackage.
  destruct (Z.eqb_spec (_recordsRemaining d) 0) as [E|_]; [lia|].
  rewrite keyCount_target.
  assert (Ht : 0 <= target d <= _recordsRemaining d) by (unfold target; lia).
  rewrite (wrap_small 64) by lia.
  destruct (fillLoop _ _ _) as [r f'] eqn:Hloop.
  apply fillLoop_spec in Hloop; cbn [f_realKeyCount]; [|lia|lia].
  destruct Hloop as (os & Hev & Hlen & Hok & Hall & Hpack & Hcount).
  cbn [f_events f_packageData f_index f_realKeyCount app] in Hev, Hpack, Hcount.
  exists os. eexists. eexists. split; [rewrite Hev; reflexivity|].
  split; [reflexivity|]. split; [exact Hlen|].
  split; [destruct r; [exact Hok|discriminate]|].
  split; [destruct r; exact Hall|].
  intros wp Hwp. destruct r as [[]|e]; [|discriminate Hwp].
  injection Hwp as <-. rewrite Hpack, Hcount. reflexivity.
Qed.

(** The pull of the loop is a read of the store: [record.data] is empty
    whenever values are not asked for. *)
Lemma pull_readNext (iv : bool) (rec : record) (rs : S) :
  (iv = false -> data rec = []) -> pull iv rec rs = readNext iv rs.
Proof.
  intros H. unfold pull, readNext. destruct iv; [reflexivity|].
  rewrite (H eq_refl). reflexivity.
Qed.

Lemma readNext_data (rs rs' : S) (rec : record) :
  readNext false rs = (Ok rec, rs') -> data rec = [].
Proof.
  unfold readNext. destruct (sequenceKey rs) as [[k|e] rs1]; [|discriminate].
  intros H. now inversion H.
Qed.

(** The loop reads the store: its pulls are successive reads, begun where
    the store stood, and the store is left where the last read left it. *)
Lemma fillLoop_reads (iv : bool) (n : nat) :
  forall (f f' : Filling (S := S)) (r : result unit),
    fillLoop iv n f = (r, f') ->
    (iv = false -> data (f_record f) = []) ->
    f_events f' = f_events f ++ map Pull (fst (readRun iv n (f_store f)))
    /\ f_store f' = snd (readRun iv n (f_store f)).
Proof.
  induction n as [|n IH]; intros f f' r Hrun Hrec.
  - simpl in Hrun. inversion Hrun; subst. simpl. rewrite app_nil_r.
    split; reflexivity.
  - cbn [fillLoop] in Hrun. unfold fillOne in Hrun.
    rewrite (pull_readNext iv _ _ Hrec) in Hrun. cbn [readRun].
    destruct (readNext iv (f_store f)) as [[rec|e] rs'] eqn:Hread.
    + destruct (Payload.fillBufferWithKeyAndValue (f_packageData f)
                  (key rec) (data rec) (f_index f)) as [buf index].
      apply IH in Hrun; cbn [f_record f_store f_events] in *.
      * cbn [survivable]. destruct (readRun iv n rs') as [os rs2].
        cbn [fst snd] in *. destruct Hrun as [Hev Hst].
        split; [rewrite Hev, <- app_assoc; reflexivity|exact Hst].
      * intros ->. exact (readNext_data _ _ _ Hread).
    + cbn [survivable]. destruct (isErrorException e).
      * apply IH in Hrun; cbn [f_record f_store f_events] in *;
          [|exact Hrec].
        destruct (readRun iv n rs') as [os rs2].
        cbn [fst snd] in *. destruct Hrun as [Hev Hst].
        split; [rewrite Hev, <- app_assoc; reflexivity|exact Hst].
      * inversion Hrun; subst. cbn [f_events f_store fst snd].
        split; reflexivity.
Qed.

(** A call with records remaining, in terms of the record store. *)
Lemma createWorkPackage_store (d : t (S := S)) :
  0 < _recordsRemaining d < 2 ^ 64 ->
  0 <= chunkSize d ->
  let reads :=
    readRun (_includeValues d) (Z.to_nat (target d)) (recordStore d) in
  pulled (snd (createWorkPackage d)) = fst reads
  /\ recordStore (snd (fst (createWorkPackage d))) = snd reads.
Proof.
  intros Hrem Hchunk reads. unfold createWorkPackage.
  destruct (Z.eqb_spec (_recordsRemaining d) 0) as [E|_]; [lia|].
  rewrite keyCount_target.
  destruct (fillLoop _ _ _) as [r f'] eqn:Hloop.
  apply fillLoop_reads in Hloop; [|reflexivity].
  cbn [f_events f_store fst snd recordStore] in *.
  destruct Hloop as [Hev Hst]. fold reads in Hev, Hst.
  split; [|exact Hst]. rewrite Hev, pulled_app.
  change (pulled [SetRemaining _]) with (@nil (result record)).
  apply pulled_pulls.
Qed.

(** C1. A call of [createWorkPackage] with records remaining sets out to
    pull min(remaining, chunk size) keys; it takes that many off the
    remaining counter first, before it pulls any key from the record store.
    Its pulls are that many successive reads of the record store
    ([sequence()], or [sequenceKey()] when values are not included), begun
    where the store stood, and the store is left where the last of them
    left it.  The package it produces counts in [numElements] the reads
    that succeeded, at most the target, and its data are the bytes of
    their keys and values in the layout of the payload.  (The package is
    produced exactly when no read fails with something other than an
    [Error::Exception]; such a failure ends the reads.) *)
Theorem createWorkPackage_target_count (d : t (S := S)) :
  0 < _recordsRemaining d < 2 ^ 64 ->
  0 <= chunkSize d ->
  let call := createWorkPackage d in
  let reads :=
    readRun (_includeValues d) (Z.to_nat (target d)) (recordStore d) in
  let os := fst reads in
  snd call = SetRemaining (_recordsRemaining d - target d) :: map Pull os
  /\ recordStore (snd (fst call)) = snd reads
  /\ _recordsRemaining (snd (fst call)) = _recordsRemaining d - target d
  /\ Z.of_nat (length os) <= target d
  /\ forallb survivable os = isOk (fst (fst call))
  /\ forall wp : WorkPackage.t,
       fst (fst call) = Ok wp ->
       Z.of_nat (length os) = target d
       /\ wp = Payload.pack (map entryOf (goodRecords os))
       /\ WorkPackage.numElements wp
          = Z.of_nat (length (goodRecords os))
       /\ WorkPackage.numElements wp <= target d
       /\ (goodRecords os <> [] ->
           Payload.representable (map entryOf (goodRecords os)) ->
           WorkPackage.data wp
           = Payload.payloadBytes (map entryOf (goodRecords os))).
Proof.
  intros Hrem Hchunk call reads os.
  destruct (createWorkPackage_store d Hrem Hchunk) as [Hpulled Hstore].
  fold reads call in Hpulled, Hstore. unfold call in *.
  destruct (createWorkPackage_pulls d Hrem Hchunk)
    as (os' & r & d' & Hcall & Hd' & Hlen & Hok & Hall & Hwp).
  rewrite Hcall in *. cbn [fst snd] in *.
  change (pulled (SetRemaining (_recordsRemaining d - target d)
                    :: map Pull os')) with (pulled (map Pull os'))
    in Hpulled.
  rewrite pulled_pulls in Hpulled. fold os in Hpulled. subst os'.
  assert (Ht : 0 <= target d) by (unfold target; lia).
  pose proof (goodRecords_length os) as Hgood.
  split; [reflexivity|]. split; [exact Hstore|]. split; [exact Hd'|].
  split; [lia|]. split; [exact Hall|].
  intros wp Hr. subst r. specialize (Hok eq_refl).
  assert (Hpack : wp = Payload.pack (map entryOf (goodRecords os))).
  { rewrite (Hwp wp eq_refl). unfold Payload.pack.
    now rewrite length_map. }
  split; [lia|]. split; [exact Hpack|].
  split; [rewrite (Hwp wp eq_refl); reflexivity|].
  split; [rewrite (Hwp wp eq_refl); cbn [WorkPackage.numElements]; lia|].
  intros Hne Hrep. rewrite Hpack.
  destruct (goodRecords os) as [|g gs]; [contradiction|].
  cbn [map] in *. now apply pack_data.
Qed.

(** C3, as the code has it.  A call of [createWorkPackage] with no record
    remaining returns, without an exception, without touching the record
    store or the counter, a package with [numElements = 0] whose data is
    the fresh buffer of 16384 bytes as allocated: it holds no entry, and
    reads back as the empty sequence. *)
Theorem createWorkPackage_none_remaining (d : t (S := S)) :
  _recordsRemaining d = 0 ->
  createWorkPackage d = (Ok (WorkPackage.mk 0 (newArray 16384)), d, [])
  /\ Z.of_nat (length (newArray 16384)) = 16384
  /\ Payload.unpack (WorkPackage.mk 0 (newArray 16384)) = Some [].
Proof.
  intros H. unfold createWorkPackage. rewrite H. simpl Z.eqb. cbv iota.
  split; [reflexivity|]. split; [now rewrite length_newArray|reflexivity].
Qed.

(** *** A run: successive calls *)

Lemma pullCount_app a b : pullCount (a ++ b) = pullCount a + pullCount b.
Proof. unfold pullCount. rewrite filter_app, length_app. lia. Qed.

Lemma goodPullCount_app a b :
  goodPullCount (a ++ b) = goodPullCount a + goodPullCount b.
Proof. unfold goodPullCount. rewrite filter_app, length_app. lia. Qed.

Lemma pullCount_pulls (os : list (result record)) :
  pullCount (map Pull os) = Z.of_nat (length os).
Proof.
  unfold pullCount. f_equal.
  induction os as [|o os IH]; [reflexivity|].
  simpl map. rewrite filter_cons_True by reflexivity. simpl. now rewrite IH.
Qed.

Lemma goodPullCount_pulls (os : list (result record)) :
  goodPullCount (map Pull os) = Z.of_nat (length (goodRecords os)).
Proof.
  unfold goodPullCount. f_equal.
  induction os as [|[r|e] os IH]; [reflexivity| |].
  - simpl map. rewrite filter_cons_True by reflexivity. simpl. now rewrite IH.
  - simpl map. rewrite filter_cons_False by (simpl; discriminate). exact IH.
Qed.

Lemma allPullsGood_pulls (os : list (result record)) :
  allPullsGood (map Pull os) ->
  length (goodRecords os) = length os /\ forallb survivable os = true.
Proof.
  intros H. induction os as [|[r|e] os IH].
  - split; reflexivity.
  - destruct IH as [IH1 IH2]; [intros e He; apply H; now right|].
    simpl. split; [now rewrite IH1 | exact IH2].
  - exfalso. specialize (H (Pull (Throw e)) (or_introl eq_refl) eq_refl).
    discriminate H.
Qed.

(** What one call does to the members the next call reads. *)
Lemma createWorkPackage_remaining (d : t (S := S)) :
  0 <= _recordsRemaining d < 2 ^ 64 ->
  0 <= chunkSize d ->
  _recordsRemaining (snd (fst (createWorkPackage d)))
  = Z.max 0 (_recordsRemaining d - chunkSize d).
Proof.
  intros Hrem Hchunk. unfold createWorkPackage.
  destruct (Z.eqb_spec (_recordsRemaining d) 0) as [E|E]; [simpl; lia|].
  rewrite keyCount_target. destruct (fillLoop _ _ _) as [r f'].
  cbn [fst snd _recordsRemaining]. unfold target.
  rewrite (wrap_small 64); lia.
Qed.

Lemma createWorkPackage_chunkSize (d : t (S := S)) :
  chunkSize (snd (fst (createWorkPackage d))) = chunkSize d.
Proof.
  unfold createWorkPackage.
  destruct (_recordsRemaining d =? 0); [reflexivity|].
  destruct (fillLoop _ _ _). reflexivity.
Qed.

Lemma createWorkPackage_checkpointData (d : t (S := S)) :
  checkpointData (snd (fst (createWorkPackage d))) = checkpointData d.
Proof.
  unfold createWorkPackage.
  destruct (_recordsRemaining d =? 0); [reflexivity|].
  destruct (fillLoop _ _ _). reflexivity.
Qed.

(** The events of one call, whether or not records remain. *)
Lemma createWorkPackage_events (d : t (S := S)) :
  0 <= _recordsRemaining d < 2 ^ 64 ->
  0 <= chunkSize d ->
  let '(r, d', evs) := createWorkPackage d in
  pullCount evs <= _recordsRemaining d - _recordsRemaining d'
  /\ goodPullCount evs <= pullCount evs
  /\ (isOk r = true -> numElementsOf r = goodPullCount evs)
  /\ (allPullsGood evs -> isOk r = true /\ numElementsOf r = target d).
Proof.
  intros Hrem Hchunk.
  destruct (Z.eqb_spec (_recordsRemaining d) 0) as [E|E].
  - unfold createWorkPackage, target. rewrite E. simpl.
    change (pullCount []) with 0. change (goodPullCount []) with 0.
    repeat split; try reflexivity; lia.
  - destruct (createWorkPackage_pulls d) as
      (os & r & d' & -> & Hr & Hlen & Hok & Hall & Hwp); [lia|lia|].
    rewrite Hr. pose proof (goodRecords_length os) as Hgood.
    assert (Ht : 0 <= target d) by (unfold target; lia).
    change (SetRemaining (_recordsRemaining d - target d) :: map Pull os)
      with ([SetRemaining (_recordsRemaining d - target d)] ++ map Pull os).
    rewrite pullCount_app, goodPullCount_app, pullCount_pulls,
      goodPullCount_pulls.
    change (pullCount [SetRemaining (_recordsRemaining d - target d)])
      with 0.
    change (goodPullCount [SetRemaining (_recordsRemaining d - target d)])
      with 0.
    split; [lia|]. split; [lia|]. split.
    + destruct r as [wp|e]; [|discriminate]. intros _.
      rewrite (Hwp wp eq_refl). reflexivity.
    + intros Hgoodall.
      assert (Hg : allPullsGood (map Pull os)).
      { intros e He. apply Hgoodall. now right. }
      apply allPullsGood_pulls in Hg. destruct Hg as (Hl & Hs).
      rewrite Hs in Hall. destruct r as [wp|e]; [|discriminate].
      specialize (Hok eq_refl). rewrite (Hwp wp eq_refl).
      split; [reflexivity|]. simpl. lia.
Qed.

Lemma allPullsGood_app a b :
  allPullsGood (a ++ b) -> allPullsGood a /\ allPullsGood b.
Proof.
  intros H. split; intros e He; apply H; apply in_or_app; auto.
Qed.

Lemma createWorkPackages_spec (n : nat) :
  forall d : t (S := S),
    0 <= _recordsRemaining d < 2 ^ 64 ->
    0 <= chunkSize d ->
    let '(rs, d', evs) := createWorkPackages n d in
    _recordsRemaining d'
    = Z.max 0 (_recordsRemaining d - Z.of_nat n * chunkSize d)
    /\ chunkSize d' = chunkSize d
    /\ checkpointData d' = checkpointData d
    /\ pullCount evs <= _recordsRemaining d - _recordsRemaining d'
    /\ goodPullCount evs <= pullCount evs
    /\ (forallb isOk rs = true -> sumElements rs = goodPullCount evs)
    /\ (allPullsGood evs ->
        map numElementsOf rs
        = chunks n (_recordsRemaining d) (chunkSize d)).
Proof.
  induction n as [|n IH]; intros d Hrem Hchunk.
  - simpl. change (pullCount []) with 0. change (goodPullCount []) with 0.
    repeat split; try reflexivity; lia.
  - simpl createWorkPackages.
    pose proof (createWorkPackage_events d Hrem Hchunk) as H1.
    pose proof (createWorkPackage_remaining d Hrem Hchunk) as Hr1.
    pose proof (createWorkPackage_chunkSize d) as Hc1.
    pose proof (createWorkPackage_checkpointData d) as Hk1.
    destruct (createWorkPackage d) as [[r d1] ev1]. simpl in Hr1, Hc1, Hk1.
    destruct H1 as (Hp1 & Hg1 & Hn1 & Ha1).
    assert (Hrem1 : 0 <= _recordsRemaining d1 < 2 ^ 64) by lia.
    assert (Hchunk1 : 0 <= chunkSize d1) by lia.
    specialize (IH d1 Hrem1 Hchunk1).
    destruct (createWorkPackages n d1) as [[rs d2] ev2].
    destruct IH as (Hr2 & Hc2 & Hk2 & Hp2 & Hg2 & Hn2 & Ha2).
    rewrite pullCount_app, goodPullCount_app.
    split; [rewrite Hr2, Hr1, Hc1; nia|].
    split; [congruence|]. split; [congruence|].
    split; [lia|]. split; [lia|]. split.
    + simpl forallb. intros Hok. apply andb_prop in Hok as [Hok1 Hok2].
      unfold sumElements in *. simpl. rewrite Hn1, Hn2 by assumption. lia.
    + intros Hall. apply allPullsGood_app in Hall as [Hall1 Hall2].
      simpl. destruct (Ha1 Hall1) as [_ ->]. rewrite (Ha2 Hall2).
      unfold target. rewrite Hr1, Hc1. reflexivity.
Qed.

(** *** A run in terms of the record store *)

Lemma readRun_app (iv : bool) (a b : nat) :
  forall rs : S,
    forallb survivable (fst (readRun iv a rs)) = true ->
    readRun iv (a + b) rs
    = let '(o1, rs1) := readRun iv a rs in
      let '(o2, rs2) := readRun iv b rs1 in
      (o1 ++ o2, rs2).
Proof.
  induction a as [|a IH]; intros rs H; cbn [readRun Nat.add] in *.
  - destruct (readRun iv b rs). reflexivity.
  - destruct (readNext iv rs) as [o rs1].
    destruct (survivable o) eqn:Ho.
    + specialize (IH rs1). destruct (readRun iv a rs1) as [os rs2].
      cbn [fst forallb] in H. rewrite Ho in H. rewrite (IH H).
      destruct (readRun iv b rs2). reflexivity.
    + cbn [fst forallb] in H. rewrite Ho in H. discriminate H.
Qed.

(** Reads that were cut short are not taken up again. *)
Lemma readRun_cut (iv : bool) (a b : nat) :
  forall rs : S,
    forallb survivable (fst (readRun iv a rs)) = false ->
    readRun iv (a + b) rs = readRun iv a rs.
Proof.
  induction a as [|a IH]; intros rs H; cbn [readRun Nat.add] in *.
  - discriminate H.
  - destruct (readNext iv rs) as [o rs1].
    destruct (survivable o) eqn:Ho; [|reflexivity].
    specialize (IH rs1). destruct (readRun iv a rs1) as [os rs2].
    cbn [fst forallb] in H. rewrite Ho in H. rewrite (IH H). reflexivity.
Qed.

(** One call, with or without records remaining, in terms of the store. *)
Lemma createWorkPackage_read (d : t (S := S)) :
  0 <= _recordsRemaining d < 2 ^ 64 ->
  0 <= chunkSize d ->
  let reads :=
    readRun (_includeValues d) (Z.to_nat (target d)) (recordStore d) in
  pulled (snd (createWorkPackage d)) = fst reads
  /\ recordStore (snd (fst (createWorkPackage d))) = snd reads
  /\ _includeValues (snd (fst (createWorkPackage d))) = _includeValues d
  /\ isOk (fst (fst (createWorkPackage d)))
     = forallb survivable (fst reads).
Proof.
  intros Hrem Hchunk reads.
  assert (Hiv : _includeValues (snd (fst (createWorkPackage d)))
                = _includeValues d).
  { unfold createWorkPackage.
    destruct (_recordsRemaining d =? 0); [reflexivity|].
    destruct (fillLoop _ _ _). reflexivity. }
  destruct (Z.eqb_spec (_recordsRemaining d) 0) as [E|E].
  - assert (Ht : target d = 0) by (unfold target; lia).
    unfold reads. rewrite Ht. unfold createWorkPackage. rewrite E.
    repeat split.
  - destruct (createWorkPackage_store d) as [Hp Hs]; [lia|lia|].
    fold reads in Hp, Hs.
    destruct (createWorkPackage_pulls d) as
      (os & r & d' & Hcall & _ & _ & _ & Hall & _); [lia|lia|].
    rewrite Hcall in *. cbn [fst snd] in *.
    change (pulled (SetRemaining (_recordsRemaining d - target d)
                      :: map Pull os)) with (pulled (map Pull os)) in Hp.
    rewrite pulled_pulls in Hp. subst os.
    split; [apply pulled_pulls|]. repeat split; auto.
Qed.

Lemma createWorkPackages_reads (n : nat) :
  forall d : t (S := S),
    0 <= _recordsRemaining d < 2 ^ 64 ->
    0 <= chunkSize d ->
    let run := createWorkPackages n d in
    let reads :=
      readRun (_includeValues d)
        (Z.to_nat (Z.min (_recordsRemaining d) (Z.of_nat n * chunkSize d)))
        (recordStore d) in
    forallb isOk (fst (fst run)) = forallb survivable (fst reads)
    /\ (forallb isOk (fst (fst run)) = true ->
        pulled (snd run) = fst reads
        /\ recordStore (snd (fst run)) = snd reads).
Proof.
  induction n as [|n IH]; intros d Hrem Hchunk run reads.
  - unfold run, reads. cbn [createWorkPackages fst snd].
    change (Z.of_nat 0 * chunkSize d) with 0.
    rewrite Z.min_r by lia. repeat split.
  - pose proof (createWorkPackage_read d Hrem Hchunk) as H1.
    pose proof (createWorkPackage_remaining d Hrem Hchunk) as Hr1.
    pose proof (createWorkPackage_chunkSize d) as Hc1.
    cbv zeta in H1. unfold run. cbn [createWorkPackages].
    destruct (createWorkPackage d) as [[r d1] ev1]. cbn [fst snd] in *.
    destruct H1 as (Hp1 & Hs1 & Hiv1 & Hok1).
    assert (Hrem1 : 0 <= _recordsRemaining d1 < 2 ^ 64) by lia.
    assert (Hchunk1 : 0 <= chunkSize d1) by lia.
    specialize (IH d1 Hrem1 Hchunk1). cbv zeta in IH.
    destruct (createWorkPackages n d1) as [[rs d2] ev2]. cbn [fst snd] in *.
    rewrite Hiv1, Hs1, Hc1, Hr1 in IH.
    assert (Hsplit : Z.to_nat (Z.min (_recordsRemaining d)
                                  (Z.of_nat (Datatypes.S n) * chunkSize d))
                     = (Z.to_nat (target d)
                        + Z.to_nat
                            (Z.min (Z.max 0 (_recordsRemaining d
                                             - chunkSize d))
                               (Z.of_nat n * chunkSize d)))%nat)
      by (unfold target; nia).
    unfold reads. rewrite Hsplit. cbn [forallb].
    destruct IH as [Hoks IH]. rewrite Hok1, Hoks.
    destruct (forallb survivable
                (fst (readRun (_includeValues d) (Z.to_nat (target d))
                        (recordStore d)))) eqn:Hfirst.
    + rewrite (readRun_app _ _ _ _ Hfirst).
      destruct (readRun (_includeValues d) (Z.to_nat (target d))
                  (recordStore d)) as [o1 rs1].
      cbn [fst snd] in *.
      destruct (readRun (_includeValues d) _ rs1) as [o2 rs2].
      cbn [fst snd andb] in *. rewrite forallb_app, Hfirst. cbn [andb].
      split; [reflexivity|]. intros H2. rewrite Hoks in IH.
      destruct (IH H2) as [Hp2 Hs2].
      rewrite pulled_app, Hp1, Hp2. split; [reflexivity|exact Hs2].
    + rewrite (readRun_cut _ _ _ _ Hfirst), Hfirst. cbn [andb].
      split; [reflexivity|discriminate].
Qed.

Lemma goodPullCount_pulled (evs : list Event) :
  goodPullCount evs = Z.of_nat (length (goodRecords (pulled evs))).
Proof.
  unfold goodPullCount. f_equal.
  induction evs as [|[v|[r|e]] evs IH]; [reflexivity| | |].
  - rewrite filter_cons_False by (simpl; discriminate). exact IH.
  - rewrite filter_cons_True by reflexivity. simpl. now rewrite IH.
  - rewrite filter_cons_False by (simpl; discriminate). exact IH.
Qed.

Lemma allPullsGood_pulled (evs : list Event) :
  forallb isOk (pulled evs) = true -> allPullsGood evs.
Proof.
  intros H e He Hp. induction evs as [|x evs IH]; [destruct He|].
  destruct He as [->|He].
  - destruct e as [v|[r|ex]]; [discriminate Hp|reflexivity|].
    discriminate H.
  - apply IH; [|exact He]. destruct x as [v|o]; [exact H|].
    cbn [pulled omap] in H. apply andb_prop in H as [_ H]. exact H.
Qed.

(** C2, as the code has it: for a chunk size of at least 1.  Over [n]
    successive calls of [createWorkPackage], started with [N] records
    remaining: when each call produced its package, the pulls of the run
    are min(N, n * chunk) successive reads of the record store, the store
    is left where the last of them left it, and the [numElements] of the
    packages add up to the number of keys read successfully, which is at
    most [N]; the remaining counter is max(0, N - n * chunk), so it is
    exactly 0 from the call on at which n * chunk reaches N, and after [N]
    calls at the latest.  For a Distributor over a store of 10 records
    with a chunk size of 4, the first ten reads of the store succeeding,
    four calls give packages of 4, 4, 2 and 0 elements that hold those ten
    reads, and a [checkpointSave] after the second writes [Num Keys] = 8. *)
Theorem run_accounting (d : t (S := S)) (n : nat) :
  0 <= _recordsRemaining d < 2 ^ 64 ->
  0 < chunkSize d ->
  let rs := fst (fst (createWorkPackages n d)) in
  let d' := snd (fst (createWorkPackages n d)) in
  let evs := snd (createWorkPackages n d) in
  let reads :=
    readRun (_includeValues d)
      (Z.to_nat (Z.min (_recordsRemaining d) (Z.of_nat n * chunkSize d)))
      (recordStore d) in
  (forallb isOk rs = true ->
   pulled evs = fst reads
   /\ recordStore d' = snd reads
   /\ sumElements rs = Z.of_nat (length (goodRecords (fst reads))))
  /\ Z.of_nat (length (goodRecords (pulled evs))) <= _recordsRemaining d
  /\ _recordsRemaining d'
     = Z.max 0 (_recordsRemaining d - Z.of_nat n * chunkSize d)
  /\ (_recordsRemaining d <= Z.of_nat n -> _recordsRemaining d' = 0)
  /\ (forall (includeValues : bool) (rs0 : S) (chk : PropertiesFile.t),
        d = create includeValues 4 rs0 chk ->
        getCount rs0 = 10 -> n = 4%nat ->
        forallb isOk (fst (readRun includeValues 10 rs0)) = true ->
        map numElementsOf rs = [4; 4; 2; 0]
        /\ pulled evs = fst (readRun includeValues 10 rs0)
        /\ let d2 := snd (fst (createWorkPackages 2 d)) in
           forall reason : string,
             getCount (recordStore d2) = 10 ->
             PropertiesFile.writable chk = true ->
             PropertiesFile.stored
               (checkpointData (checkpointSave reason d2))
               !! CHECKPOINTNUMKEYS = Some "8"%string).
Proof.
  intros Hrem Hchunk rs d' evs reads.
  pose proof (createWorkPackages_spec n d Hrem (Z.lt_le_incl _ _ Hchunk))
    as H.
  pose proof (createWorkPackages_reads n d Hrem (Z.lt_le_incl _ _ Hchunk))
    as Hreads.
  cbv zeta in Hreads. fold reads in Hreads.
  subst rs d' evs. destruct (createWorkPackages n d) as [[rs d'] evs].
  cbn [fst snd] in *. destruct H as (Hr & Hc & Hk & Hp & Hg & Hn & Ha).
  destruct Hreads as [Hoks Hreads].
  rewrite goodPullCount_pulled in Hg, Hn.
  split.
  { intros Hok. destruct (Hreads Hok) as [Hp1 Hs1].
    split; [exact Hp1|]. split; [exact Hs1|].
    rewrite (Hn Hok), Hp1. reflexivity. }
  split; [lia|]. split; [exact Hr|].
  split; [intros Hle; rewrite Hr; nia|].
  intros iv rs0 chk Hd Hcount -> Hall.
  assert (Hten : _recordsRemaining d = 10 /\ chunkSize d = 4
                 /\ _includeValues d = iv /\ recordStore d = rs0
                 /\ checkpointData d = chk).
  { subst d. unfold create. cbn. rewrite Hcount. repeat split. }
  destruct Hten as (H10 & H4 & Hiv & Hrs & Hchk).
  assert (Hreads10 : reads = readRun iv 10 rs0).
  { unfold reads. rewrite H10, H4, Hiv, Hrs. reflexivity. }
  assert (Hsurv : forallb survivable (fst reads) = true).
  { rewrite Hreads10. clear - Hall.
    induction (fst (readRun iv 10 rs0)) as [|[r|e] os IH];
      [reflexivity| |discriminate Hall].
    cbn [forallb isOk survivable andb] in *. exact (IH Hall). }
  rewrite Hsurv in Hoks. destruct (Hreads Hoks) as [Hp1 _].
  assert (Hgood : allPullsGood evs).
  { apply allPullsGood_pulled. rewrite Hp1, Hreads10. exact Hall. }
  split; [rewrite (Ha Hgood), H10, H4; reflexivity|].
  split; [rewrite Hp1, Hreads10; reflexivity|].
  intros reason Hcount2 Hw.
  pose proof (createWorkPackages_spec 2 d Hrem (Z.lt_le_incl _ _ Hchunk))
    as H2.
  destruct (createWorkPackages 2 d) as [[rs2 d2] evs2].
  cbn [fst snd] in *. destruct H2 as (Hr2 & _ & Hk2 & _).
  rewrite H10, H4 in Hr2. simpl in Hr2.
  unfold checkpointSave. rewrite Hcount2, Hr2, Hk2, Hchk.
  unfold PropertiesFile.sync, PropertiesFile.setPropertyFromInteger,
    PropertiesFile.setProperty. cbn [PropertiesFile.writable].
  rewrite Hw. cbn [checkpointData writeDebug setCheckpointData
                     PropertiesFile.stored PropertiesFile.props].
  apply lookup_insert_eq.
Qed.

End WithStore.

(** *** The scenario of ten records *)

#[local] Existing Instance FileRecordStore.store.

Lemma allPullsGood_forallb (evs : list Event) :
  forallb (fun e => implb (isPull e) (isGoodPull e)) evs = true ->
  allPullsGood evs.
Proof.
  intros H e He Hp. rewrite forallb_forall in H. specialize (H e He).
  rewrite Hp in H. exact H.
Qed.

Lemma createWorkPackage_target_count_witness :
  let d := Scenario.distributor 4 in
  let call := createWorkPackage (alloc := Scenario.allocator) d in
  (0 < _recordsRemaining d < 2 ^ 64 /\ 0 <= chunkSize d)
  /\ snd call
     = SetRemaining 6
         :: map (fun k => Pull (Ok (mkRecord k [x01])))
              ["k0"; "k1"; "k2"; "k3"]%string
  /\ FileRecordStore._cursorPos (recordStore (snd (fst call))) = 5
  /\ _recordsRemaining (snd (fst call)) = 6
  /\ numElementsOf (fst (fst call)) = 4.
Proof.
  intros d call.
  assert (H1 : 0 < _recordsRemaining d < 2 ^ 64) by (split; reflexivity).
  assert (H2 : 0 <= chunkSize d) by discriminate.
  split; [split; assumption|].
  destruct (createWorkPackage_target_count (alloc := Scenario.allocator)
              d H1 H2) as (Hev & Hst & Hrem & _ & _ & _).
  fold call in Hev, Hst, Hrem.
  split; [rewrite Hev; reflexivity|]. split; [rewrite Hst; reflexivity|].
  split; [exact Hrem|]. vm_compute. reflexivity.
Defined.

(** C3, as stated, fails on the payload: with no record remaining the
    package carries the 16384 bytes of the fresh buffer, not an empty
    payload. *)
Lemma empty_package_has_full_buffer :
  _recordsRemaining Scenario.idleDistributor = 0
  /\ exists wp : WorkPackage.t,
       fst (fst (createWorkPackage (alloc := Scenario.allocator)
                   Scenario.idleDistributor)) = Ok wp
       /\ WorkPackage.numElements wp = 0
       /\ Z.of_nat (length (WorkPackage.data wp)) = 16384
       /\ WorkPackage.data wp <> [].
Proof.
  split; [reflexivity|].
  exists (WorkPackage.mk 0 (newArray (alloc := Scenario.allocator) 16384)).
  split; [reflexivity|]. split; [reflexivity|].
  cbn [WorkPackage.data]. rewrite length_newArray.
  split; [reflexivity|].
  intros H. apply (f_equal (@length byte)) in H.
  rewrite length_newArray in H. simpl in H. lia.
Qed.

Lemma createWorkPackage_none_remaining_witness :
  _recordsRemaining Scenario.idleDistributor = 0
  /\ createWorkPackage (alloc := Scenario.allocator)
       Scenario.idleDistributor
     = (Ok (WorkPackage.mk 0 (newArray (alloc := Scenario.allocator) 16384)),
        Scenario.idleDistributor, []).
Proof.
  split; [reflexivity|].
  apply (createWorkPackage_none_remaining (alloc := Scenario.allocator)
           Scenario.idleDistributor eq_refl).
Defined.

(** C2, as stated, fails for the chunk size 0: every package is empty and
    the remaining counter never leaves 10. *)
Lemma run_with_chunk_zero :
  chunkSize (Scenario.distributor 0) = 0
  /\ forall n : nat,
       _recordsRemaining
         (snd (fst (createWorkPackages (alloc := Scenario.allocator) n
                      (Scenario.distributor 0)))) = 10.
Proof.
  split; [reflexivity|]. intros n.
  pose proof (createWorkPackages_spec (alloc := Scenario.allocator) n
                (Scenario.distributor 0)) as H.
  destruct (createWorkPackages n (Scenario.distributor 0)) as [[rs d'] evs].
  destruct H as (H & _).
  - split; [discriminate|reflexivity].
  - discriminate.
  - cbn [fst snd]. rewrite H.
    change (_recordsRemaining (Scenario.distributor 0)) with 10.
    change (chunkSize (Scenario.distributor 0)) with 0. lia.
Qed.

Lemma run_accounting_witness :
  let d := Scenario.distributor 4 in
  let run := createWorkPackages (alloc := Scenario.allocator) 4 d in
  (0 <= _recordsRemaining d < 2 ^ 64 /\ 0 < chunkSize d)
  /\ map numElementsOf (fst (fst run)) = [4; 4; 2; 0]
  /\ pulled (snd run)
     = map (fun k => Ok (mkRecord k [x01]))
         ["k0"; "k1"; "k2"; "k3"; "k4"; "k5"; "k6"; "k7"; "k8";
          "k9"]%string
  /\ sumElements (fst (fst run)) = 10
  /\ _recordsRemaining (snd (fst run)) = 0
  /\ PropertiesFile.stored
       (checkpointData
          (checkpointSave "Package sent"
             (snd (fst (createWorkPackages (alloc := Scenario.allocator)
                          2 d)))))
       !! CHECKPOINTNUMKEYS = Some "8"%string.
Proof.
  intros d run.
  assert (H1 : 0 <= _recordsRemaining d < 2 ^ 64)
    by (split; [discriminate|reflexivity]).
  assert (H2 : 0 < chunkSize d) by reflexivity.
  split; [split; assumption|].
  destruct (run_accounting (alloc := Scenario.allocator) d 4 H1 H2)
    as (Hsum & _ & Hrem & _ & Hscen).
  fold run in Hsum, Hrem, Hscen.
  destruct (Hscen true Scenario.tenRecords Scenario.noCheckpoint
              eq_refl eq_refl eq_refl eq_refl)
    as (Hsizes & Hpulled & Hsave).
  split; [exact Hsizes|].
  split; [rewrite Hpulled; reflexivity|].
  split.
  { assert (Hok : forallb isOk (fst (fst run)) = true)
      by (vm_compute; reflexivity).
    destruct (Hsum Hok) as (_ & _ & Hs). rewrite Hs. reflexivity. }
  split; [rewrite Hrem; reflexivity|].
  apply Hsave; reflexivity.
Defined.

End DistributorFacts.

(** ** The worker loop *)

Module WorkerFacts.
Import PackageWorker Message.

Section WithCodes.
Context {codes : WireCodes}.

(** Membership in a short list of events, case by case. *)
Ltac in_cases H :=
  simpl in H;
  repeat match type of H with
         | _ \/ _ => destruct H as [H|H]
         | False => contradiction
         | _ = _ => first [discriminate H | inversion H; subst; clear H]
         end.

(** The events of [awaitCommand] show a [processWorkPackage] that threw
    only if the call was reached and threw. *)
Lemma awaitCommand_processThrew (t : Turn) (e : Exception) :
  processThrew e (fst (awaitCommand t)) ->
  processWorkPackage t = Throw e
  /\ exists wp, awaitCommand t = process t wp.
Proof.
  unfold processThrew, awaitCommand. intros [wp H].
  destruct (waitForCommand t) as [[]|e1];
    [|in_cases H|destruct (isErrorException e1); in_cases H].
  destruct (receiveCommand t) as [message|e1];
    [|destruct (isErrorException e1); in_cases H].
  destruct (messageToCommand message) as [cmd|e1]; [|in_cases H].
  assert (Hp : forall wp',
             In (Processed wp (Throw e)) (fst (process t wp')) ->
             processWorkPackage t = Throw e).
  { intros wp'. unfold process.
    destruct (processWorkPackage t) as [u|e1]; [intros H'; in_cases H'|].
    destruct (isTerminateJob e1); [intros H'; in_cases H'; reflexivity|].
    destruct (isErrorException e1); intros H'; in_cases H'; reflexivity. }
  destruct (receiveWorkPackage t) as [wp'|e1].
  - destruct cmd as [[]|]; try (now in_cases H);
      (split; [exact (Hp wp' H)|exists wp'; reflexivity]).
  - destruct cmd as [[]|]; try (now in_cases H);
      destruct (isErrorException e1); in_cases H.
Qed.

(** A pass in which [processWorkPackage] threw ends with [continue] and the
    status that stands for the exception. *)
Lemma pass_processThrew (taskStatus : TaskStatus.t) (t : Turn)
    (e : Exception) :
  processThrew e (fst (pass taskStatus t)) ->
  isErrorException e = true ->
  snd (pass taskStatus t)
  = Again (if isTerminateJob e
           then TaskStatus.RequestJobTermination else TaskStatus.Failed).
Proof.
  unfold pass. intros H He.
  destruct (stopRequested t); [destruct H as [wp H]; in_cases H|].
  assert (Hkey : forall ev0 m,
             (forall wp, ~ In (Processed wp (Throw e)) ev0) ->
             processThrew e (ev0 ++ SentToManager m :: fst (awaitCommand t)) ->
             snd (awaitCommand t)
             = Again (if isTerminateJob e
                      then TaskStatus.RequestJobTermination
                      else TaskStatus.Failed)).
  { intros ev0 m Hev0 [wp Hin]. apply in_app_or in Hin.
    destruct Hin as [Hin|[Hin|Hin]]; [now apply Hev0 in Hin|discriminate|].
    destruct (awaitCommand_processThrew t e (ex_intro _ wp Hin))
      as (Hthrow & wp' & ->).
    unfold process. rewrite Hthrow.
    destruct (isTerminateJob e); [reflexivity|]. now rewrite He. }
  destruct (exitCondition t).
  - destruct (sendMessageToManager t) as [u|e1].
    + destruct H as [wp H]. in_cases H.
    + destruct (isErrorException e1); destruct H as [wp H]; in_cases H.
  - destruct (sendMessageToManager t) as [u|e1].
    + destruct (negb (TaskStatus.eqb taskStatus TaskStatus.OK)).
      * destruct H as [wp H]. in_cases H.
      * destruct (awaitCommand t) as [ev next] eqn:Hac. simpl in *.
        apply (Hkey [] (statusToMessage taskStatus)); [intros wp []|exact H].
    + destruct (isErrorException e1); destruct H as [wp H]; in_cases H.
Qed.

(** A pass entered with a status other than [OK], with no stop requested,
    no exit condition and a send that succeeds: the status is sent, once,
    and the loop is left. *)
Lemma pass_report (taskStatus : TaskStatus.t) (t : Turn) :
  taskStatus <> TaskStatus.OK ->
  stopRequested t = false ->
  exitCondition t = false ->
  sendMessageToManager t = Ok tt ->
  pass taskStatus t = ([SentToManager (statusToMessage taskStatus)], Leave).
Proof.
  intros Hst Hstop Hexit Hsend. unfold pass.
  rewrite Hstop, Hexit, Hsend.
  destruct taskStatus; try reflexivity. contradiction.
Qed.

(** C6, as the code has it.  When [processWorkPackage] throws in a pass of
    the worker loop, the status becomes [RequestJobTermination] for a
    [TerminateJob] and [Failed] for any other [Error::Exception]; if on the
    next pass no stop is requested, no process-wide exit flag is set and
    the send succeeds, the worker sends that status to its manager, once,
    and leaves the loop: it returns 0 having reported. *)
Theorem worker_reports_failure (taskStatus : TaskStatus.t) (t t' : Turn)
    (rest : list Turn) (e : Exception) :
  processThrew e (fst (pass taskStatus t)) ->
  isErrorException e = true ->
  stopRequested t' = false ->
  exitCondition t' = false ->
  sendMessageToManager t' = Ok tt ->
  let status :=
    if isTerminateJob e
    then TaskStatus.RequestJobTermination else TaskStatus.Failed in
  workerLoop taskStatus (t :: t' :: rest)
  = (fst (pass taskStatus t)
       ++ [SentToManager (statusToMessage status);
           LogMessage "Worker process exiting"],
     Returned 0)
  /\ sentMessages (fst (workerLoop taskStatus (t :: t' :: rest)))
     = sentMessages (fst (pass taskStatus t)) ++ [statusToMessage status].
Proof.
  intros Hthrew He Hstop Hexit Hsend status.
  pose proof (pass_processThrew taskStatus t e Hthrew He) as Hnext.
  fold status in Hnext.
  assert (Hloop : workerLoop taskStatus (t :: t' :: rest)
                  = (fst (pass taskStatus t)
                       ++ [SentToManager (statusToMessage status);
                           LogMessage "Worker process exiting"],
                     Returned 0)).
  { cbn [workerLoop]. destruct (pass taskStatus t) as [ev next].
    simpl in Hnext. subst next.
    rewrite (pass_report status t') by
      (try assumption; unfold status; destruct (isTerminateJob e); discriminate).
    reflexivity. }
  split; [exact Hloop|]. rewrite Hloop. cbn [fst].
  unfold sentMessages. rewrite omap_app. reflexivity.
Qed.

End WithCodes.

Lemma worker_reports_failure_witness :
  let e := TerminateJob "stop the job" in
  (processThrew e
     (fst (pass (codes := Scenario.codes) TaskStatus.OK
             Scenario.jobTerminated))
   /\ isErrorException e = true
   /\ stopRequested Scenario.quiet = false
   /\ exitCondition Scenario.quiet = false
   /\ sendMessageToManager Scenario.quiet = Ok tt)
  /\ snd (workerLoop (codes := Scenario.codes) TaskStatus.OK
            [Scenario.jobTerminated; Scenario.quiet])
     = Returned 0
  /\ sentMessages
       (fst (workerLoop (codes := Scenario.codes) TaskStatus.OK
               [Scenario.jobTerminated; Scenario.quiet]))
     = [statusToMessage (codes := Scenario.codes) TaskStatus.OK;
        statusToMessage (codes := Scenario.codes)
          TaskStatus.RequestJobTermination].
Proof.
  intros e.
  assert (H1 : processThrew e
                 (fst (pass (codes := Scenario.codes) TaskStatus.OK
                         Scenario.jobTerminated))).
  { eexists. vm_compute. right. left. reflexivity. }
  split; [repeat split; try reflexivity; exact H1|].
  destruct (worker_reports_failure (codes := Scenario.codes) TaskStatus.OK
              Scenario.jobTerminated Scenario.quiet [] e H1
              eq_refl eq_refl eq_refl eq_refl) as [Hrun Hsent].
  split; [rewrite Hrun; reflexivity|].
  rewrite Hsent. vm_compute. reflexivity.
Defined.

(** C6, as stated, fails when a process-wide exit flag is set while the
    package is processed: no stop is requested and the send succeeds, yet
    the status the worker sends after the [TerminateJob] is [Exit], and
    [RequestJobTermination] is never reported. *)
Lemma worker_exit_flag_overrides :
  let run :=
    workerLoop (codes := Scenario.codes) TaskStatus.OK
      [Scenario.jobTerminated; Scenario.quietAfterExitFlag] in
  processThrew (TerminateJob "stop the job") (fst run)
  /\ stopRequested Scenario.quietAfterExitFlag = false
  /\ sendMessageToManager Scenario.quietAfterExitFlag = Ok tt
  /\ snd run = Returned 0
  /\ sentMessages (fst run)
     = [statusToMessage (codes := Scenario.codes) TaskStatus.OK;
        statusToMessage (codes := Scenario.codes) TaskStatus.Exit]
  /\ ~ In (statusToMessage (codes := Scenario.codes)
             TaskStatus.RequestJobTermination)
         (sentMessages (fst run)).
Proof.
  intros run. split.
  - eexists. vm_compute. right. left. reflexivity.
  - repeat split; try reflexivity.
    vm_compute. intros [H|[H|[]]]; discriminate H.
Qed.

End WorkerFacts.

(** ** The Receiver *)

Module ReceiverFacts.
Import Receiver Message Traffic.

Section WithCodes.
Context {codes : WireCodes}.

Ltac in_cases H :=
  simpl in H;
  repeat match type of H with
         | _ \/ _ => destruct H as [H|H]
         | False => contradiction
         | _ = _ => first [discriminate H | inversion H; subst; clear H]
         end.

Lemma outOfBand_events (flags : ExitFlags) (oob : option Z) (w : Worker)
    (m : uint8Array) :
  ~ In (FromWorker w m) (fst (outOfBand flags oob)).
Proof.
  unfold outOfBand. destruct oob as [cmd|]; [|intros []].
  destruct (to_enum_command cmd) as [[]|]; intros H; in_cases H.
Qed.

Lemma handOver_events (worker : Worker) (wp : WorkPackage.t) (h : Handover)
    (w : Worker) (m : uint8Array) :
  ~ In (FromWorker w m) (fst (handOver worker wp h)).
Proof.
  unfold handOver.
  destruct (sendContinue h); [|intros []].
  destruct (sendCount h); [|intros H; in_cases H].
  destruct (sendData h); intros H; in_cases H.
Qed.

(** Steps of the proof below: the dispatch goes on with the next poll after
    the message of a worker and one more event; a worker is stopped. *)
Ltac dispatch_goes_on IH flags1 w m Hst Hin Hhere :=
  specialize (IH flags1);
  destruct (sendWorkPackage flags1 _ _ _) as [[? ?] ?];
  cbn [fst snd] in *; apply IH; exists w, m; split; [|exact Hst];
  apply in_app_or in Hin; destruct Hin as [Hin|Hin];
  [apply Hhere in Hin; discriminate|];
  destruct Hin as [Hin|Hin]; [discriminate|exact Hin].

Ltac dispatch_stopped p IH flags1 w m Hst Hin Hhere :=
  destruct (stopWorker p) as [?|?];
  [ dispatch_goes_on IH flags1 w m Hst Hin Hhere
  | destruct (isErrorException _);
    [ dispatch_goes_on IH flags1 w m Hst Hin Hhere
    | cbn [fst snd] in *; apply Hhere in Hin; discriminate ] ].

(** A dispatch that received [RequestJobTermination] from a worker ends
    with [throw MPI::TerminateJob()]. *)
Lemma sendWorkPackage_job_termination (wp : WorkPackage.t) (h : Handover)
    (polls : list Poll) :
  forall flags : ExitFlags,
    receivedStatus TaskStatus.RequestJobTermination
      (fst (fst (sendWorkPackage flags wp polls h))) ->
    snd (fst (sendWorkPackage flags wp polls h)) = Uncaught (TerminateJob "").
Proof.
  induction polls as [|p polls IH]; intros flags (w & m & Hin & Hst).
  - destruct Hin.
  - cbn [sendWorkPackage] in *.
    destruct (getNumActiveWorkers p =? 0); [destruct Hin|].
    pose proof (outOfBand_events (raise flags (p_raised p)) (oobCmd p) w m)
      as Hoob.
    destruct (outOfBand (raise flags (p_raised p)) (oobCmd p))
      as [ev0 flags1]. cbn [fst] in Hoob.
    destruct (QuickExit flags1 || TermExit flags1); [contradiction|].
    destruct (getNextMessage p) as [[[w0 m0]|]|e]; [| |contradiction].
    + assert (Hhere : In (FromWorker w m) (ev0 ++ [FromWorker w0 m0]) ->
                      messageToStatus m0
                      = Ok (Some TaskStatus.RequestJobTermination)).
      { intros H. apply in_app_or in H. destruct H as [H|H];
          [contradiction|]. in_cases H. exact Hst. }
      destruct (messageToStatus m0) as [[[]|]|e] eqn:Hm0;
        try reflexivity;
        try (dispatch_stopped p IH flags1 w m Hst Hin Hhere).
      * pose proof (handOver_events w0 wp h w m) as Hho.
        destruct (handOver w0 wp h) as [ev r]. cbn [fst snd] in *.
        apply in_app_or in Hin. destruct Hin as [Hin|Hin];
          [apply Hhere in Hin; discriminate|contradiction].
      * cbn [fst snd] in *. apply Hhere in Hin. discriminate.
    + specialize (IH flags1).
      destruct (sendWorkPackage flags1 wp polls h) as [[ev r] f].
      cbn [fst snd] in *. apply IH. exists w, m. split; [|exact Hst].
      apply in_app_or in Hin. destruct Hin as [Hin|Hin];
        [contradiction|exact Hin].
Qed.

(** A pass of the request loop that gets as far as the dispatch. *)
Lemma round_dispatch (flags : ExitFlags) (status : TaskStatus.t) (r : Round) :
  localExit (raise flags (r_raised r)) = None ->
  announcesPackage (to_enum_command (taskCommand r)) = true ->
  round flags status r
  = let '(ev, flags', next) :=
      dispatch (raise flags (r_raised r)) status r in
    (asked (WorkPackage.mk (numElements r) (workPackageRaw r)) ++ ev,
     flags', next).
Proof.
  intros Hexit Hcmd. unfold round. rewrite Hexit.
  destruct (to_enum_command (taskCommand r)) as [[]|]; try discriminate Hcmd;
    destruct (dispatch _ _ _) as [[ev f] next]; reflexivity.
Qed.

(** C7, on the code.  When the dispatch finds no active worker,
    [sendWorkPackage] sends nothing and logs nothing: it throws
    [Error::StrategyError("No workers")].  The request loop takes the
    exception for a failure to process the package, reports [Failed] to
    Task-0 and returns. *)
Theorem sendWorkPackage_no_workers (flags : ExitFlags)
    (status : TaskStatus.t) (r : Round) (rest : list Round)
    (p : Poll) (polls' : list Poll) :
  localExit (raise flags (r_raised r)) = None ->
  announcesPackage (to_enum_command (taskCommand r)) = true ->
  polls r = p :: polls' ->
  getNumActiveWorkers p = 0 ->
  let wp := WorkPackage.mk (numElements r) (workPackageRaw r) in
  sendWorkPackage (raise flags (r_raised r)) wp (polls r) (handover r)
  = ([], Uncaught (StrategyError "No workers"), raise flags (r_raised r))
  /\ requestLoop flags status (r :: rest)
     = (asked wp
          ++ [LogMessage "Failure to process work package: No workers";
              SendToDistributor TaskStatus.Failed],
        raise flags (r_raised r), Returned TaskStatus.Failed).
Proof.
  intros Hexit Hcmd Hpolls Hnone wp.
  assert (Hsend : sendWorkPackage (raise flags (r_raised r)) wp (polls r)
                    (handover r)
                  = ([], Uncaught (StrategyError "No workers"),
                     raise flags (r_raised r))).
  { rewrite Hpolls. cbn [sendWorkPackage]. rewrite Hnone. reflexivity. }
  split; [exact Hsend|].
  cbn [requestLoop]. rewrite round_dispatch by assumption.
  unfold dispatch. fold wp. rewrite Hsend. reflexivity.
Qed.

(** C10.  A pass of the request loop whose dispatch received
    [RequestJobTermination] from a worker reports that status to Task-0 and
    goes on with the next pass, which, unless a local exit flag is set, asks
    for the next work package.  A dispatch that fails with another
    [Error::Exception] makes the loop report [Failed] and return at once;
    a dispatch that returns lets the loop go on. *)
Theorem dispatch_outcomes (flags : ExitFlags) (status : TaskStatus.t)
    (r : Round) (rest : list Round) :
  let flags0 := raise flags (r_raised r) in
  let wp := WorkPackage.mk (numElements r) (workPackageRaw r) in
  let sent := sendWorkPackage flags0 wp (polls r) (handover r) in
  localExit flags0 = None ->
  announcesPackage (to_enum_command (taskCommand r)) = true ->
  (receivedStatus TaskStatus.RequestJobTermination (fst (fst sent)) ->
   requestLoop flags status (r :: rest)
   = (let '(ev', flags', e') :=
        requestLoop (snd sent) TaskStatus.RequestJobTermination rest in
      (asked wp ++ fst (fst sent)
         ++ [LogMessage "Package processor requested job termination ";
             SendToDistributor TaskStatus.RequestJobTermination] ++ ev',
       flags', e'))
   /\ forall (r' : Round) (rest' : list Round),
        rest = r' :: rest' ->
        localExit (raise (snd sent) (r_raised r')) = None ->
        exists ev'' : list Event,
          fst (fst (requestLoop (snd sent) TaskStatus.RequestJobTermination
                      rest))
          = LogMessage "Asking for work package" :: AskForWorkPackage :: ev'')
  /\ (forall ex : Exception,
        snd (fst sent) = Uncaught ex ->
        isTerminateJob ex = false ->
        isErrorException ex = true ->
        requestLoop flags status (r :: rest)
        = (asked wp ++ fst (fst sent)
             ++ [LogMessage ("Failure to process work package: "
                               +:+ whatString ex)%string;
                 SendToDistributor TaskStatus.Failed],
           snd sent, Returned TaskStatus.Failed))
  /\ (snd (fst sent) = Returned tt ->
      requestLoop flags status (r :: rest)
      = (let '(ev', flags', e') := requestLoop (snd sent) status rest in
         (asked wp ++ fst (fst sent) ++ ev', flags', e'))).
Proof.
  intros flags0 wp sent Hexit Hcmd.
  assert (Hround : round flags status r
                   = let '(ev, flags', next) := dispatch flags0 status r in
                     (asked wp ++ ev, flags', next))
    by (apply round_dispatch; assumption).
  unfold dispatch in Hround. fold wp sent in Hround.
  split; [|split].
  - intros Hrjt.
    pose proof (sendWorkPackage_job_termination wp (handover r) (polls r)
                  flags0 Hrjt) as Hend.
    fold sent in Hend. split.
    + cbn [requestLoop]. rewrite Hround.
      destruct sent as [[ev e] f]. cbn [fst snd] in *. subst e.
      cbn [isTerminateJob whatString].
      destruct (requestLoop f TaskStatus.RequestJobTermination rest)
        as [[ev' f'] e'].
      rewrite <- !app_assoc. reflexivity.
    + intros r' rest' -> Hexit'. cbn [requestLoop]. unfold round.
      rewrite Hexit'.
      destruct (to_enum_command (taskCommand r')) as [[]|];
        repeat match goal with
               | |- context [dispatch ?a ?b ?c] =>
                   destruct (dispatch a b c) as [[? ?] [?|?]]
               | |- context [requestLoop ?a ?b ?c] =>
                   destruct (requestLoop a b c) as [[? ?] ?]
               end; cbn [fst app]; eexists; reflexivity.
  - intros ex Hend Hnt Herr. cbn [requestLoop]. rewrite Hround.
    destruct sent as [[ev e] f]. cbn [fst snd] in *. subst e.
    rewrite Hnt, Herr. reflexivity.
  - intros Hend. cbn [requestLoop]. rewrite Hround.
    destruct sent as [[ev e] f]. cbn [fst snd] in *. subst e.
    destruct (requestLoop f status rest) as [[ev' f'] e'].
    rewrite <- !app_assoc. reflexivity.
Qed.

Lemma requestLoop_app (pre rest : list Round) :
  forall (flags seen : ExitFlags) (status status' : TaskStatus.t)
         (evs : list Event),
    afterRounds flags status pre = Some (evs, seen, status') ->
    requestLoop flags status (pre ++ rest)
    = let '(ev', flags', e) := requestLoop seen status' rest in
      (evs ++ ev', flags', e).
Proof.
  induction pre as [|r pre IH]; intros flags seen status status' evs H.
  - inversion H; subst. simpl.
    destruct (requestLoop seen status' rest) as [[ev' f'] e]. reflexivity.
  - simpl in H. simpl app. cbn [requestLoop].
    destruct (round flags status r) as [[ev f] [st|e]]; [|discriminate].
    destruct (afterRounds f st pre) as [[[ev1 f1] st1]|] eqn:Hpre;
      [|discriminate].
    inversion H; subst. rewrite (IH _ _ _ _ _ Hpre).
    destruct (requestLoop seen status' rest) as [[ev' f'] e].
    rewrite <- app_assoc. reflexivity.
Qed.


(** What leaves the loop is no [Error::Exception]. *)
Lemma stopWorkers_escaped (n : nat)
    (ms : list (result (option (Worker * uint8Array)) * result unit))
    (e : Exception) :
  snd (stopWorkers n ms) = Some e -> isErrorException e = false.
Proof.
  revert ms. induction n as [|n IH]; intros ms;
    [destruct ms; discriminate|].
  destruct ms as [|[[[[w m]|]|ex] stopped] ms]; try discriminate.
  - cbn [stopWorkers]. specialize (IH ms). destruct stopped as [u|ex].
    + destruct (stopWorkers n ms). exact IH.
    + destruct (isErrorException ex) eqn:Hex.
      * destruct (stopWorkers n ms). exact IH.
      * cbn [snd]. intros H. injection H as <-. exact Hex.
  - cbn [stopWorkers]. destruct (isErrorException ex) eqn:Hex;
      [discriminate|]. cbn [snd]. intros H. injection H as <-. exact Hex.
Qed.

Lemma stopWorkers_orderly (n : nat)
    (ms : list (result (option (Worker * uint8Array)) * result unit)) :
  forallb (fun m => caught (fst m) && caught (snd m)) ms = true ->
  snd (stopWorkers n ms) = None.
Proof.
  revert ms. induction n as [|n IH]; intros ms Hms;
    [destruct ms; reflexivity|].
  destruct ms as [|[[[[w m]|]|ex] stopped] ms]; try reflexivity;
    cbn [forallb fst snd caught] in Hms; apply andb_prop in Hms as [H1 H2].
  - cbn [stopWorkers]. specialize (IH ms H2). destruct stopped as [u|ex].
    + destruct (stopWorkers n ms). exact IH.
    + cbn [caught andb] in H1. rewrite H1.
      destruct (stopWorkers n ms). exact IH.
  - cbn [stopWorkers]. apply andb_prop in H1 as [H1 _]. rewrite H1.
    reflexivity.
Qed.


Lemma shutdown_orderly (flags : ExitFlags) (taskStatus : TaskStatus.t)
    (reason : string) (c : Closing) :
  orderly c = true ->
  snd (shutdown flags taskStatus reason c) = Returned tt.
Proof.
  unfold orderly, shutdown. intros H. apply andb_prop in H as [Hms Hp].
  pose proof (stopWorkers_orderly (Z.to_nat (workerCount c)) (lastMessages c)
                Hms) as Hnone.
  destruct (negb _ && _).
  - destruct (stopWorkers _ _) as [ev x]. cbn [snd] in Hnone. subst x.
    destruct (performShutdown c) as [u|e]; [reflexivity|].
    cbn [caught] in Hp. rewrite Hp. reflexivity.
  - destruct (performShutdown c) as [u|e]; [reflexivity|].
    cbn [caught] in Hp. rewrite Hp. reflexivity.
Qed.


(** A dispatch that finds the QuickExit flag set returns without sending
    the package. *)
Lemma sendWorkPackage_under_QuickExit (flags : ExitFlags) (wp : WorkPackage.t)
    (p : Poll) (polls : list Poll) (h : Handover) :
  (getNumActiveWorkers p =? 0) = false ->
  QuickExit (raise flags (p_raised p)) = true ->
  exists (ev : list Event) (flags' : ExitFlags),
    sendWorkPackage flags wp (p :: polls) h = (ev, Returned tt, flags')
    /\ QuickExit flags' = true
    /\ forallb (fun e => negb (isPackageTraffic e)) ev = true.
Proof.
  intros Hw Hq. cbn [sendWorkPackage]. rewrite Hw. unfold outOfBand.
  destruct (oobCmd p) as [cmd|].
  - destruct (to_enum_command cmd) as [[]|]; cbn [QuickExit TermExit];
      rewrite ?Hq; cbn [orb]; eexists _, _;
      (split; [reflexivity|split; [assumption || reflexivity|reflexivity]]).
  - rewrite Hq. cbn [orb]. eexists _, _.
    split; [reflexivity|split; [assumption|reflexivity]].
Qed.

End WithCodes.

Lemma sendWorkPackage_no_workers_witness :
  let r := Scenario.packageRound noFlags [Scenario.pollNoWorkers] in
  let wp := WorkPackage.mk (numElements r) (workPackageRaw r) in
  (localExit (raise noFlags (r_raised r)) = None
   /\ announcesPackage
        (to_enum_command (codes := Scenario.codes) (taskCommand r)) = true
   /\ getNumActiveWorkers Scenario.pollNoWorkers = 0)
  /\ sentToDistributor
       (fst (fst (requestLoop (codes := Scenario.codes) noFlags TaskStatus.OK
                    [r; r])))
     = [TaskStatus.OK; TaskStatus.Failed]
  /\ snd (requestLoop (codes := Scenario.codes) noFlags TaskStatus.OK [r; r])
     = Returned TaskStatus.Failed.
Proof.
  intros r wp. split; [repeat split; reflexivity|].
  destruct (sendWorkPackage_no_workers (codes := Scenario.codes) noFlags
              TaskStatus.OK r [r] Scenario.pollNoWorkers []
              eq_refl eq_refl eq_refl eq_refl) as [_ Hloop].
  rewrite Hloop. split; reflexivity.
Defined.

Lemma dispatch_outcomes_witness :
  let r :=
    Scenario.packageRound noFlags
      [Scenario.pollFrom 1%nat TaskStatus.RequestJobTermination] in
  let r' := Scenario.packageRound noFlags
              [Scenario.pollFrom 0%nat TaskStatus.OK] in
  (localExit (raise noFlags (r_raised r)) = None
   /\ announcesPackage
        (to_enum_command (codes := Scenario.codes) (taskCommand r)) = true)
  /\ sentToDistributor
       (fst (fst (requestLoop (codes := Scenario.codes) noFlags TaskStatus.OK
                    [r; r'])))
     = [TaskStatus.OK; TaskStatus.RequestJobTermination; TaskStatus.OK]
  /\ length (List.filter
               (fun e => match e with
                         | AskForWorkPackage => true
                         | _ => false
                         end)
               (fst (fst (requestLoop (codes := Scenario.codes) noFlags
                            TaskStatus.OK [r; r'])))) = 2%nat
  /\ snd (requestLoop (codes := Scenario.codes) noFlags TaskStatus.OK
            [r; r'])
     = ScriptEnded.
Proof.
  intros r r'. split; [split; reflexivity|].
  destruct (dispatch_outcomes (codes := Scenario.codes) noFlags TaskStatus.OK
              r [r'] eq_refl eq_refl) as [Hrjt _].
  destruct Hrjt as [Hloop _].
  { exists 1%nat, (statusToMessage (codes := Scenario.codes)
                     TaskStatus.RequestJobTermination).
    split; [vm_compute; left; reflexivity|vm_compute; reflexivity]. }
  rewrite Hloop. vm_compute. repeat split.
Defined.



(** The same run when [performShutdown] throws what is no
    [Error::Exception]: the exception leaves [start], and the [Exit] of the
    request loop is the last status Task-0 is sent. *)
Lemma quick_exit_shutdown_escaping :
  let s :=
    mkStartup (Ok tt) (status_int (WireCodes := Scenario.codes) TaskStatus.OK)
      (Ok tt) [Ok tt; Ok tt] 2 (rounds Scenario.quickExitRun)
      (mkClosing noFlags 2 (lastMessages Scenario.closing)
         (Throw (StdException "bad_alloc"))) in
  let run := start (codes := Scenario.codes) noFlags s in
  snd run = Uncaught (StdException "bad_alloc")
  /\ sentToDistributor (fst run)
     = [TaskStatus.OK; TaskStatus.OK; TaskStatus.Exit]
  /\ List.last (fst run) Barrier = PerformShutdown.
Proof. vm_compute. repeat split. Qed.

End ReceiverFacts.

(** ** Lists *)

Module ListFacts.

(** Where an element [x] stands in a list that begins with elements among
    which [x] is not. *)
Lemma split_after {A : Type} (x : A) (a : list A) :
  forall ev pre post : list A,
    a ++ ev = pre ++ x :: post -> ~ In x a ->
    exists pre2 : list A, pre = a ++ pre2 /\ ev = pre2 ++ x :: post.
Proof.
  induction a as [|y a IH]; intros ev pre post Heq Hnot.
  - exists pre. split; [reflexivity|exact Heq].
  - destruct pre as [|z pre].
    + injection Heq as -> _. exfalso. apply Hnot. now left.
    + injection Heq as -> Heq.
      destruct (IH ev pre post Heq) as (pre2 & -> & Hev);
        [intros H; apply Hnot; now right|].
      exists pre2. split; [reflexivity|exact Hev].
Qed.

Lemma last_cons_default {A : Type} (l : list A) :
  forall a d : A, List.last (a :: l) d = List.last l a.
Proof.
  induction l as [|b l IH]; intros a d; [reflexivity|].
  change (List.last (b :: l) d = List.last (b :: l) a).
  rewrite !IH. reflexivity.
Qed.

End ListFacts.

(** ** Sequencing a [FileRecordStore] *)

Module FileRecordStoreFacts.
Import RecordStore FileRecordStore StoreDirectory.

Lemma seekPosition_at (es : list dirent) :
  forall i pos : Z,
    forallb statOk es = true ->
    0 <= i <= pos -> pos < 2 ^ 64 ->
    seekPosition es i pos
    = match List.filter isRecordFile es !! Z.to_nat (pos - i) with
      | Some e => Ok (Some e, pos)
      | None =>
          Ok (None, i + Z.of_nat (length (List.filter isRecordFile es)))
      end.
Proof.
  induction es as [|e es IH]; intros i pos Hstat Hi Hpos.
  - simpl. destruct (Z.to_nat (pos - i)); simpl; f_equal; f_equal; lia.
  - simpl in Hstat. apply andb_prop in Hstat as [He Hes].
    cbn [seekPosition List.filter]. unfold isRecordFile, statOk in *.
    destruct (d_ino e =? 0) eqn:Hino; [cbn [negb andb]; now apply IH|].
    cbn [negb andb orb] in *.
    destruct (st_mode e); [discriminate He|now apply IH|].
    destruct (Z.eqb_spec i pos) as [->|Hne].
    + rewrite Z.sub_diag. reflexivity.
    + assert (Hw : uint64_t (i + 1) = i + 1)
        by (unfold uint64_t, wrap; apply Z.mod_small; lia).
      rewrite Hw, IH by (auto; lia).
      replace (Z.to_nat (pos - i)) with (Datatypes.S (Z.to_nat (pos - (i + 1))))
        by lia.
      rewrite lookup_cons. cbn [length].
      destruct (_ !! _); [reflexivity|]. f_equal. f_equal. lia.
Qed.

(** The position a call of [i_sequence] starts from. *)
Lemma i_sequence_at (returnData : bool) (cur : SeqCursor) (fs : t)
    (p : Z) (e : dirent) :
  readable fs ->
  (forall v, cur <> SEQ_OTHER v) ->
  p = (if isStart (cursor fs) || isStart cur then 1 else _cursorPos fs) ->
  1 <= p <= count fs -> count fs + 1 < 2 ^ 64 ->
  recordFiles fs !! Z.to_nat (p - 1) = Some e ->
  i_sequence returnData cur fs
  = (recordAt returnData fs e, positioned fs (p + 1)).
Proof.
  intros [Hopen Hstat] Hcur Hp Hrange Hcount Hnth.
  assert (Hseek : seekPosition (theFiles fs) 1 p = Ok (Some e, p)).
  { rewrite seekPosition_at by (auto; lia).
    unfold recordFiles in Hnth. rewrite Hnth. reflexivity. }
  assert (Hw : uint64_t (p + 1) = p + 1)
    by (unfold uint64_t, wrap; apply Z.mod_small; lia).
  assert (Hlt1 : (count fs <? p) = false) by (apply Z.ltb_ge; lia).
  assert (Hlt2 : (p <? p) = false) by apply Z.ltb_irrefl.
  assert (Hend : forall fs0 : t,
             theFiles fs0 = theFiles fs -> opendirOk fs0 = opendirOk fs ->
             count fs0 = count fs -> _cursorPos fs0 = p ->
             (if count fs0 <? _cursorPos fs0
              then (Throw (ObjectDoesNotExist "No record at position"), fs0)
              else
                match seekPosition (theFiles fs0) 1 (_cursorPos fs0) with
                | Throw e0 => (Throw e0, fs0)
                | Ok (entry, i) =>
                    if _cursorPos fs0 <? i then
                      (Throw (StrategyError
                                "Record cursor position out of sync"), fs0)
                    else
                      match entry with
                      | None =>
                          (Throw (Crash "entry->d_name: entry is null"), fs0)
                      | Some e0 =>
                          let fs1 := setCursor fs0 BE_RECSTORE_SEQ_NEXT in
                          let fs2 := setCursorPos fs1 (uint64_t (i + 1)) in
                          if returnData then
                            match read fs2 (d_name e0) with
                            | Ok bytes =>
                                (Ok (mkRecord (d_name e0) bytes), fs2)
                            | Throw ex => (Throw ex, fs2)
                            end
                          else (Ok (mkRecord (d_name e0) []), fs2)
                      end
                end)
             = (recordAt returnData fs e, positioned fs (p + 1))).
  { intros fs0 Hf Ho Hc Hpos. rewrite Hf, Hc, Hpos, Hlt1, Hseek, Hlt2, Hw.
    cbv zeta. unfold recordAt, positioned, setCursor, setCursorPos, read.
    cbn [opendirOk theFiles _cursorPos cursor count]. rewrite Hf, Ho, Hc.
    destruct returnData; [|reflexivity].
    destruct (negb (validateKeyString (d_name e))); [reflexivity|].
    destruct (List.find _ (theFiles fs)) as [e'|]; [|reflexivity].
    destruct (content e'); reflexivity. }
  unfold i_sequence.
  destruct cur as [| |v]; [| |exfalso; exact (Hcur v eq_refl)];
    rewrite Hopen; cbn [negb];
    destruct (isStart (cursor fs) || _); apply Hend; try reflexivity;
    symmetry; exact Hp.
Qed.

Lemma readable_positioned (fs : t) (p : Z) :
  readable fs -> readable (positioned fs p).
Proof. intros H. exact H. Qed.

Lemma sequenceN_app (a b : nat) :
  forall fs : t,
    sequenceN (a + b) fs
    = let '(r1, fs1) := sequenceN a fs in
      let '(r2, fs2) := sequenceN b fs1 in
      (r1 ++ r2, fs2).
Proof.
  induction a as [|a IH]; intros fs.
  - simpl. destruct (sequenceN b fs). reflexivity.
  - cbn [Nat.add sequenceN]. destruct (sequence fs) as [r fs1].
    rewrite IH. destruct (sequenceN a fs1) as [r1 fs2].
    destruct (sequenceN b fs2). reflexivity.
Qed.

(** Successive calls from the position [p] on return the record files
    from the [p]-th on, in the order of the directory. *)
Lemma sequenceN_from (k : nat) :
  forall (fs : t) (p : Z),
    readable fs -> count fs + 1 < 2 ^ 64 ->
    p = (if isStart (cursor fs) then 1 else _cursorPos fs) ->
    1 <= p ->
    p - 1 + Z.of_nat k <= Z.of_nat (length (recordFiles fs)) ->
    p - 1 + Z.of_nat k <= count fs ->
    sequenceN k fs
    = (map (recordAt true fs)
         (take k (drop (Z.to_nat (p - 1)) (recordFiles fs))),
       if (k =? 0)%nat then fs else positioned fs (p + Z.of_nat k)).
Proof.
  induction k as [|k IH]; intros fs p Hread Hcount Hp H1 Hfiles Hcnt.
  - reflexivity.
  - cbn [sequenceN Nat.eqb].
    destruct (recordFiles fs !! Z.to_nat (p - 1)) as [e|] eqn:Hnth;
      [|apply lookup_ge_None in Hnth; exfalso; lia].
    unfold sequence.
    rewrite (i_sequence_at true BE_RECSTORE_SEQ_NEXT fs p e);
      try assumption; try lia; try discriminate;
      [|rewrite orb_false_r; exact Hp].
    assert (Hnext : sequenceN k (positioned fs (p + 1))
                    = (map (recordAt true (positioned fs (p + 1)))
                         (take k (drop (Z.to_nat (p + 1 - 1))
                                    (recordFiles (positioned fs (p + 1))))),
                       if (k =? 0)%nat then positioned fs (p + 1)
                       else positioned (positioned fs (p + 1))
                              (p + 1 + Z.of_nat k))).
    { apply IH.
      - exact Hread.
      - exact Hcount.
      - reflexivity.
      - lia.
      - change (recordFiles (positioned fs (p + 1))) with (recordFiles fs).
        lia.
      - change (count (positioned fs (p + 1))) with (count fs). lia. }
    rewrite Hnext.
    change (recordAt true (positioned fs (p + 1))) with (recordAt true fs).
    change (recordFiles (positioned fs (p + 1))) with (recordFiles fs).
    replace (Z.to_nat (p + 1 - 1)) with (Datatypes.S (Z.to_nat (p - 1)))
      by lia.
    f_equal.
    + rewrite (drop_S (recordFiles fs) e (Z.to_nat (p - 1)) Hnth).
      reflexivity.
    + destruct k; [cbn [Nat.eqb]; f_equal; lia|].
      cbn [Nat.eqb]. unfold positioned. cbn [opendirOk theFiles count].
      f_equal. lia.
Qed.

(** A store whose cursor is past the last record. *)
Lemma sequenceN_exhausted (k : nat) :
  forall fs : t,
    opendirOk fs = true ->
    count fs < (if isStart (cursor fs) then 1 else _cursorPos fs) ->
    fst (sequenceN k fs)
    = repeat (Throw (ObjectDoesNotExist "No record at position")) k.
Proof.
  induction k as [|k IH]; intros fs Hopen Hpast; [reflexivity|].
  cbn [sequenceN repeat]. unfold sequence, i_sequence. rewrite Hopen.
  cbn [negb]. rewrite orb_false_r.
  destruct (isStart (cursor fs)) eqn:Hs.
  - cbn [setCursorPos count _cursorPos].
    destruct (Z.ltb_spec (count fs) 1) as [_|Hge]; [|lia].
    specialize (IH (setCursorPos fs 1) Hopen).
    cbn [setCursorPos cursor count _cursorPos] in IH. rewrite Hs in IH.
    specialize (IH Hpast).
    destruct (sequenceN k (setCursorPos fs 1)) as [rs fs2].
    cbn [fst] in *. rewrite IH. reflexivity.
  - destruct (Z.ltb_spec (count fs) (_cursorPos fs)) as [_|Hge]; [|lia].
    specialize (IH fs Hopen). rewrite Hs in IH. specialize (IH Hpast).
    destruct (sequenceN k fs) as [rs fs2]. cbn [fst] in *.
    rewrite IH. reflexivity.
Qed.

(** X1.  Sequencing a store that is in order, from its first call of
    [sequence()] on: the record files come in the order of the directory, each
    once, with the data [read] gives for it; every call after the last record
    throws [ObjectDoesNotExist]; and a call that passes
    [BE_RECSTORE_SEQ_START] then begins again at the first record. *)
Theorem sequence_enumerates (fs : t) (k : nat) :
  inOrder fs ->
  isStart (cursor fs) = true ->
  let n := length (recordFiles fs) in
  fst (sequenceN (n + k) fs)
  = map (recordAt true fs) (recordFiles fs)
      ++ repeat (Throw (ObjectDoesNotExist "No record at position")) k
  /\ forall (e : dirent) (rest : list dirent),
       recordFiles fs = e :: rest ->
       fst (i_sequence true BE_RECSTORE_SEQ_START (snd (sequenceN n fs)))
       = recordAt true fs e.
Proof.
  intros (Hread & Hcnt & Hbound) Hstart n.
  assert (Hn : sequenceN n fs
               = (map (recordAt true fs) (recordFiles fs),
                  if (n =? 0)%nat then fs
                  else positioned fs (1 + Z.of_nat n))).
  { pose proof (sequenceN_from n fs 1 Hread Hbound) as H.
    rewrite Hstart in H.
    rewrite H by (try reflexivity; unfold n; lia).
    change (Z.to_nat (1 - 1)) with 0%nat. rewrite drop_0.
    unfold n. rewrite firstn_all. reflexivity. }
  split.
  - rewrite sequenceN_app, Hn.
    pose proof (sequenceN_exhausted k
                  (if (n =? 0)%nat then fs
                   else positioned fs (1 + Z.of_nat n))) as Hk.
    destruct (sequenceN k _) as [r2 fs2]. cbn [fst] in *.
    rewrite Hk; [reflexivity|destruct (n =? 0)%nat; apply Hread|].
    destruct (Nat.eqb_spec n 0) as [E|E].
    + rewrite Hstart. unfold n in E. lia.
    + cbn [positioned cursor isStart _cursorPos count]. unfold n. lia.
  - intros e rest Hfiles. rewrite Hn.
    assert (Hpos : (n =? 0)%nat = false)
      by (apply Nat.eqb_neq; unfold n; rewrite Hfiles; discriminate).
    rewrite Hpos.
    apply (f_equal fst
             (i_sequence_at true BE_RECSTORE_SEQ_START
                (positioned fs (1 + Z.of_nat n)) 1 e Hread
                ltac:(discriminate) eq_refl
                ltac:(cbn [positioned count]; rewrite Hcnt, Hfiles;
                      simpl length; lia)
                Hbound
                ltac:(change (recordFiles (positioned fs (1 + Z.of_nat n)))
                        with (recordFiles fs);
                      rewrite Hfiles; reflexivity))).
Qed.

Lemma int32_t_small (z : Z) : - 2 ^ 31 <= z < 2 ^ 31 -> int32_t z = z.
Proof.
  intros H. unfold int32_t, wrap. cbv zeta.
  destruct (Z.ltb_spec (z mod 2 ^ 32) (2 ^ 31)) as [Hlt|Hge].
  - destruct (Z.neg_nonneg_cases z) as [Hneg|Hpos];
      [|apply Z.mod_small; lia].
    rewrite <- (Z_mod_plus_full z 1 (2 ^ 32)) in Hlt.
    rewrite Z.mod_small in Hlt by lia. lia.
  - destruct (Z.neg_nonneg_cases z) as [Hneg|Hpos];
      [|rewrite Z.mod_small in Hge by lia; lia].
    rewrite <- (Z_mod_plus_full z 1 (2 ^ 32)).
    rewrite Z.mod_small by lia. lia.
Qed.

Lemma seekKey_found (k : string) (es : list dirent) :
  forall (i : Z) (before : list dirent) (e : dirent) (after : list dirent),
    forallb statOk es = true ->
    List.filter isRecordFile es = before ++ e :: after ->
    d_name e = k -> ~ In k (map d_name before) ->
    - 2 ^ 31 <= i -> i + Z.of_nat (length before) < 2 ^ 31 ->
    seekKey es i k = Ok (Some (i + Z.of_nat (length before))).
Proof.
  induction es as [|x es IH];
    intros i before e after Hstat Hf Hk Hnew Hlo Hhi.
  - destruct before; discriminate Hf.
  - simpl in Hstat. apply andb_prop in Hstat as [Hx Hes].
    cbn [seekKey List.filter] in *. unfold isRecordFile, statOk in *.
    destruct (d_ino x =? 0) eqn:Hino;
      [cbn [negb andb] in Hf; now apply (IH i before e after)|].
    cbn [negb andb orb] in *.
    destruct (st_mode x); [discriminate Hx|now apply (IH i before e after)|].
    destruct before as [|b before].
    + injection Hf as -> _. rewrite Hk, String.eqb_refl.
      f_equal. f_equal. simpl. lia.
    + injection Hf as -> Hf. cbn [length] in Hhi.
      destruct (String.eqb_spec k (d_name b)) as [E|_];
        [exfalso; apply Hnew; left; now symmetry|].
      rewrite int32_t_small by lia.
      rewrite (IH (i + 1) before e after) by
        (auto; try lia; intros H; apply Hnew; now right).
      f_equal. f_equal. simpl length. lia.
Qed.

Lemma seekKey_missing (k : string) (es : list dirent) :
  forall i : Z,
    forallb statOk es = true ->
    ~ In k (map d_name (List.filter isRecordFile es)) ->
    seekKey es i k = Ok None.
Proof.
  induction es as [|x es IH]; intros i Hstat Hnew; [reflexivity|].
  simpl in Hstat. apply andb_prop in Hstat as [Hx Hes].
  cbn [seekKey List.filter] in *. unfold isRecordFile, statOk in *.
  destruct (d_ino x =? 0) eqn:Hino; [cbn [negb andb] in Hnew; now apply IH|].
  cbn [negb andb orb] in *.
  destruct (st_mode x); [discriminate Hx|now apply IH|].
  destruct (String.eqb_spec k (d_name x)) as [E|_];
    [exfalso; apply Hnew; left; now symmetry|].
  apply IH; [exact Hes|]. intros H. apply Hnew. now right.
Qed.

(** X2.  On a store whose sequencing has begun, [setCursorAtKey(key)] followed
    by [sequence()] returns the record of that key, with the data [read] gives
    for it, and leaves the cursor at the record after it. *)
Theorem setCursorAtKey_then_sequence (fs : t) (k : string)
    (before : list dirent) (e : dirent) (after : list dirent) :
  readable fs ->
  cursor fs = BE_RECSTORE_SEQ_NEXT ->
  validateKeyString k = true ->
  recordFiles fs = before ++ e :: after ->
  d_name e = k -> ~ In k (map d_name before) ->
  Z.of_nat (length before) + 1 < 2 ^ 31 ->
  Z.of_nat (length before) < count fs -> count fs + 1 < 2 ^ 64 ->
  let p := Z.of_nat (length before) + 1 in
  setCursorAtKey k fs = (Ok tt, setCursorPos fs p)
  /\ sequence (setCursorPos fs p)
     = (match read fs k with
        | Ok bytes => Ok (mkRecord k bytes)
        | Throw ex => Throw ex
        end, positioned fs (p + 1)).
Proof.
  intros Hread Hcur Hvalid Hfiles Hk Hnew Hint Hcount Hbound p.
  assert (Hset : setCursorAtKey k fs = (Ok tt, setCursorPos fs p)).
  { unfold setCursorAtKey. rewrite Hvalid. destruct Hread as [-> Hstat].
    cbn [negb].
    rewrite (seekKey_found k (theFiles fs) 1 before e after Hstat Hfiles
               Hk Hnew) by lia.
    unfold p. do 2 f_equal. unfold uint64_t, wrap.
    rewrite Z.mod_small by lia. lia. }
  split; [exact Hset|].
  assert (Hat : recordAt true fs e
                = match read fs k with
                  | Ok bytes => Ok (mkRecord k bytes)
                  | Throw ex => Throw ex
                  end) by (unfold recordAt; rewrite Hk; reflexivity).
  rewrite <- Hat. unfold sequence.
  apply (i_sequence_at true BE_RECSTORE_SEQ_NEXT (setCursorPos fs p) p e).
  - exact Hread.
  - discriminate.
  - cbn [setCursorPos cursor _cursorPos]. rewrite Hcur. reflexivity.
  - cbn [setCursorPos count]. unfold p. lia.
  - exact Hbound.
  - change (recordFiles (setCursorPos fs p)) with (recordFiles fs).
    rewrite Hfiles. unfold p.
    replace (Z.to_nat (Z.of_nat (length before) + 1 - 1))
      with (length before) by lia.
    apply list_lookup_middle. reflexivity.
Qed.

(** X3.  On a store that has not been sequenced yet ([getCursor()] is still
    [BE_RECSTORE_SEQ_START]) the position [setCursorAtKey] sets is lost: the
    next [sequence()] puts [_cursorPos] back to 1 and returns the first
    record, whatever the key was. *)
Theorem setCursorAtKey_before_first_sequence (fs fs' : t) (k : string)
    (e : dirent) (rest : list dirent) :
  readable fs ->
  cursor fs = BE_RECSTORE_SEQ_START ->
  setCursorAtKey k fs = (Ok tt, fs') ->
  recordFiles fs = e :: rest ->
  1 <= count fs -> count fs + 1 < 2 ^ 64 ->
  sequence fs' = (recordAt true fs e, positioned fs 2).
Proof.
  intros Hread Hcur Hset Hfiles Hcount Hbound.
  assert (Hfs' : exists i, fs' = setCursorPos fs i).
  { unfold setCursorAtKey in Hset.
    destruct (negb (validateKeyString k)); [discriminate|].
    destruct (negb (opendirOk fs)); [discriminate|].
    destruct (seekKey (theFiles fs) 1 k) as [[i|]|ex]; try discriminate.
    exists (uint64_t i). now inversion Hset. }
  destruct Hfs' as [i ->]. unfold sequence.
  apply (i_sequence_at true BE_RECSTORE_SEQ_NEXT (setCursorPos fs i) 1 e).
  - exact Hread.
  - discriminate.
  - cbn [setCursorPos cursor]. rewrite Hcur. reflexivity.
  - cbn [setCursorPos count]. lia.
  - exact Hbound.
  - change (recordFiles (setCursorPos fs i)) with (recordFiles fs).
    rewrite Hfiles. reflexivity.
Qed.

(** X4.  [setCursorAtKey] with a key that is not well formed, or that names no
    record file of the directory, throws and leaves the store as it was: the
    next [sequence()] goes on from where the cursor stood. *)
Theorem setCursorAtKey_missing (fs : t) (k : string) :
  (validateKeyString k = false ->
   setCursorAtKey k fs = (Throw (StrategyError "Invalid key format"), fs))
  /\ (validateKeyString k = true -> readable fs ->
      ~ In k (map d_name (recordFiles fs)) ->
      setCursorAtKey k fs = (Throw (ObjectDoesNotExist k), fs)).
Proof.
  unfold setCursorAtKey. split.
  - intros ->. reflexivity.
  - intros -> [-> Hstat] Hnew. cbn [negb].
    rewrite (seekKey_missing k (theFiles fs) 1 Hstat Hnew). reflexivity.
Qed.

(** X5.  [sequence()] is [sequenceKey()] followed by [read()] of the key: the
    same key, the data [read] gives, the same cursor afterwards.  When the
    read throws, [sequence()] throws, and the cursor has moved on all the
    same: the next call is about the next record. *)
Theorem sequence_key_then_read (fs : t) :
  sequence fs
  = match sequenceKey fs with
    | (Ok k, fs') =>
        (match read fs k with
         | Ok bytes => Ok (mkRecord k bytes)
         | Throw ex => Throw ex
         end, fs')
    | (Throw ex, fs') => (Throw ex, fs')
    end.
Proof.
  unfold sequence, sequenceKey, i_sequence.
  destruct (negb (opendirOk fs)); [reflexivity|].
  destruct (isStart (cursor fs) || _);
    match goal with
    | |- context [count ?f <? _cursorPos ?f] =>
        destruct (count f <? _cursorPos f); [reflexivity|];
        destruct (seekPosition (theFiles f) 1 (_cursorPos f))
          as [[[e|] i]|ex]; try reflexivity;
        destruct (_cursorPos f <? i); try reflexivity
    end;
    unfold read; cbn [setCursor setCursorPos theFiles key];
    destruct (negb (validateKeyString (d_name e))); try reflexivity;
    destruct (List.find _ _) as [e'|]; try reflexivity;
    destruct (content e'); reflexivity.
Qed.

(** X6.  When the directory holds fewer record files than the store counts (a
    file removed behind its back), sequencing past the last file that is there
    finds [readdir] at its end and dereferences the null entry: no exception
    is thrown for the caller to catch. *)
Theorem sequence_beyond_directory (fs : t) :
  readable fs ->
  cursor fs = BE_RECSTORE_SEQ_NEXT ->
  _cursorPos fs = Z.of_nat (length (recordFiles fs)) + 1 ->
  _cursorPos fs <= count fs -> count fs < 2 ^ 64 ->
  sequence fs = (Throw (Crash "entry->d_name: entry is null"), fs).
Proof.
  intros [Hopen Hstat] Hcur Hpos Hcount Hbound.
  unfold sequence, i_sequence. rewrite Hopen, Hcur. cbn [negb isStart orb].
  destruct (Z.ltb_spec (count fs) (_cursorPos fs)) as [Hlt|_]; [lia|].
  rewrite seekPosition_at by (auto; lia).
  rewrite (proj2 (lookup_ge_None _ _)) by (unfold recordFiles in Hpos; lia).
  unfold recordFiles in Hpos.
  destruct (Z.ltb_spec (_cursorPos fs)
              (1 + Z.of_nat (length (List.filter isRecordFile (theFiles fs)))))
    as [Hlt|_]; [lia|reflexivity].
Qed.

(** *** The ten records *)

Lemma tenRecords_inOrder : inOrder Scenario.tenRecords.
Proof.
  split; [split; reflexivity|]. split; reflexivity.
Qed.

Lemma sequence_enumerates_witness :
  map (fun r => match r with
                | Ok rec => key rec
                | Throw _ => ""%string
                end)
    (fst (sequenceN 11 Scenario.tenRecords))
  = ["k0"; "k1"; "k2"; "k3"; "k4"; "k5"; "k6"; "k7"; "k8"; "k9"; ""]%string
  /\ List.last (fst (sequenceN 11 Scenario.tenRecords)) (Ok (mkRecord "" []))
     = Throw (ObjectDoesNotExist "No record at position").
Proof.
  destruct (sequence_enumerates Scenario.tenRecords 1 tenRecords_inOrder
              eq_refl) as [Hseq _].
  change (length (recordFiles Scenario.tenRecords) + 1)%nat with 11%nat
    in Hseq.
  rewrite Hseq. split; reflexivity.
Defined.

Lemma setCursorAtKey_then_sequence_witness :
  let fs := Scenario.tenRecordsInUse in
  (cursor fs = BE_RECSTORE_SEQ_NEXT /\ validateKeyString "k3" = true)
  /\ fst (sequence (snd (setCursorAtKey "k3" fs)))
     = Ok (mkRecord "k3" [x01])
  /\ _cursorPos (snd (sequence (snd (setCursorAtKey "k3" fs)))) = 5.
Proof.
  intros fs. split; [split; reflexivity|].
  destruct (setCursorAtKey_then_sequence fs "k3"
              (map Scenario.recordFile ["k0"; "k1"; "k2"]%string)
              (Scenario.recordFile "k3")
              (map Scenario.recordFile
                 ["k4"; "k5"; "k6"; "k7"; "k8"; "k9"]%string))
    as [Hset Hseq]; try reflexivity.
  - split; reflexivity.
  - simpl. intros H; intuition discriminate.
  - rewrite Hset. cbn [snd]. rewrite Hseq. split; reflexivity.
Defined.

Lemma setCursorAtKey_before_first_sequence_witness :
  let fs := Scenario.tenRecords in
  cursor fs = BE_RECSTORE_SEQ_START
  /\ fst (setCursorAtKey "k7" fs) = Ok tt
  /\ fst (sequence (snd (setCursorAtKey "k7" fs))) = Ok (mkRecord "k0" [x01]).
Proof.
  intros fs. split; [reflexivity|]. split; [reflexivity|].
  rewrite (setCursorAtKey_before_first_sequence fs
             (snd (setCursorAtKey "k7" fs)) "k7"
             (Scenario.recordFile "k0")
             (map Scenario.recordFile
                ["k1"; "k2"; "k3"; "k4"; "k5"; "k6"; "k7"; "k8";
                 "k9"]%string));
    try reflexivity.
  - split; reflexivity.
  - discriminate.
Defined.

Lemma setCursorAtKey_missing_witness :
  setCursorAtKey "a/b" Scenario.tenRecords
  = (Throw (StrategyError "Invalid key format"), Scenario.tenRecords)
  /\ setCursorAtKey ".." Scenario.tenRecords
     = (Throw (ObjectDoesNotExist ".."), Scenario.tenRecords).
Proof.
  destruct (setCursorAtKey_missing Scenario.tenRecords "a/b") as [H1 _].
  destruct (setCursorAtKey_missing Scenario.tenRecords "..") as [_ H2].
  split; [apply H1; reflexivity|]. apply H2; [reflexivity| |].
  - split; reflexivity.
  - simpl. intros H; intuition discriminate.
Defined.

Lemma sequence_beyond_directory_witness :
  let fs :=
    FileRecordStore.mk true (theFiles Scenario.tenRecords) 11
      BE_RECSTORE_SEQ_NEXT 11 in
  (length (recordFiles fs) = 10%nat /\ count fs = 11)
  /\ sequence fs = (Throw (Crash "entry->d_name: entry is null"), fs).
Proof.
  intros fs. split; [split; reflexivity|].
  apply sequence_beyond_directory; try reflexivity.
  split; reflexivity.
Defined.

End FileRecordStoreFacts.

(** ** Checkpoint restore *)

Module CheckpointFacts.
Import RecordStore RecordStoreDistributor StoreDirectory.
Import DistributorFacts FileRecordStoreFacts.

Section WithStore.
Context {S : Type} {store : Store S}.

(** A successful restore, step by step. *)
Lemma checkpointRestore_ok (d d1 : t (S := S)) :
  checkpointRestore d = (Ok tt, d1) ->
  exists (lastKey reason : string) (numKeys : Z) (rs1 rs2 : S) (rec : record),
    PropertiesFile.getProperty (checkpointData d) CHECKPOINTLASTKEY
    = Ok lastKey
    /\ setCursorAtKey lastKey (recordStore d) = (Ok tt, rs1)
    /\ sequence rs1 = (Ok rec, rs2)
    /\ PropertiesFile.getPropertyAsInteger (checkpointData d)
         CHECKPOINTNUMKEYS = Ok numKeys
    /\ PropertiesFile.getProperty (checkpointData d) CHECKPOINTREASON
       = Ok reason
    /\ d1 = writeDebug
              (setRecordsRemaining (setRecordStore d rs2)
                 (uint64_t (_recordsRemaining d - numKeys)))
              ("Checkpoint restore: " +:+ reason)%string.
Proof.
  unfold checkpointRestore, rethrow. intros H.
  destruct (PropertiesFile.getProperty (checkpointData d) CHECKPOINTLASTKEY)
    as [lastKey|e] eqn:H1; [|discriminate].
  destruct (setCursorAtKey lastKey (recordStore d)) as [[[]|e] rs1] eqn:H2;
    [|discriminate].
  destruct (sequence rs1) as [[rec|e] rs2] eqn:H3; [|discriminate].
  cbn [checkpointData setRecordStore] in H.
  destruct (PropertiesFile.getPropertyAsInteger (checkpointData d)
              CHECKPOINTNUMKEYS) as [numKeys|e] eqn:H4; [|discriminate].
  destruct (PropertiesFile.getProperty (checkpointData d) CHECKPOINTREASON)
    as [reason|e] eqn:H5; [|discriminate].
  inversion H; subst.
  exists lastKey, reason, numKeys, rs1, rs2, rec. repeat split; auto.
Qed.

End WithStore.

#[local] Existing Instance FileRecordStore.store.

(** Where [setCursorAtKey] puts [_cursorPos]: at the first record file of
    that name. *)
Lemma setCursorAtKey_at (fs : FileRecordStore.t) (k : string)
    (before : list FileRecordStore.dirent) (e : FileRecordStore.dirent)
    (after : list FileRecordStore.dirent) :
  readable fs ->
  validateKeyString k = true ->
  recordFiles fs = before ++ e :: after ->
  FileRecordStore.d_name e = k ->
  ~ In k (map FileRecordStore.d_name before) ->
  Z.of_nat (length before) + 1 < 2 ^ 31 ->
  FileRecordStore.setCursorAtKey k fs
  = (Ok tt, FileRecordStore.setCursorPos fs (Z.of_nat (length before) + 1)).
Proof.
  intros [Hopen Hstat] Hvalid Hfiles Hk Hnew Hint.
  unfold FileRecordStore.setCursorAtKey. rewrite Hvalid, Hopen. cbn [negb].
  rewrite (seekKey_found k (FileRecordStore.theFiles fs) 1 before e after
             Hstat Hfiles Hk Hnew) by lia.
  do 2 f_equal. unfold uint64_t, wrap. rewrite Z.mod_small by lia. lia.
Qed.

(** The [sequence()] of a restore, after [setCursorAtKey] has put
    [_cursorPos] at [p]: on a store that has been sequenced it returns the
    record at [p]; on a store that has not, the first record. *)
Lemma sequence_after_setCursorAtKey (fs : FileRecordStore.t) (p q : Z)
    (e : FileRecordStore.dirent) :
  inOrder fs ->
  q = (if isStart (FileRecordStore.cursor fs) then 1 else p) ->
  1 <= q <= FileRecordStore.count fs ->
  recordFiles fs !! Z.to_nat (q - 1) = Some e ->
  FileRecordStore.sequence (FileRecordStore.setCursorPos fs p)
  = (recordAt true fs e, positioned fs (q + 1)).
Proof.
  intros (Hread & Hcnt & Hbound) Hq Hrange Hnth.
  unfold FileRecordStore.sequence.
  apply (i_sequence_at true BE_RECSTORE_SEQ_NEXT
           (FileRecordStore.setCursorPos fs p) q e).
  - exact Hread.
  - discriminate.
  - cbn [FileRecordStore.setCursorPos FileRecordStore.cursor
           FileRecordStore._cursorPos]. rewrite orb_false_r. exact Hq.
  - exact Hrange.
  - exact Hbound.
  - exact Hnth.
Qed.

(** C5, as the code has it.  After a second [checkpointRestore] from the
    same checkpoint data the cursor of the record store stands one past
    the checkpoint's last key, which is where the first restore leaves the
    cursor of a store that has been sequenced before; each restore takes
    the checkpoint's [Num Keys] off the remaining counter (modulo 2^64), so
    the counter is not what it was after the first. *)
Theorem checkpointRestore_twice (d d1 : t (S := FileRecordStore.t))
    (lastKey : string) (before : list FileRecordStore.dirent)
    (e : FileRecordStore.dirent) (after : list FileRecordStore.dirent) :
  let fs := recordStore d in
  let p := Z.of_nat (length before) + 1 in
  checkpointRestore d = (Ok tt, d1) ->
  PropertiesFile.getProperty (checkpointData d) CHECKPOINTLASTKEY
  = Ok lastKey ->
  inOrder fs ->
  recordFiles fs = before ++ e :: after ->
  FileRecordStore.d_name e = lastKey ->
  ~ In lastKey (map FileRecordStore.d_name before) ->
  p < 2 ^ 31 ->
  isOk (FileRecordStore.read fs lastKey) = true ->
  exists (numKeys : Z) (d2 : t (S := FileRecordStore.t)),
    PropertiesFile.getPropertyAsInteger (checkpointData d)
      CHECKPOINTNUMKEYS = Ok numKeys
    /\ checkpointRestore d1 = (Ok tt, d2)
    /\ recordStore d2 = positioned fs (p + 1)
    /\ (isStart (FileRecordStore.cursor fs) = false ->
        recordStore d1 = recordStore d2)
    /\ _recordsRemaining d1 = uint64_t (_recordsRemaining d - numKeys)
    /\ _recordsRemaining d2 = uint64_t (_recordsRemaining d1 - numKeys).
Proof.
  intros fs p Hrestore Hkey Hord Hfiles Hname Hnew Hint Hdata.
  pose proof Hord as (Hread & Hcnt & Hbound).
  destruct (checkpointRestore_ok d d1 Hrestore)
    as (lastKey' & reason & numKeys & rs1 & rs2 & rec
        & H1 & H2 & H3 & H4 & H5 & Hd1).
  rewrite Hkey in H1. injection H1 as <-.
  cbn [setCursorAtKey sequence FileRecordStore.store] in H2, H3.
  fold fs in H2.
  assert (Hvalid : validateKeyString lastKey = true).
  { unfold FileRecordStore.setCursorAtKey in H2.
    destruct (validateKeyString lastKey); [reflexivity|discriminate]. }
  assert (Hlen : p <= FileRecordStore.count fs).
  { rewrite Hcnt, Hfiles, length_app. cbn [length]. unfold p. lia. }
  assert (Hat : recordFiles fs !! Z.to_nat (p - 1) = Some e).
  { rewrite Hfiles. unfold p.
    replace (Z.to_nat (Z.of_nat (length before) + 1 - 1))
      with (length before) by lia.
    apply list_lookup_middle. reflexivity. }
  rewrite (setCursorAtKey_at fs lastKey before e after Hread Hvalid Hfiles
             Hname Hnew Hint) in H2.
  injection H2 as <-. fold p in H3.
  assert (Hrs2 : exists q : Z,
             rs2 = positioned fs q
             /\ (isStart (FileRecordStore.cursor fs) = false -> q = p + 1)).
  { destruct (isStart (FileRecordStore.cursor fs)) eqn:Hstart.
    - destruct (recordFiles fs !! Z.to_nat (1 - 1)) as [e0|] eqn:H0;
        [|rewrite Hfiles in H0; destruct before; discriminate H0].
      rewrite (sequence_after_setCursorAtKey fs p 1 e0 Hord) in H3;
        [|rewrite Hstart; reflexivity|unfold p in Hlen; lia|exact H0].
      exists (1 + 1). split; [now inversion H3|discriminate].
    - rewrite (sequence_after_setCursorAtKey fs p p e Hord) in H3;
        [|rewrite Hstart; reflexivity|unfold p in *; lia|exact Hat].
      exists (p + 1). split; [now inversion H3|reflexivity]. }
  destruct Hrs2 as (q & -> & Hq).
  assert (Hrec : exists rec' : record, recordAt true fs e = Ok rec').
  { unfold recordAt. rewrite Hname.
    destruct (FileRecordStore.read fs lastKey) as [bytes|ex];
      [eexists; reflexivity|discriminate Hdata]. }
  destruct Hrec as [rec' Hrec].
  assert (Hsecond :
            FileRecordStore.sequence
              (FileRecordStore.setCursorPos (positioned fs q) p)
            = (Ok rec', positioned fs (p + 1))).
  { rewrite <- Hrec.
    apply (sequence_after_setCursorAtKey (positioned fs q) p p e).
    - exact Hord.
    - reflexivity.
    - unfold p in *. cbn [positioned FileRecordStore.count]. lia.
    - exact Hat. }
  exists numKeys. eexists. split; [exact H4|].
  subst d1. unfold checkpointRestore.
  cbn [checkpointData recordStore writeDebug setRecordsRemaining
         setRecordStore _recordsRemaining].
  rewrite Hkey. cbn [setCursorAtKey sequence FileRecordStore.store].
  rewrite (setCursorAtKey_at (positioned fs q) lastKey before e after Hread
             Hvalid Hfiles Hname Hnew Hint).
  fold p. rewrite Hsecond, H4, H5.
  cbn [checkpointData recordStore writeDebug setRecordsRemaining
         setRecordStore _recordsRemaining].
  split; [reflexivity|]. split; [reflexivity|].
  split; [intros Hs; rewrite (Hq Hs); reflexivity|].
  split; reflexivity.
Qed.


(** C5, as stated, fails on the counter: the second restore from the same
    checkpoint takes [Num Keys] off the remaining count a second time. *)
Lemma second_restore_subtracts_again :
  let once := checkpointRestore Scenario.resumingDistributor in
  let twice := checkpointRestore (snd once) in
  fst once = Ok tt /\ fst twice = Ok tt
  /\ checkpointData (snd once) = checkpointData Scenario.resumingDistributor
  /\ _recordsRemaining (snd once) = 2
  /\ _recordsRemaining (snd twice) = 2 ^ 64 - 6
  /\ _recordsRemaining (snd twice) <> _recordsRemaining (snd once).
Proof.
  vm_compute. repeat split; discriminate.
Qed.

Lemma checkpointRestore_twice_witness :
  let d := Scenario.resumingDistributor in
  let d1 := snd (checkpointRestore d) in
  let d2 := snd (checkpointRestore d1) in
  checkpointRestore d = (Ok tt, d1)
  /\ checkpointRestore d1 = (Ok tt, d2)
  /\ recordStore d2 = positioned Scenario.tenRecords 9
  /\ _recordsRemaining d1 = uint64_t (_recordsRemaining d - 8)
  /\ _recordsRemaining d2 = uint64_t (_recordsRemaining d1 - 8).
Proof.
  intros d d1 d2.
  assert (H1 : checkpointRestore d = (Ok tt, d1))
    by (vm_compute; reflexivity).
  assert (Hnew : ~ In "k7"%string
                   (map FileRecordStore.d_name
                      (map Scenario.recordFile
                         ["k0"; "k1"; "k2"; "k3"; "k4"; "k5";
                          "k6"]%string)))
    by (simpl; intros H; intuition discriminate).
  destruct (checkpointRestore_twice d d1 "k7"
              (map Scenario.recordFile
                 ["k0"; "k1"; "k2"; "k3"; "k4"; "k5"; "k6"]%string)
              (Scenario.recordFile "k7")
              (map Scenario.recordFile ["k8"; "k9"]%string)
              H1 eq_refl tenRecords_inOrder eq_refl eq_refl Hnew
              eq_refl eq_refl)
    as (numKeys & d2' & Hn & Hr & Hs & _ & Hr1 & Hr2).
  vm_compute in Hn. inversion Hn; subst numKeys.
  assert (Hd2 : d2' = d2) by (unfold d2; rewrite Hr; reflexivity).
  subst d2'.
  split; [exact H1|]. split; [exact Hr|]. split; [exact Hs|].
  split; assumption.
Defined.


End CheckpointFacts.

(** ** What a call pulls and packs *)

Module PullingFacts.
Import RecordStore RecordStoreDistributor Pulling PayloadFacts DistributorFacts.
Import ListFacts.

Section WithStore.
Context {alloc : Allocator} {S : Type} {store : Store S}.

(** What the loop does to [_lastDistributedKey] and to [record]. *)
Lemma fillLoop_keys (iv : bool) (n : nat) :
  forall (f f' : Filling (S := S)) (r : result unit),
    fillLoop iv n f = (r, f') ->
    exists os : list (result record),
      f_events f' = f_events f ++ map Pull os
      /\ f_lastKey f'
         = List.last (map key (goodRecords os)) (f_lastKey f)
      /\ (iv = false -> data (f_record f) = [] ->
          Forall (fun rec => data rec = []) (goodRecords os)).
Proof.
  induction n as [|n IH]; intros f f' r Hrun.
  - simpl in Hrun. inversion Hrun; subst. exists [].
    simpl. rewrite app_nil_r. repeat split; auto.
  - simpl in Hrun. unfold fillOne in Hrun.
    destruct (pull iv (f_record f) (f_store f)) as [o rs'] eqn:Hpull.
    destruct o as [rec|e].
    + destruct (Payload.fillBufferWithKeyAndValue (f_packageData f)
                  (key rec) (data rec) (f_index f)) as [buf index].
      apply IH in Hrun. destruct Hrun as (os & Hev & Hlast & Hdata).
      cbn [f_events f_lastKey f_record] in *.
      exists (Ok rec :: os). split; [|split].
      * rewrite Hev, <- app_assoc. reflexivity.
      * rewrite Hlast.
        change (goodRecords (Ok rec :: os)) with (rec :: goodRecords os).
        cbn [map]. rewrite last_cons_default. reflexivity.
      * intros Hiv Hrec. cbn [goodRecords omap].
        change (omap _ os) with (goodRecords os).
        assert (Hd : data rec = []).
        { subst iv. unfold pull in Hpull.
          destruct (sequenceKey (f_store f)) as [[k|e] rs'']; [|discriminate].
          inversion Hpull; subst. exact Hrec. }
        constructor; [exact Hd|]. apply Hdata; assumption.
    + destruct (isErrorException e) eqn:He.
      * apply IH in Hrun. destruct Hrun as (os & Hev & Hlast & Hdata).
        cbn [f_events f_lastKey f_record] in *.
        exists (Throw e :: os). split; [|split].
        -- rewrite Hev, <- app_assoc. reflexivity.
        -- exact Hlast.
        -- exact Hdata.
      * inversion Hrun; subst. exists [Throw e].
        cbn [f_events f_lastKey f_record goodRecords omap map].
        repeat split; auto. 
Qed.

(** X7.  After a call of [createWorkPackage], [_lastDistributedKey] is the key
    of the last record the call pulled successfully; a call that pulled none
    leaves it as it was.  This is the key a checkpoint saves. *)
Theorem lastDistributedKey_after_call (d : t (S := S)) :
  _lastDistributedKey (snd (fst (createWorkPackage d)))
  = List.last (map key (goodRecords (pulled (snd (createWorkPackage d)))))
      (_lastDistributedKey d).
Proof.
  unfold createWorkPackage.
  destruct (_recordsRemaining d =? 0); [reflexivity|].
  destruct (fillLoop _ _ _) as [r f'] eqn:Hloop.
  apply fillLoop_keys in Hloop. destruct Hloop as (os & Hev & Hlast & _).
  cbn [fst snd _lastDistributedKey f_events f_lastKey] in *.
  assert (Hos : pulled (f_events f') = os).
  { rewrite Hev. change (pulled (map Pull os) = os). apply pulled_pulls. }
  rewrite Hos, Hlast. reflexivity.
Qed.

(** The events of a call with records remaining, and its package, in
    terms of the pulls of the call. *)
Lemma createWorkPackage_pulled (d : t (S := S)) :
  0 < _recordsRemaining d < 2 ^ 64 ->
  0 <= chunkSize d ->
  let good := goodRecords (pulled (snd (createWorkPackage d))) in
  (_includeValues d = false -> Forall (fun rec => data rec = []) good)
  /\ forall wp : WorkPackage.t,
       fst (fst (createWorkPackage d)) = Ok wp ->
       wp = Payload.pack (map entryOf good).
Proof.
  intros Hrem Hchunk.
  destruct (createWorkPackage_pulls d Hrem Hchunk)
    as (os & r & d' & Hcall & _ & _ & _ & _ & Hwp).
  assert (Hdata : _includeValues d = false ->
                  Forall (fun rec => data rec = []) (goodRecords os)).
  { intros Hiv. revert Hcall. unfold createWorkPackage.
    destruct (Z.eqb_spec (_recordsRemaining d) 0) as [E|_]; [lia|].
    destruct (fillLoop _ _ _) as [r0 f'] eqn:Hloop. intros Hcall.
    apply fillLoop_keys in Hloop. destruct Hloop as (os' & Hev & _ & Hd).
    cbn [f_events f_record data] in Hev, Hd.
    assert (Hsame : os' = os).
    { apply (f_equal snd) in Hcall. cbn [snd] in Hcall.
      rewrite Hev in Hcall. apply (f_equal pulled) in Hcall.
      rewrite pulled_app in Hcall.
      change (pulled (map Pull os') = pulled (map Pull os)) in Hcall.
      now rewrite !pulled_pulls in Hcall. }
    subst os'. apply Hd; [exact Hiv|reflexivity]. }
  rewrite Hcall. cbn [fst snd].
  change (pulled (SetRemaining (_recordsRemaining d - target d)
                    :: map Pull os)) with (pulled (map Pull os)).
  rewrite pulled_pulls. cbv zeta. split; [exact Hdata|].
  intros wp Hr. rewrite (Hwp wp Hr). unfold Payload.pack.
  now rewrite length_map.
Qed.

(** X8.  A Distributor that does not include values ([_includeValues] false)
    pulls keys only: every record it pulls has an empty value, and the package
    holds, for each key pulled, the key with a value of size 0. *)
Theorem package_of_keys (d : t (S := S)) :
  _includeValues d = false ->
  0 < _recordsRemaining d < 2 ^ 64 ->
  0 <= chunkSize d ->
  let good := goodRecords (pulled (snd (createWorkPackage d))) in
  Forall (fun rec => data rec = []) good
  /\ forall wp : WorkPackage.t,
       fst (fst (createWorkPackage d)) = Ok wp ->
       wp = Payload.pack (map keyOnly good)
       /\ WorkPackage.numElements wp = Z.of_nat (length good).
Proof.
  intros Hiv Hrem Hchunk good.
  destruct (createWorkPackage_pulled d Hrem Hchunk) as [Hdata Hwp].
  specialize (Hdata Hiv). fold good in Hdata, Hwp.
  split; [exact Hdata|]. intros wp Hr. rewrite (Hwp wp Hr).
  assert (Hmap : map entryOf good = map keyOnly good).
  { clear - Hdata. induction Hdata as [|rec l Hrec _ IH]; [reflexivity|].
    cbn [map]. rewrite IH. unfold entryOf, keyOnly. now rewrite Hrec. }
  rewrite Hmap. split; [reflexivity|].
  unfold Payload.pack. cbn [WorkPackage.numElements].
  now rewrite length_map.
Qed.

Lemma length_payloadBytes (es : Payload.entries) :
  Z.of_nat (length (Payload.payloadBytes es)) = Payload.payloadSize es.
Proof.
  induction es as [|e es IH]; [reflexivity|].
  rewrite payloadBytes_cons, length_app, Nat2Z.inj_add, IH,
    length_entryBytes. reflexivity.
Qed.

(** X9.  The data of a package that holds entries is the bytes of its entries
    and nothing else: the first entry written resizes the buffer of 16384
    elements to what the entry needs.  Only a package without entries carries
    the buffer as allocated. *)
Theorem package_data (d : t (S := S)) (wp : WorkPackage.t) :
  0 < _recordsRemaining d < 2 ^ 64 ->
  0 <= chunkSize d ->
  fst (fst (createWorkPackage d)) = Ok wp ->
  let es := map entryOf (goodRecords (pulled (snd (createWorkPackage d)))) in
  Payload.representable es ->
  (es = [] -> WorkPackage.data wp = newArray 16384)
  /\ (es <> [] ->
      WorkPackage.data wp = Payload.payloadBytes es
      /\ Z.of_nat (length (WorkPackage.data wp)) = Payload.payloadSize es).
Proof.
  intros Hrem Hchunk Hr es Hrep.
  destruct (createWorkPackage_pulled d Hrem Hchunk) as [_ Hwp].
  rewrite (Hwp wp Hr). fold es. split.
  - intros ->. reflexivity.
  - intros Hne. destruct es as [|e es']; [contradiction|].
    rewrite pack_data by exact Hrep.
    split; [reflexivity|apply length_payloadBytes].
Qed.

End WithStore.

#[local] Existing Instance FileRecordStore.store.

Lemma package_of_keys_witness :
  let d :=
    create (store := FileRecordStore.store) false 4 Scenario.tenRecords
      Scenario.noCheckpoint in
  (_includeValues d = false /\ 0 < _recordsRemaining d < 2 ^ 64
   /\ 0 <= chunkSize d)
  /\ fst (fst (createWorkPackage (alloc := Scenario.allocator) d))
     = Ok (Payload.pack (alloc := Scenario.allocator)
             [("k0", []); ("k1", []); ("k2", []); ("k3", [])]%string).
Proof.
  intros d.
  assert (H1 : 0 < _recordsRemaining d < 2 ^ 64) by (split; reflexivity).
  assert (H2 : 0 <= chunkSize d) by discriminate.
  split; [repeat split; try reflexivity; exact H2|].
  destruct (package_of_keys (alloc := Scenario.allocator) d eq_refl H1 H2)
    as [_ Hwp].
  destruct (fst (fst (createWorkPackage (alloc := Scenario.allocator) d)))
    as [wp|ex] eqn:Hr; [|vm_compute in Hr; discriminate Hr].
  destruct (Hwp wp eq_refl) as [-> _]. f_equal.
Defined.

Lemma package_data_witness :
  let d := Scenario.distributor 4 in
  exists wp : WorkPackage.t,
    fst (fst (createWorkPackage (alloc := Scenario.allocator) d)) = Ok wp
    /\ WorkPackage.numElements wp = 4
    /\ Z.of_nat (length (WorkPackage.data wp)) = 60.
Proof.
  intros d.
  assert (H1 : 0 < _recordsRemaining d < 2 ^ 64) by (split; reflexivity).
  assert (H2 : 0 <= chunkSize d) by discriminate.
  destruct (fst (fst (createWorkPackage (alloc := Scenario.allocator) d)))
    as [wp|ex] eqn:Hr; [|vm_compute in Hr; discriminate Hr].
  exists wp. split; [reflexivity|].
  destruct (package_data (alloc := Scenario.allocator) d wp H1 H2 Hr)
    as [_ Hdata].
  - split; [repeat constructor|reflexivity].
  - destruct Hdata as [_ Hlen]; [discriminate|].
    split; [|rewrite Hlen; reflexivity].
    vm_compute in Hr. injection Hr as <-. reflexivity.
Defined.

End PullingFacts.

(** ** A run over a [FileRecordStore] *)

Module FileStoreRunFacts.
Import RecordStore RecordStoreDistributor Pulling PayloadFacts DistributorFacts.
Import StoreDirectory FileRecordStoreFacts PullingFacts.

#[local] Existing Instance FileRecordStore.store.

Section WithAllocator.
Context {alloc : Allocator}.

(** One pull from a store in order. *)
Lemma pull_at (iv : bool) (rec : record) (fs : FileRecordStore.t) (p : Z)
    (e : FileRecordStore.dirent) :
  readable fs ->
  p = (if isStart (FileRecordStore.cursor fs) then 1
       else FileRecordStore._cursorPos fs) ->
  1 <= p <= FileRecordStore.count fs ->
  FileRecordStore.count fs + 1 < 2 ^ 64 ->
  recordFiles fs !! Z.to_nat (p - 1) = Some e ->
  (iv = false -> data rec = []) ->
  pull iv rec fs = (recordAt iv fs e, positioned fs (p + 1)).
Proof.
  intros Hread Hp Hrange Hbound Hnth Hrec. unfold pull.
  cbn [sequence sequenceKey FileRecordStore.store].
  unfold FileRecordStore.sequence, FileRecordStore.sequenceKey.
  destruct iv.
  - apply i_sequence_at; try assumption; try discriminate.
    rewrite orb_false_r. exact Hp.
  - rewrite (i_sequence_at false BE_RECSTORE_SEQ_NEXT fs p e);
      try assumption; try discriminate;
      [|rewrite orb_false_r; exact Hp].
    cbn [recordAt key]. rewrite (Hrec eq_refl). reflexivity.
Qed.

Lemma fillLoop_file_store (iv : bool) (k : nat) :
  forall (f : Filling (S := FileRecordStore.t)) (p : Z),
    readable (f_store f) ->
    FileRecordStore.count (f_store f) + 1 < 2 ^ 64 ->
    p = (if isStart (FileRecordStore.cursor (f_store f)) then 1
         else FileRecordStore._cursorPos (f_store f)) ->
    1 <= p ->
    p - 1 + Z.of_nat k <= Z.of_nat (length (recordFiles (f_store f))) ->
    p - 1 + Z.of_nat k <= FileRecordStore.count (f_store f) ->
    (iv = false -> data (f_record f) = []) ->
    Forall (fun e => survivable (recordAt iv (f_store f) e) = true)
      (recordFiles (f_store f)) ->
    exists f' : Filling (S := FileRecordStore.t),
      fillLoop iv k f = (Ok tt, f')
      /\ f_events f'
         = f_events f
             ++ map Pull
                  (map (recordAt iv (f_store f))
                     (take k (drop (Z.to_nat (p - 1))
                                (recordFiles (f_store f)))))
      /\ f_store f'
         = if (k =? 0)%nat then f_store f
           else positioned (f_store f) (p + Z.of_nat k).
Proof.
  induction k as [|k IH];
    intros f p Hread Hbound Hp H1 Hfiles Hcnt Hrec Hsurv.
  - exists f. cbn [fillLoop take map Nat.eqb]. rewrite app_nil_r.
    repeat split.
  - destruct (recordFiles (f_store f) !! Z.to_nat (p - 1)) as [e|] eqn:Hnth;
      [|apply lookup_ge_None in Hnth; exfalso; lia].
    assert (He : survivable (recordAt iv (f_store f) e) = true).
    { rewrite List.Forall_forall in Hsurv. apply Hsurv.
      apply list_elem_of_In. eapply list_elem_of_lookup_2. exact Hnth. }
    cbn [fillLoop]. unfold fillOne.
    rewrite (pull_at iv (f_record f) (f_store f) p e)
      by (try assumption; lia).
    rewrite (drop_S (recordFiles (f_store f)) e (Z.to_nat (p - 1)) Hnth).
    cbn [take map].
    set (fs := f_store f) in *.
    assert (Hgo : forall f1 : Filling (S := FileRecordStore.t),
               f_store f1 = positioned fs (p + 1) ->
               (iv = false -> data (f_record f1) = []) ->
               f_events f1 = f_events f ++ [Pull (recordAt iv fs e)] ->
               exists f' : Filling (S := FileRecordStore.t),
                 fillLoop iv k f1 = (Ok tt, f')
                 /\ f_events f'
                    = f_events f
                        ++ Pull (recordAt iv fs e)
                        :: map Pull
                             (map (recordAt iv fs)
                                (take k (drop (Datatypes.S (Z.to_nat (p - 1)))
                                           (recordFiles fs))))
                 /\ f_store f' = positioned fs (p + Z.of_nat (Datatypes.S k))).
    { intros f1 Hst Hr1 Hev1.
      destruct (IH f1 (p + 1)) as (f' & Hrun & Hev & Hstore);
        try (rewrite Hst; assumption); try lia.
      - rewrite Hst. reflexivity.
      - rewrite Hst.
        change (recordFiles (positioned fs (p + 1))) with (recordFiles fs).
        lia.
      - rewrite Hst. change (FileRecordStore.count (positioned fs (p + 1)))
          with (FileRecordStore.count fs). lia.
      - exact Hr1.
      - exists f'. split; [exact Hrun|]. rewrite Hst in Hev, Hstore.
        change (recordFiles (positioned fs (p + 1))) with (recordFiles fs)
          in Hev.
        change (recordAt iv (positioned fs (p + 1))) with (recordAt iv fs)
          in Hev.
        replace (Z.to_nat (p + 1 - 1)) with (Datatypes.S (Z.to_nat (p - 1)))
          in Hev by lia.
        split.
        + rewrite Hev, Hev1, <- app_assoc. reflexivity.
        + rewrite Hstore. destruct k; cbn [Nat.eqb];
            [f_equal; lia|].
          unfold positioned.
          cbn [FileRecordStore.opendirOk FileRecordStore.theFiles
                 FileRecordStore.count]. f_equal. lia. }
    destruct (recordAt iv fs e) as [rec|ex] eqn:Hat.
    + destruct (Payload.fillBufferWithKeyAndValue _ _ _ _) as [buf index].
      apply Hgo; cbn [f_store f_record f_events]; try reflexivity.
      intros Hiv. subst iv. cbn [recordAt] in Hat. now inversion Hat.
    + cbn [survivable] in He. rewrite He.
      apply Hgo; cbn [f_store f_record f_events]; try reflexivity.
      exact Hrec.
Qed.

Lemma createWorkPackage_file_store (iv : bool)
    (d : t (S := FileRecordStore.t)) (p : Z) :
  standsAt iv d p -> 0 < chunkSize d ->
  exists (wp : WorkPackage.t) (d' : t (S := FileRecordStore.t))
         (evs : list Event),
    createWorkPackage d = (Ok wp, d', evs)
    /\ pulled evs
       = map (recordAt iv (recordStore d))
           (take (Z.to_nat (target d))
              (drop (Z.to_nat (p - 1)) (recordFiles (recordStore d))))
    /\ chunkSize d' = chunkSize d
    /\ recordFiles (recordStore d') = recordFiles (recordStore d)
    /\ recordAt iv (recordStore d') = recordAt iv (recordStore d)
    /\ standsAt iv d' (p + target d).
Proof.
  intros Hst Hchunk.
  pose proof Hst as (Hord & Hp & H1 & Hrem & Hnn & Hiv & Hsurv).
  destruct Hord as (Hread & Hcnt & Hbound).
  unfold createWorkPackage.
  destruct (Z.eqb_spec (_recordsRemaining d) 0) as [E|E].
  - exists (WorkPackage.mk 0 (newArray 16384)), d, [].
    assert (Ht : target d = 0) by (unfold target; lia).
    rewrite Ht, Z.add_0_r. change (Z.to_nat 0) with 0%nat.
    split; [reflexivity|]. split; [reflexivity|]. split; [reflexivity|].
    split; [reflexivity|]. split; [reflexivity|exact Hst].
  - rewrite keyCount_target.
    assert (Ht : 0 < target d <= _recordsRemaining d)
      by (unfold target; lia).
    assert (Hw : uint64_t (_recordsRemaining d - target d)
                 = _recordsRemaining d - target d)
      by (unfold uint64_t, wrap; apply Z.mod_small; lia).
    rewrite Hw.
    destruct (fillLoop_file_store iv (Z.to_nat (target d))
                (mkFilling (recordStore d) (_lastDistributedKey d)
                   (newArray 16384) 0 0 (mkRecord "" []) (logsheet d)
                   [SetRemaining (_recordsRemaining d - target d)]) p)
      as (f' & Hrun & Hev & Hstore); cbn [f_store f_record data];
      try assumption; try reflexivity; try lia.
    rewrite Hiv, Hrun. cbn [f_events f_store] in Hev, Hstore.
    assert (Hk : (Z.to_nat (target d) =? 0)%nat = false)
      by (apply Nat.eqb_neq; lia).
    rewrite Hk, Z2Nat.id in Hstore by lia.
    eexists _, _, _. split; [reflexivity|].
    cbn [chunkSize recordStore _recordsRemaining _includeValues].
    rewrite Hstore, Hev.
    split.
    { rewrite pulled_app. change (pulled [SetRemaining _]) with
        (@nil (result record)). rewrite app_nil_l. apply pulled_pulls. }
    split; [reflexivity|]. split; [reflexivity|]. split; [reflexivity|].
    unfold standsAt. cbn [recordStore _recordsRemaining _includeValues].
    split; [split; [exact Hread|split; [exact Hcnt|exact Hbound]]|].
    split; [reflexivity|]. split; [lia|].
    split; [cbn [positioned FileRecordStore.count]; lia|].
    split; [lia|]. split; [reflexivity|exact Hsurv].
Qed.

Lemma createWorkPackages_file_store (iv : bool) (n : nat) :
  forall (d : t (S := FileRecordStore.t)) (p : Z),
    standsAt iv d p -> 0 < chunkSize d ->
    let run := createWorkPackages n d in
    forallb isOk (fst (fst run)) = true
    /\ pulled (snd run)
       = map (recordAt iv (recordStore d))
           (take (Z.to_nat (Z.min (Z.of_nat n * chunkSize d)
                              (_recordsRemaining d)))
              (drop (Z.to_nat (p - 1)) (recordFiles (recordStore d))))
    /\ _recordsRemaining (snd (fst run))
       = Z.max 0 (_recordsRemaining d - Z.of_nat n * chunkSize d).
Proof.
  induction n as [|n IH]; intros d p Hst Hchunk run.
  - pose proof Hst as (_ & _ & _ & _ & Hnn & _).
    unfold run. cbn [createWorkPackages fst snd forallb].
    change (Z.of_nat 0 * chunkSize d) with 0.
    rewrite Z.min_l by lia. change (Z.to_nat 0) with 0%nat.
    split; [reflexivity|]. split; [reflexivity|lia].
  - destruct (createWorkPackage_file_store iv d p Hst Hchunk)
      as (wp & d1 & ev1 & Hcall & Hpulled & Hc1 & Hf1 & Ha1 & Hst1).
    pose proof Hst as (_ & _ & H1 & _ & Hnn & _).
    pose proof Hst1 as (_ & _ & _ & Hrem1 & Hnn1 & _).
    assert (Hrem : _recordsRemaining d1
                   = _recordsRemaining d - target d).
    { pose proof Hst as (_ & _ & _ & Hr & _).
      assert (Hcount : FileRecordStore.count (recordStore d1)
                       = FileRecordStore.count (recordStore d)).
      { destruct Hst as ((_ & Hcnt & _) & _).
        destruct Hst1 as ((_ & Hcnt1 & _) & _).
        rewrite Hcnt, Hcnt1, Hf1. reflexivity. }
      rewrite Hrem1, Hcount, Hr. lia. }
    assert (Hchunk1 : 0 < chunkSize d1) by (rewrite Hc1; exact Hchunk).
    specialize (IH d1 (p + target d) Hst1 Hchunk1).
    unfold run. cbn [createWorkPackages]. rewrite Hcall.
    destruct (createWorkPackages n d1) as [[rs d2] ev2].
    cbn [fst snd] in *. destruct IH as (Hok & Hp2 & Hr2).
    assert (Ht : 0 <= target d <= _recordsRemaining d)
      by (unfold target; lia).
    split; [cbn [forallb isOk]; exact Hok|]. split.
    + rewrite pulled_app, Hpulled, Hp2, Hf1, Ha1, <- map_app. f_equal.
      replace (Z.to_nat (p + target d - 1))
        with (Z.to_nat (p - 1) + Z.to_nat (target d))%nat by lia.
      rewrite <- drop_drop, take_take_drop. f_equal.
      rewrite Hc1, Hrem. unfold target. nia.
    + rewrite Hr2, Hc1, Hrem. unfold target. nia.
Qed.

(** X10.  A Distributor over a [FileRecordStore] that is in order and has not
    been sequenced hands out every record exactly once, in the order of the
    directory: the pulls of [n] successive calls, with [n] times the chunk
    size at least the record count, are the record files one after the other,
    each call produces its package, and the remaining count ends at 0.  A
    record whose file cannot be read is a failed pull like any other: the run
    goes on with the next record. *)
Theorem run_covers_store (iv : bool) (chunk : Z) (fs : FileRecordStore.t)
    (chk : PropertiesFile.t) (n : nat) :
  inOrder fs ->
  isStart (FileRecordStore.cursor fs) = true ->
  0 < chunk ->
  FileRecordStore.count fs <= Z.of_nat n * chunk ->
  Forall (fun e => survivable (recordAt iv fs e) = true) (recordFiles fs) ->
  let run := createWorkPackages n (create iv chunk fs chk) in
  pulled (snd run) = map (recordAt iv fs) (recordFiles fs)
  /\ forallb isOk (fst (fst run)) = true
  /\ _recordsRemaining (snd (fst run)) = 0.
Proof.
  intros Hord Hstart Hchunk Hn Hsurv run.
  pose proof Hord as (_ & Hcnt & Hbound).
  assert (Hc : uint64_t (FileRecordStore.count fs) = FileRecordStore.count fs)
    by (unfold uint64_t, wrap; apply Z.mod_small; lia).
  assert (Hst : standsAt iv (create iv chunk fs chk) 1).
  { unfold standsAt, create. cbn [recordStore _recordsRemaining
      _includeValues getCount FileRecordStore.store].
    rewrite Hstart, Hc. repeat split; try apply Hord; auto; lia. }
  destruct (createWorkPackages_file_store iv n (create iv chunk fs chk) 1
              Hst Hchunk) as (Hok & Hpulled & Hrem).
  fold run in Hok, Hpulled, Hrem.
  unfold create in Hpulled, Hrem.
  cbn [recordStore _recordsRemaining chunkSize getCount
         FileRecordStore.store] in Hpulled, Hrem.
  rewrite Hc in Hpulled, Hrem.
  split; [|split; [exact Hok|rewrite Hrem; lia]].
  rewrite Hpulled. change (Z.to_nat (1 - 1)) with 0%nat. rewrite drop_0.
  rewrite Z.min_r by lia. rewrite Hcnt, Nat2Z.id, firstn_all. reflexivity.
Qed.

End WithAllocator.

Lemma tenRecords_survivable (iv : bool) :
  Forall (fun e => survivable (recordAt iv Scenario.tenRecords e) = true)
    (recordFiles Scenario.tenRecords).
Proof.
  apply List.Forall_forall. intros e He.
  assert (Hall : forallb
                   (fun e => survivable (recordAt iv Scenario.tenRecords e))
                   (recordFiles Scenario.tenRecords) = true)
    by (destruct iv; vm_compute; reflexivity).
  rewrite forallb_forall in Hall. exact (Hall e He).
Qed.

Lemma run_covers_store_witness :
  let run :=
    createWorkPackages (alloc := Scenario.allocator) 3
      (Scenario.distributor 4) in
  (FileRecordStore.count Scenario.tenRecords <= Z.of_nat 3 * 4)
  /\ map (fun o => match o with
                   | Ok rec => key rec
                   | Throw _ => ""%string
                   end) (pulled (snd run))
     = ["k0"; "k1"; "k2"; "k3"; "k4"; "k5"; "k6"; "k7"; "k8"; "k9"]%string
  /\ _recordsRemaining (snd (fst run)) = 0.
Proof.
  intros run. split; [discriminate|].
  destruct (run_covers_store (alloc := Scenario.allocator) true 4
              Scenario.tenRecords Scenario.noCheckpoint 3
              tenRecords_inOrder eq_refl eq_refl ltac:(discriminate)
              (tenRecords_survivable true)) as (Hpulled & _ & Hrem).
  fold (Scenario.distributor 4) in Hpulled, Hrem. fold run in Hpulled, Hrem.
  rewrite Hpulled. split; [reflexivity|exact Hrem].
Defined.

End FileStoreRunFacts.

(** ** What the worker tells its manager *)

Module WorkerLoopFacts.
Import PackageWorker Message Traffic MessageFacts.

Section WithCodes.
Context {codes : WireCodes}.

Lemma sentMessages_app (a b : list Event) :
  sentMessages (a ++ b) = sentMessages a ++ sentMessages b.
Proof. unfold sentMessages. apply omap_app. Qed.

Lemma process_sends_nothing (t : Turn) (wp : WorkPackage.t) :
  sentMessages (fst (process t wp)) = [].
Proof.
  unfold process. destruct (processWorkPackage t) as [u|e]; [reflexivity|].
  destruct (isTerminateJob e); [reflexivity|].
  destruct (isErrorException e); reflexivity.
Qed.

Lemma awaitCommand_sends_nothing (t : Turn) :
  sentMessages (fst (awaitCommand t)) = [].
Proof.
  unfold awaitCommand.
  destruct (waitForCommand t) as [[]|e];
    [| reflexivity | destruct (isErrorException e); reflexivity].
  destruct (receiveCommand t) as [message|e];
    [|destruct (isErrorException e); reflexivity].
  destruct (messageToCommand message) as [[[]|]|e]; try reflexivity;
    (destruct (receiveWorkPackage t) as [wp|e];
     [apply process_sends_nothing
     |destruct (isErrorException e); reflexivity]).
Qed.

(** What a pass sends: nothing, or one status; after a status other than
    [OK] the loop is left. *)
Lemma pass_sends (taskStatus : TaskStatus.t) (t : Turn) :
  sentMessages (fst (pass taskStatus t)) = []
  \/ (sentMessages (fst (pass taskStatus t)) = [statusToMessage TaskStatus.OK]
      /\ taskStatus = TaskStatus.OK)
  \/ exists s : TaskStatus.t,
       s <> TaskStatus.OK
       /\ sentMessages (fst (pass taskStatus t)) = [statusToMessage s]
       /\ snd (pass taskStatus t) = Leave.
Proof.
  unfold pass. destruct (stopRequested t); [left; reflexivity|].
  destruct (exitCondition t).
  - destruct (sendMessageToManager t) as [u|e].
    + right. right. exists TaskStatus.Exit. cbn [TaskStatus.eqb negb].
      repeat split. discriminate.
    + left. destruct (isErrorException e); reflexivity.
  - destruct (sendMessageToManager t) as [u|e].
    + destruct taskStatus; cbn [TaskStatus.eqb negb];
        try (right; right; eexists; repeat split; discriminate).
      right. left. split; [|reflexivity].
      pose proof (awaitCommand_sends_nothing t) as Hnone.
      destruct (awaitCommand t) as [ev next]. cbn [fst] in *.
      change (statusToMessage TaskStatus.OK :: sentMessages ev
              = [statusToMessage TaskStatus.OK]).
      rewrite Hnone. reflexivity.
    + left. destruct (isErrorException e); reflexivity.
Qed.

(** X11.  Whatever the worker loop meets, what it sends to its manager is a
    run of [OK] statuses, each a request for work, followed by at most one
    status other than [OK]; after that status nothing more is sent, and the
    worker returns 0. *)
Theorem worker_statuses (script : list Turn) :
  forall taskStatus : TaskStatus.t,
    let run := workerLoop taskStatus script in
    exists (k : nat) (tail : list TaskStatus.t),
      sentMessages (fst run)
      = map statusToMessage (repeat TaskStatus.OK k ++ tail)
      /\ (tail = []
          \/ exists s : TaskStatus.t,
               tail = [s] /\ s <> TaskStatus.OK /\ snd run = Returned 0).
Proof.
  induction script as [|t script IH]; intros taskStatus run.
  - exists 0%nat, []. split; [reflexivity|now left].
  - unfold run. cbn [workerLoop].
    pose proof (pass_sends taskStatus t) as Hpass.
    destruct (pass taskStatus t) as [ev next]. cbn [fst snd] in Hpass.
    assert (Hrest : forall st',
               let '(ev', r) := workerLoop st' script in
               exists (k : nat) (tail : list TaskStatus.t),
                 sentMessages ev'
                 = map statusToMessage (repeat TaskStatus.OK k ++ tail)
                 /\ (tail = []
                     \/ exists s : TaskStatus.t,
                          tail = [s] /\ s <> TaskStatus.OK
                          /\ r = Returned 0)).
    { intros st'. specialize (IH st'). cbv zeta in IH.
      destruct (workerLoop st' script) as [ev' r]. exact IH. }
    destruct Hpass as [Hnone|[[Hok _]|(s & Hs & Hsent & Hleave)]].
    + destruct next as [st'| |e].
      * specialize (Hrest st').
        destruct (workerLoop st' script) as [ev' r].
        destruct Hrest as (k & tail & Hev & Htail).
        exists k, tail. cbn [fst snd].
        rewrite sentMessages_app, Hnone, Hev. split; [reflexivity|exact Htail].
      * exists 0%nat, []. cbn [fst]. rewrite sentMessages_app, Hnone.
        split; [reflexivity|now left].
      * exists 0%nat, []. cbn [fst]. rewrite Hnone.
        split; [reflexivity|now left].
    + destruct next as [st'| |e].
      * specialize (Hrest st').
        destruct (workerLoop st' script) as [ev' r].
        destruct Hrest as (k & tail & Hev & Htail).
        exists (Datatypes.S k), tail. cbn [fst snd].
        rewrite sentMessages_app, Hok, Hev. split; [reflexivity|exact Htail].
      * exists 1%nat, []. cbn [fst]. rewrite sentMessages_app, Hok.
        split; [reflexivity|now left].
      * exists 1%nat, []. cbn [fst]. rewrite Hok.
        split; [reflexivity|now left].
    + subst next. exists 0%nat, [s]. cbn [fst snd].
      rewrite sentMessages_app, Hsent. split; [reflexivity|].
      right. exists s. repeat split; assumption.
Qed.

(** [std::stoi] throws an exception of the C++ library, which is no
    [Error::Exception]. *)
Lemma stoi_throws (text : string) (e : Exception) :
  stoi text = Throw e ->
  isErrorException e = false /\ isTerminateJob e = false.
Proof.
  unfold stoi, parse_int.
  destruct (skip_spaces text) as [|c r];
    [cbn; intros H; inversion H; split; reflexivity|].
  set (s2 := match String c r with
             | String "-"%char r0 => (true, r0)
             | String "+"%char r0 => (false, r0)
             | _ => (false, String c r)
             end).
  destruct s2 as [neg s2']. destruct (digit_prefix s2');
    try (intros H; inversion H; split; reflexivity);
    destruct (_ && _); intros H; inversion H; split; reflexivity.
Qed.

(** X12.  A command message of the manager that does not begin with a number
    is not survived: [messageToCommand] is called outside of every [try], and
    the exception of [std::stoi] leaves [workerMain].  The worker has asked
    for work and is not heard of again: it sends no further status and does
    not log its exit. *)
Theorem worker_malformed_command (t : Turn) (rest : list Turn)
    (message : uint8Array) (e : Exception) :
  stopRequested t = false ->
  exitCondition t = false ->
  sendMessageToManager t = Ok tt ->
  waitForCommand t = Ok true ->
  receiveCommand t = Ok message ->
  stoi (array_to_string message) = Throw e ->
  workerLoop TaskStatus.OK (t :: rest)
  = ([SentToManager (statusToMessage TaskStatus.OK)], Uncaught e)
  /\ isErrorException e = false.
Proof.
  intros Hstop Hexit Hsend Hwait Hrecv Hstoi.
  split; [|exact (proj1 (stoi_throws _ _ Hstoi))].
  cbn [workerLoop]. unfold pass, awaitCommand, messageToCommand.
  rewrite Hstop, Hexit, Hsend, Hwait, Hrecv, Hstoi. reflexivity.
Qed.

End WithCodes.

Lemma worker_malformed_command_witness :
  let t :=
    mkTurn false false (Ok tt) (Ok true)
      (Ok (setString (codes := Scenario.codes) "go on")) (Ok true)
      (Ok []) (Ok true) (Ok []) (Ok tt) in
  workerLoop (codes := Scenario.codes) TaskStatus.OK [t; Scenario.quiet]
  = ([SentToManager (statusToMessage (codes := Scenario.codes)
                       TaskStatus.OK)],
     Uncaught (StdException "invalid_argument")).
Proof.
  intros t.
  apply (worker_malformed_command (codes := Scenario.codes) t
           [Scenario.quiet] (setString (codes := Scenario.codes) "go on")
           (StdException "invalid_argument")
           eq_refl eq_refl eq_refl eq_refl eq_refl eq_refl).
Defined.

End WorkerLoopFacts.

(** ** The dispatch of a package *)

Module DispatchFacts.
Import Receiver Message Traffic MessageFacts ReceiverFacts ListFacts.

Section WithCodes.
Context {codes : WireCodes}.

Lemma sentToWorkers_app (a b : list Event) :
  sentToWorkers (a ++ b) = sentToWorkers a ++ sentToWorkers b.
Proof. unfold sentToWorkers. apply omap_app. Qed.

Lemma stoppedWorkers_app (a b : list Event) :
  stoppedWorkers (a ++ b) = stoppedWorkers a ++ stoppedWorkers b.
Proof. unfold stoppedWorkers. apply omap_app. Qed.

Lemma sentToDistributor_app (a b : list Event) :
  sentToDistributor (a ++ b) = sentToDistributor a ++ sentToDistributor b.
Proof. unfold sentToDistributor. apply omap_app. Qed.

Lemma outOfBand_quiet (flags : ExitFlags) (oob : option Z) :
  sentToWorkers (fst (outOfBand flags oob)) = []
  /\ stoppedWorkers (fst (outOfBand flags oob)) = []
  /\ sentToDistributor (fst (outOfBand flags oob)) = [].
Proof.
  unfold outOfBand. destruct oob as [cmd|]; [|repeat split].
  destruct (to_enum_command cmd) as [[]|]; repeat split.
Qed.

(** What the hand-over sends: the package messages, or as many of them as
    went out before a send failed. *)
Lemma handOver_sends (worker : Worker) (wp : WorkPackage.t) (h : Handover) :
  sentToWorkers (fst (handOver worker wp h))
    `prefix_of` packageMessages worker wp
  /\ stoppedWorkers (fst (handOver worker wp h)) = []
  /\ sentToDistributor (fst (handOver worker wp h)) = []
  /\ (snd (handOver worker wp h) = Returned tt ->
      sentToWorkers (fst (handOver worker wp h)) = packageMessages worker wp).
Proof.
  unfold handOver, packageMessages.
  destruct (sendContinue h) as [u1|e1].
  - destruct (sendCount h) as [u2|e2].
    + destruct (sendData h) as [u3|e3]; cbn [fst snd].
      * split; [reflexivity|]. repeat split.
      * split; [|repeat split; discriminate].
        eexists [_]. reflexivity.
    + cbn [fst snd]. split; [|repeat split; discriminate].
      eexists [_; _]. reflexivity.
  - cbn [fst snd]. split; [|repeat split; discriminate].
    apply prefix_nil.
Qed.

Lemma not_stopped (w : Worker) (a : list Event) :
  stoppedWorkers a = [] -> ~ In (StopWorker w) a.
Proof.
  induction a as [|y a IH]; intros Hs H; [destruct H|].
  destruct H as [H|H].
  - subst y. discriminate Hs.
  - destruct y; try discriminate Hs; exact (IH Hs H).
Qed.

Lemma stopsFollowReports_quiet (evs : list Event) :
  stoppedWorkers evs = [] -> stopsFollowReports evs.
Proof.
  intros Hs pre post w Heq. exfalso.
  apply (not_stopped w evs Hs). rewrite Heq. apply in_or_app.
  right. now left.
Qed.

Lemma stopsFollowReports_after (a ev : list Event) :
  stoppedWorkers a = [] ->
  stopsFollowReports ev -> stopsFollowReports (a ++ ev).
Proof.
  intros Hs Hev pre post w Heq.
  destruct (split_after (StopWorker w) a ev pre post Heq
              (not_stopped w a Hs)) as (pre2 & -> & Hev2).
  destruct (Hev pre2 post w Hev2) as (pre' & m & st & -> & Hm & H1 & H2).
  exists (a ++ pre'), m, st. rewrite app_assoc. repeat split; assumption.
Qed.

Lemma handedOver_after (wp : WorkPackage.t) (a ev : list Event) :
  sentToWorkers a = [] -> handedOver wp ev -> handedOver wp (a ++ ev).
Proof.
  intros Ha (pre & w & m & post & -> & Hm & Hpre & Hpost & Hst & Hno).
  exists (a ++ pre), w, m, post. rewrite app_assoc, sentToWorkers_app, Ha.
  repeat split; assumption.
Qed.

(** Events before a dispatch that send nothing and stop nobody do not
    change its discipline. *)
Lemma disciplined_after (wp : WorkPackage.t) (pre ev : list Event)
    (r : Ending unit) (f : ExitFlags) :
  sentToWorkers pre = [] -> stoppedWorkers pre = [] ->
  sentToDistributor pre = [] ->
  disciplined wp (ev, r, f) -> disciplined wp (pre ++ ev, r, f).
Proof.
  intros Hs Hst Hd (Hsent & Hall & Hstop & Hdist).
  cbn [fst snd] in *. unfold disciplined. cbn [fst snd].
  rewrite sentToWorkers_app, Hs. cbn [app].
  split; [|split; [exact Hall|split]].
  - destruct Hsent as [Hnone|Hover]; [now left|right].
    now apply handedOver_after.
  - now apply stopsFollowReports_after.
  - rewrite sentToDistributor_app, Hd, Hdist. reflexivity.
Qed.

Lemma disciplined_quiet (wp : WorkPackage.t) (ev : list Event)
    (r : Ending unit) (f : ExitFlags) :
  sentToWorkers ev = [] -> stoppedWorkers ev = [] ->
  sentToDistributor ev = [] ->
  (r = Returned tt -> QuickExit f || TermExit f = true) ->
  disciplined wp (ev, r, f).
Proof.
  intros Hs Hst Hd Hr. unfold disciplined. cbn [fst snd].
  split; [now left|]. split; [|split].
  - intros H1 H2. rewrite (Hr H1) in H2. discriminate.
  - now apply stopsFollowReports_quiet.
  - exact Hd.
Qed.

(** A worker that reported a status other than [OK] and
    [RequestJobTermination] is stopped, or the stop failed; the dispatch
    goes on. *)
Lemma disciplined_stop (wp : WorkPackage.t) (ev0 ev : list Event)
    (worker : Worker) (message : uint8Array) (st : option TaskStatus.t)
    (r : Ending unit) (f : ExitFlags) (between : list Event) :
  sentToWorkers ev0 = [] -> stoppedWorkers ev0 = [] ->
  sentToDistributor ev0 = [] ->
  messageToStatus message = Ok st ->
  st <> Some TaskStatus.OK -> st <> Some TaskStatus.RequestJobTermination ->
  (between = [StopWorker worker] \/ exists text, between = [LogMessage text]) ->
  disciplined wp (ev, r, f) ->
  disciplined wp ((ev0 ++ [FromWorker worker message]) ++ between ++ ev,
                  r, f).
Proof.
  intros Hs Hst Hd Hm Hok Hrjt Hbetween Hev.
  assert (Hs1 : sentToWorkers (ev0 ++ [FromWorker worker message]) = [])
    by (rewrite sentToWorkers_app, Hs; reflexivity).
  assert (Hst1 : stoppedWorkers (ev0 ++ [FromWorker worker message]) = [])
    by (rewrite stoppedWorkers_app, Hst; reflexivity).
  assert (Hd1 : sentToDistributor (ev0 ++ [FromWorker worker message]) = [])
    by (rewrite sentToDistributor_app, Hd; reflexivity).
  destruct Hbetween as [->|[text ->]].
  - destruct Hev as (Hsent & Hall & Hstop & Hdist). cbn [fst snd] in *.
    unfold disciplined. cbn [fst snd app].
    rewrite sentToWorkers_app, Hs1. cbn [app].
    change (sentToWorkers (StopWorker worker :: ev)) with (sentToWorkers ev).
    split; [|split; [exact Hall|split]].
    + destruct Hsent as [Hnone|Hover]; [now left|right].
      apply handedOver_after; [exact Hs1|].
      apply (handedOver_after wp [StopWorker worker] ev eq_refl Hover).
    + intros pre post w Heq.
      destruct (split_after (StopWorker w) _ _ pre post Heq
                  (not_stopped w _ Hst1)) as (pre2 & -> & Hev2).
      destruct pre2 as [|y pre2].
      * injection Hev2 as -> _. exists ev0, message, st.
        rewrite app_nil_r. repeat split; assumption.
      * injection Hev2 as <- Hev2.
        destruct (Hstop pre2 post w Hev2)
          as (pre' & m & st' & -> & Hm' & H1 & H2).
        exists ((ev0 ++ [FromWorker worker message])
                  ++ StopWorker worker :: pre'), m, st'.
        rewrite <- !app_assoc. repeat split; assumption.
    + rewrite sentToDistributor_app, Hd1. exact Hdist.
  - apply (disciplined_after wp ((ev0 ++ [FromWorker worker message])
                                   ++ [LogMessage text]) ev r f) in Hev.
    + rewrite <- app_assoc in Hev. exact Hev.
    + rewrite sentToWorkers_app, Hs1. reflexivity.
    + rewrite stoppedWorkers_app, Hst1. reflexivity.
    + rewrite sentToDistributor_app, Hd1. reflexivity.
Qed.

Lemma sendWorkPackage_disciplined (wp : WorkPackage.t) (h : Handover)
    (polls : list Poll) :
  forall flags : ExitFlags,
    disciplined wp (sendWorkPackage flags wp polls h).
Proof.
  induction polls as [|p polls IH]; intros flags.
  - apply disciplined_quiet; try reflexivity. discriminate.
  - cbn [sendWorkPackage].
    destruct (getNumActiveWorkers p =? 0);
      [apply disciplined_quiet; try reflexivity; discriminate|].
    pose proof (outOfBand_quiet (raise flags (p_raised p)) (oobCmd p))
      as (Hs0 & Hst0 & Hd0).
    destruct (outOfBand (raise flags (p_raised p)) (oobCmd p))
      as [ev0 flags1]. cbn [fst] in Hs0, Hst0, Hd0.
    destruct (QuickExit flags1 || TermExit flags1) eqn:Hflags;
      [apply disciplined_quiet; auto|].
    destruct (getNextMessage p) as [[[worker message]|]|e].
    + assert (Hs1 : sentToWorkers (ev0 ++ [FromWorker worker message]) = [])
        by (rewrite sentToWorkers_app, Hs0; reflexivity).
      assert (Hst1 : stoppedWorkers (ev0 ++ [FromWorker worker message]) = [])
        by (rewrite stoppedWorkers_app, Hst0; reflexivity).
      assert (Hd1 : sentToDistributor (ev0 ++ [FromWorker worker message])
                    = [])
        by (rewrite sentToDistributor_app, Hd0; reflexivity).
      assert (Hgo : forall st between,
                 messageToStatus message = Ok st ->
                 st <> Some TaskStatus.OK ->
                 st <> Some TaskStatus.RequestJobTermination ->
                 (between = [StopWorker worker]
                  \/ exists text, between = [LogMessage text]) ->
                 disciplined wp
                   (let '(ev, r, flags2) :=
                      sendWorkPackage flags1 wp polls h in
                    ((ev0 ++ [FromWorker worker message]) ++ between ++ ev,
                     r, flags2))).
      { intros st between Hm Hok Hrjt Hb. specialize (IH flags1).
        destruct (sendWorkPackage flags1 wp polls h) as [[ev r] flags2].
        now apply (disciplined_stop wp ev0 ev worker message st). }
      destruct (messageToStatus message) as [[[]|]|e] eqn:Hm.
      * pose proof (handOver_sends worker wp h) as (Hp & Hst & Hd & Hall).
        pose proof (handOver_events worker wp h) as Hno.
        destruct (handOver worker wp h) as [ev r]. cbn [fst snd] in *.
        unfold disciplined. cbn [fst snd].
        rewrite sentToWorkers_app, Hs1. cbn [app]. split; [|split; [|split]].
        -- right. exists ev0, worker, message, ev.
           rewrite <- app_assoc. repeat split; assumption.
        -- intros Hr _. exists worker. exact (Hall Hr).
        -- apply stopsFollowReports_quiet.
           rewrite stoppedWorkers_app, Hst1, Hst. reflexivity.
        -- rewrite sentToDistributor_app, Hd1, Hd. reflexivity.
      * destruct (stopWorker p) as [u|e].
        -- apply (Hgo (Some TaskStatus.Exit) [StopWorker worker]);
             try reflexivity; try discriminate. now left.
        -- destruct (isErrorException e).
           ++ apply (Hgo (Some TaskStatus.Exit) [LogMessage _]);
                try reflexivity; try discriminate. right. eexists.
                reflexivity.
           ++ apply disciplined_quiet; auto. discriminate.
      * destruct (stopWorker p) as [u|e].
        -- apply (Hgo (Some TaskStatus.Failed) [StopWorker worker]);
             try reflexivity; try discriminate. now left.
        -- destruct (isErrorException e).
           ++ apply (Hgo (Some TaskStatus.Failed) [LogMessage _]);
                try reflexivity; try discriminate. right. eexists.
                reflexivity.
           ++ apply disciplined_quiet; auto. discriminate.
      * apply disciplined_quiet; auto. discriminate.
      * destruct (stopWorker p) as [u|e].
        -- apply (Hgo None [StopWorker worker]);
             try reflexivity; try discriminate. now left.
        -- destruct (isErrorException e).
           ++ apply (Hgo None [LogMessage _]);
                try reflexivity; try discriminate. right. eexists.
                reflexivity.
           ++ apply disciplined_quiet; auto. discriminate.
      * apply disciplined_quiet; auto. discriminate.
    + specialize (IH flags1).
      destruct (sendWorkPackage flags1 wp polls h) as [[ev r] flags2].
      now apply disciplined_after.
    + apply disciplined_quiet; auto. discriminate.
Qed.

(** X13.  The dispatch of a package.  When anything is sent to a worker,
    the events are: those up to a status message [OK] of a worker, among
    which nothing is sent to a worker; that message; and then the messages
    of the package, or the first of them when a send fails, all to the
    worker that reported, with no worker stopped or heard in between.  A
    dispatch that returns with neither QuickExit nor TermExit set has sent
    all three messages.  Every stop of a worker follows at once on a status
    message of that worker that says neither [OK] nor
    [RequestJobTermination].  Nothing is sent to Task-0. *)
Theorem dispatch_discipline (wp : WorkPackage.t) (h : Handover)
    (polls : list Poll) (flags : ExitFlags) :
  let run := sendWorkPackage flags wp polls h in
  let evs := fst (fst run) in
  (sentToWorkers evs = []
   \/ exists (pre : list Event) (worker : Worker) (message : uint8Array)
             (post : list Event),
        evs = pre ++ FromWorker worker message :: post
        /\ messageToStatus message = Ok (Some TaskStatus.OK)
        /\ sentToWorkers pre = []
        /\ sentToWorkers post `prefix_of` packageMessages worker wp
        /\ stoppedWorkers post = []
        /\ forall (w : Worker) (m : uint8Array),
             ~ In (FromWorker w m) post)
  /\ (snd (fst run) = Returned tt ->
      QuickExit (snd run) || TermExit (snd run) = false ->
      exists w : Worker, sentToWorkers evs = packageMessages w wp)
  /\ (forall (pre post : list Event) (worker : Worker),
        evs = pre ++ StopWorker worker :: post ->
        exists (pre' : list Event) (message : uint8Array)
               (st : option TaskStatus.t),
          pre = pre' ++ [FromWorker worker message]
          /\ messageToStatus message = Ok st
          /\ st <> Some TaskStatus.OK
          /\ st <> Some TaskStatus.RequestJobTermination)
  /\ sentToDistributor evs = [].
Proof. exact (sendWorkPackage_disciplined wp h polls flags). Qed.

(** X14.  What the Receiver sends for a package is what the worker takes for
    it: a pass of the worker loop that receives the three messages of the
    hand-over, the element count as 8 bytes among them, hands the package
    processor the package the Receiver dispatched, with its element count and
    its data. *)
Theorem worker_receives_package (worker : Worker) (wp : WorkPackage.t)
    (t : PackageWorker.Turn) (m1 m2 m3 : uint8Array) (b1 b2 : bool) :
  0 <= WorkPackage.numElements wp < 2 ^ 64 ->
  map snd (packageMessages worker wp) = [m1; m2; m3] ->
  PackageWorker.waitForCommand t = Ok true ->
  PackageWorker.receiveCommand t = Ok m1 ->
  PackageWorker.waitForCount t = Ok b1 ->
  PackageWorker.receiveCount t = Ok m2 ->
  PackageWorker.waitForData t = Ok b2 ->
  PackageWorker.receiveData t = Ok m3 ->
  PackageWorker.awaitCommand t = PackageWorker.process t wp.
Proof.
  intros Hn Hm Hw1 Hr1 Hw2 Hr2 Hw3 Hr3.
  unfold packageMessages in Hm. cbn [map snd] in Hm.
  injection Hm as <- <- <-.
  unfold PackageWorker.awaitCommand, PackageWorker.receiveWorkPackage,
    messageToCommand, commandToMessage.
  rewrite Hw1, Hr1, Hw2, Hr2, Hw3, Hr3. unfold commandToMessage.
  rewrite (stoi_message _ (command_int_range TaskCommand.Continue)).
  rewrite to_enum_command_int.
  unfold PackageWorker.readCount.
  rewrite firstn_all2 by (rewrite length_le_split; lia).
  rewrite le_combine_split.
  change (Z.of_nat 8 * 8) with 64. rewrite Z.mod_small by exact Hn.
  destruct wp as [n data]. reflexivity.
Qed.

End WithCodes.

Lemma dispatch_discipline_witness :
  let wp := Payload.pack (alloc := Scenario.allocator) Scenario.entries in
  let run :=
    sendWorkPackage (codes := Scenario.codes) noFlags wp
      [Scenario.pollFrom 1%nat TaskStatus.Failed;
       Scenario.pollFrom 0%nat TaskStatus.OK] Scenario.handoverOk in
  (snd (fst run) = Returned tt
   /\ QuickExit (snd run) || TermExit (snd run) = false)
  /\ (exists w : Worker,
         sentToWorkers (fst (fst run))
         = packageMessages (codes := Scenario.codes) w wp)
  /\ take 4 (fst (fst run))
     = [FromWorker 1%nat
          (statusToMessage (codes := Scenario.codes) TaskStatus.Failed);
        StopWorker 1%nat;
        FromWorker 0%nat
          (statusToMessage (codes := Scenario.codes) TaskStatus.OK);
        SendToWorker 0%nat
          (commandToMessage (codes := Scenario.codes)
             TaskCommand.Continue)].
Proof.
  intros wp run. split; [split; reflexivity|].
  destruct (dispatch_discipline (codes := Scenario.codes) wp
              Scenario.handoverOk
              [Scenario.pollFrom 1%nat TaskStatus.Failed;
               Scenario.pollFrom 0%nat TaskStatus.OK] noFlags)
    as (_ & Hall & _ & _).
  split; [apply Hall; reflexivity|reflexivity].
Defined.

Lemma worker_receives_package_witness :
  let wp := Payload.pack (alloc := Scenario.allocator) Scenario.entries in
  (0 <= WorkPackage.numElements wp < 2 ^ 64)
  /\ PackageWorker.awaitCommand (codes := Scenario.codes)
       Scenario.jobTerminated
     = PackageWorker.process Scenario.jobTerminated wp.
Proof.
  intros wp.
  assert (H : 0 <= WorkPackage.numElements wp < 2 ^ 64)
    by (split; [discriminate|reflexivity]).
  split; [exact H|].
  apply (worker_receives_package (codes := Scenario.codes) 0%nat wp
           Scenario.jobTerminated
           (commandToMessage (codes := Scenario.codes) TaskCommand.Continue)
           (le_split 8 3) (WorkPackage.data wp) true true H);
    reflexivity.
Defined.

End DispatchFacts.

(** ** What the request loop reports *)

Module RequestLoopFacts.
Import Receiver Message Traffic MessageFacts ReceiverFacts DispatchFacts.
Import ListFacts.

Section WithCodes.
Context {codes : WireCodes}.

(** What a pass of the request loop sends to Task-0, and the status it
    goes on or ends with. *)
Lemma round_reports (flags : ExitFlags) (status : TaskStatus.t) (r : Round) :
  let sent := sentToDistributor (fst (fst (round flags status r))) in
  match snd (round flags status r) with
  | inl st' =>
      (sent = [TaskStatus.OK] /\ st' = status)
      \/ (sent = [TaskStatus.OK; TaskStatus.RequestJobTermination]
          /\ st' = TaskStatus.RequestJobTermination)
  | inr (Returned s) =>
      (sent = [TaskStatus.Exit] /\ s = TaskStatus.Exit)
      \/ (sent = [TaskStatus.OK] /\ s = status)
      \/ (sent = [TaskStatus.OK; TaskStatus.Failed]
          /\ s = TaskStatus.Failed)
  | inr _ => sent = [TaskStatus.OK]
  end.
Proof.
  cbv zeta. unfold round, localExit.
  destruct (Exit (raise flags (r_raised r)));
    [cbn [fst snd]; left; split; reflexivity|].
  destruct (QuickExit (raise flags (r_raised r)));
    [cbn [fst snd]; left; split; reflexivity|].
  destruct (TermExit (raise flags (r_raised r)));
    [cbn [fst snd]; left; split; reflexivity|].
  assert (Hdispatch :
            let '(ev, flags', next) :=
              dispatch (raise flags (r_raised r)) status r in
            let sent := sentToDistributor ev in
            match next with
            | inl st' =>
                (sent = [] /\ st' = status)
                \/ (sent = [TaskStatus.RequestJobTermination]
                    /\ st' = TaskStatus.RequestJobTermination)
            | inr (Returned s) =>
                sent = [TaskStatus.Failed] /\ s = TaskStatus.Failed
            | inr _ => sent = []
            end).
  { unfold dispatch.
    pose proof (sendWorkPackage_disciplined
                  (WorkPackage.mk (numElements r) (workPackageRaw r))
                  (handover r) (polls r) (raise flags (r_raised r)))
      as (_ & _ & _ & Hd).
    destruct (sendWorkPackage _ _ _ _) as [[ev e] f]. cbn [fst snd] in Hd.
    destruct e as [[]|ex|].
    - left. split; [exact Hd|reflexivity].
    - destruct (isTerminateJob ex).
      + right. rewrite sentToDistributor_app, Hd. split; reflexivity.
      + destruct (isErrorException ex); [|exact Hd].
        rewrite sentToDistributor_app, Hd. split; reflexivity.
    - exact Hd. }
  destruct (to_enum_command (taskCommand r)) as [[]|];
    try (cbn [fst snd]; left; split; reflexivity);
    try (cbn [fst snd]; right; left; split; reflexivity);
    destruct (dispatch _ _ _) as [[ev f] next]; cbn [fst snd];
    change (sentToDistributor
              ([LogMessage "Asking for work package"; AskForWorkPackage]
                 ++ ReceivedWorkPackage ?wp :: ev))
      with (TaskStatus.OK :: sentToDistributor ev);
    cbv zeta in Hdispatch;
    (destruct next as [st'|[s| |]];
     [destruct Hdispatch as [[-> ->]|[-> ->]];
        [left|right]; split; reflexivity
     |destruct Hdispatch as [-> ->]; right; right; split; reflexivity
     |rewrite Hdispatch; reflexivity
     |rewrite Hdispatch; reflexivity]).
Qed.

(** X15.  What [requestWorkPackages] sends to Task-0.  A status [Exit] or
    [Failed] is the last thing it sends: it then returns that status.  The
    status it returns is the last status other than [OK] that it sent (the
    [OK]s are those of its requests for work), and the status it was
    entered with ([OK]) when it sent none. *)
Theorem requestLoop_reports (script : list Round) :
  forall (flags : ExitFlags) (status : TaskStatus.t),
    let run := requestLoop flags status script in
    let sent := sentToDistributor (fst (fst run)) in
    let reports :=
      List.filter (fun s => negb (TaskStatus.eqb s TaskStatus.OK)) sent in
    (forall (before after : list TaskStatus.t) (s : TaskStatus.t),
        sent = before ++ s :: after ->
        s = TaskStatus.Exit \/ s = TaskStatus.Failed ->
        after = [] /\ snd run = Returned s)
    /\ forall s : TaskStatus.t,
         snd run = Returned s ->
         (reports = [] /\ s = status)
         \/ (s <> TaskStatus.OK /\ exists init, reports = init ++ [s]).
Proof.
  induction script as [|r script IH]; intros flags status run sent reports.
  - split.
    + intros before after s H. destruct before; discriminate H.
    + intros s H. discriminate H.
  - unfold reports, sent, run. cbn [requestLoop].
    pose proof (round_reports flags status r) as Hround. cbv zeta in Hround.
    destruct (round flags status r) as [[ev f] [st'|e]]; cbn [fst snd] in *.
    + specialize (IH f st'). cbv zeta in IH.
      destruct (requestLoop f st' script) as [[ev' f'] e'].
      cbn [fst snd] in *. destruct IH as [IHlast IH].
      rewrite sentToDistributor_app. split.
      * intros before after s Heq Hs.
        assert (Hnot : ~ In s (sentToDistributor ev)).
        { destruct Hround as [[-> _]|[-> _]]; simpl; intros H;
            destruct Hs as [-> | ->]; intuition discriminate. }
        destruct (split_after s _ _ before after Heq Hnot)
          as (pre2 & _ & Hrest).
        exact (IHlast pre2 after s Hrest Hs).
      * intros s Hs. rewrite List.filter_app.
        destruct (IH s Hs) as [[Hnone ->]|[Hne [init Hinit]]].
        -- rewrite Hnone, app_nil_r.
           destruct Hround as [[-> ->]|[-> ->]].
           ++ left. split; reflexivity.
           ++ right. split; [discriminate|]. exists []. reflexivity.
        -- right. split; [exact Hne|]. rewrite Hinit.
           eexists. rewrite app_assoc. reflexivity.
    + destruct e as [s0|ex|]; split.
      * intros before after s Heq Hs.
        destruct Hround as [[Hsent ->]|[[Hsent ->]|[Hsent ->]]];
          rewrite Hsent in Heq;
          destruct before as [|b1 [|b2 [|b3 before]]];
          try discriminate Heq; injection Heq as <-;
          try (destruct Hs as [Hs|Hs]; discriminate Hs);
          subst; split; reflexivity.
      * intros s Hs. injection Hs as <-.
        destruct Hround as [[-> ->]|[[-> ->]|[-> ->]]].
        -- right. split; [discriminate|]. exists []. reflexivity.
        -- left. split; reflexivity.
        -- right. split; [discriminate|]. exists []. reflexivity.
      * rewrite Hround. intros before after s Heq Hs.
        destruct before as [|b1 [|b2 before]]; try discriminate Heq.
        injection Heq as <-. destruct Hs as [Hs|Hs]; discriminate Hs.
      * intros s Hs. discriminate Hs.
      * rewrite Hround. intros before after s Heq Hs.
        destruct before as [|b1 [|b2 before]]; try discriminate Heq.
        injection Heq as <-. destruct Hs as [Hs|Hs]; discriminate Hs.
      * intros s Hs. discriminate Hs.
Qed.

End WithCodes.

Lemma requestLoop_reports_witness :
  let script :=
    [Scenario.packageRound noFlags
       [Scenario.pollFrom 1%nat TaskStatus.RequestJobTermination];
     mkRound noFlags (command_int (WireCodes := Scenario.codes)
                        TaskCommand.Exit) [] 0 [] Scenario.handoverOk] in
  let run := requestLoop (codes := Scenario.codes) noFlags TaskStatus.OK
               script in
  sentToDistributor (fst (fst run))
  = [TaskStatus.OK; TaskStatus.RequestJobTermination; TaskStatus.OK]
  /\ snd run = Returned TaskStatus.RequestJobTermination
  /\ exists init,
       List.filter (fun s => negb (TaskStatus.eqb s TaskStatus.OK))
         (sentToDistributor (fst (fst run)))
       = init ++ [TaskStatus.RequestJobTermination].
Proof.
  intros script run. split; [reflexivity|]. split; [reflexivity|].
  destruct (requestLoop_reports (codes := Scenario.codes) script noFlags
              TaskStatus.OK) as [_ H].
  destruct (H TaskStatus.RequestJobTermination eq_refl)
    as [[_ Habs]|[_ Hlast]]; [discriminate Habs|exact Hlast].
Defined.

End RequestLoopFacts.

(** ** Start-up and shutdown of the Receiver *)

Module StartFacts.
Import Receiver Message Traffic MessageFacts ReceiverFacts DispatchFacts.
Import RequestLoopFacts WorkerLoopFacts.

Section WithCodes.
Context {codes : WireCodes}.

Lemma stopWorkers_bound (n : nat) :
  forall ms : list (result (option (Worker * uint8Array)) * result unit),
    (length (stoppedWorkers (fst (stopWorkers n ms))) <= n)%nat
    /\ sentToDistributor (fst (stopWorkers n ms)) = []
    /\ sentToWorkers (fst (stopWorkers n ms)) = []
    /\ forallb closingEvent (fst (stopWorkers n ms)) = true.
Proof.
  induction n as [|n IH]; intros ms; [destruct ms; repeat split; simpl; lia|].
  destruct ms as [|[[[[w m]|]|e] stopped] ms];
    try (repeat split; simpl; lia).
  - destruct (IH ms) as (Hlen & Hd & Hs & Hc).
    cbn [stopWorkers]. destruct stopped as [u|e].
    + destruct (stopWorkers n ms) as [ev x]. cbn [fst] in *.
      repeat split; [simpl; lia|exact Hd|exact Hs|exact Hc].
    + destruct (isErrorException e); [|repeat split; simpl; lia].
      destruct (stopWorkers n ms) as [ev x]. cbn [fst] in *.
      repeat split; [simpl; lia|exact Hd|exact Hs|exact Hc].
  - cbn [stopWorkers]. destruct (isErrorException e);
      repeat split; simpl; lia.
Qed.

(** What [startWorkers] does: it starts workers and logs, and what leaves
    it is no [Error::Exception]. *)
Lemma startWorkers_events (starts : list (result unit)) :
  sentToDistributor (fst (startWorkers starts)) = []
  /\ stoppedWorkers (fst (startWorkers starts)) = []
  /\ forallb (fun e => negb (isPackageTraffic e)) (fst (startWorkers starts))
     = true
  /\ ~ In PerformShutdown (fst (startWorkers starts))
  /\ forall e : Exception,
       snd (startWorkers starts) = Some e -> isErrorException e = false.
Proof.
  induction starts as [|[u|ex] starts IH].
  - repeat split; try discriminate. intros [].
  - cbn [startWorkers]. destruct (startWorkers starts) as [ev x].
    cbn [fst snd] in *. destruct IH as (Hd & Hs & Hq & Hp & He).
    split; [exact Hd|]. split; [exact Hs|]. split; [exact Hq|].
    split; [|exact He].
    intros [H|H]; [discriminate H|exact (Hp H)].
  - cbn [startWorkers]. destruct (isErrorException ex) eqn:Hex.
    + destruct (startWorkers starts) as [ev x].
      cbn [fst snd] in *. destruct IH as (Hd & Hs & Hq & Hp & He).
      split; [exact Hd|]. split; [exact Hs|]. split; [exact Hq|].
      split; [|exact He].
      intros [H|[H|H]]; [discriminate H|discriminate H|exact (Hp H)].
    + cbn [fst snd]. split; [reflexivity|]. split; [reflexivity|].
      split; [reflexivity|]. split; [intros [H|[]]; discriminate H|].
      intros e H. injection H as <-. exact Hex.
Qed.

(** A shutdown consists of log lines, stops of workers, [performShutdown],
    the barrier and the final status. *)
Lemma shutdown_closingEvents (flags : ExitFlags) (taskStatus : TaskStatus.t)
    (reason : string) (c : Closing) :
  forallb closingEvent (fst (shutdown flags taskStatus reason c)) = true.
Proof.
  unfold shutdown.
  pose proof (stopWorkers_bound (Z.to_nat (workerCount c)) (lastMessages c))
    as (_ & _ & _ & Hc).
  destruct (negb _ && _).
  - destruct (stopWorkers _ _) as [ev [e|]]; cbn [fst] in *.
    + exact Hc.
    + destruct (performShutdown c) as [u|e];
        [|destruct (isErrorException e)]; cbn [fst app forallb closingEvent];
        rewrite forallb_app, Hc; reflexivity.
  - destruct (performShutdown c) as [u|e];
      [|destruct (isErrorException e)]; reflexivity.
Qed.

Lemma closingEvents_quiet (evs : list Event) :
  forallb closingEvent evs = true ->
  forallb (fun e => negb (isPackageTraffic e)) evs = true
  /\ ~ In PerformInitialization evs /\ ~ In StartWorker evs
  /\ sentToWorkers evs = [].
Proof.
  induction evs as [|x evs IH]; intros H.
  - repeat split; intros [].
  - cbn [forallb] in H. apply andb_prop in H as [Hx H].
    destruct (IH H) as (Hq & Hi & Hw & Hs).
    destruct x; try discriminate Hx;
      (split; [cbn [forallb isPackageTraffic negb andb]; exact Hq|];
       split; [intros [E|E]; [discriminate E|exact (Hi E)]|];
       split; [intros [E|E]; [discriminate E|exact (Hw E)]|exact Hs]).
Qed.

(** What a shutdown sends, stops and ends with. *)
Lemma shutdown_summary (flags : ExitFlags) (taskStatus : TaskStatus.t)
    (reason : string) (c : Closing) :
  let run := shutdown flags taskStatus reason c in
  let evs := fst run in
  (orderly c = true -> snd run = Returned tt)
  /\ (snd run = Returned tt ->
      sentToDistributor evs = [taskStatus]
      /\ List.last evs Barrier = SendToDistributor taskStatus
      /\ In PerformShutdown evs)
  /\ (forall e : Exception,
        snd run = Uncaught e ->
        isErrorException e = false /\ sentToDistributor evs = [])
  /\ snd run <> ScriptEnded
  /\ sentToWorkers evs = []
  /\ Z.of_nat (length (stoppedWorkers evs)) <= Z.max 0 (workerCount c)
  /\ (TermExit (raise flags (c_raised c)) = true -> stoppedWorkers evs = []).
Proof.
  intros run evs. split; [apply shutdown_orderly|].
  pose proof (shutdown_closingEvents flags taskStatus reason c) as Hclosing.
  apply closingEvents_quiet in Hclosing. destruct Hclosing as (_ & _ & _ & Hw).
  fold run evs in Hw.
  unfold evs, run, shutdown in *.
  pose proof (stopWorkers_bound (Z.to_nat (workerCount c)) (lastMessages c))
    as (Hlen & Hd & _ & _).
  pose proof (stopWorkers_escaped (Z.to_nat (workerCount c))
                (lastMessages c)) as Hesc.
  set (stops :=
         if negb (TermExit (raise flags (c_raised c))) && (0 <? workerCount c)
         then
           let '(ev, escaped) :=
             stopWorkers (Z.to_nat (workerCount c)) (lastMessages c) in
           (LogMessage "Stopping workers" :: ev, escaped)
         else ([], None)) in *.
  assert (Hstops : sentToDistributor (fst stops) = []
                   /\ (Z.of_nat (length (stoppedWorkers (fst stops)))
                       <= Z.max 0 (workerCount c))
                   /\ (TermExit (raise flags (c_raised c)) = true ->
                       stoppedWorkers (fst stops) = [])
                   /\ forall e, snd stops = Some e ->
                                isErrorException e = false).
  { unfold stops. destruct (TermExit (raise flags (c_raised c)));
      cbn [negb andb]; [repeat split; try discriminate; simpl; lia|].
    destruct (0 <? workerCount c);
      [|repeat split; try discriminate; simpl; lia].
    destruct (stopWorkers _ _) as [ev x]. cbn [fst snd] in *.
    repeat split; try discriminate; [exact Hd| |exact Hesc].
    change (stoppedWorkers (LogMessage "Stopping workers" :: ev))
      with (stoppedWorkers ev). lia. }
  clear Hlen Hd Hesc.
  destruct stops as [ev [e|]]; cbn [fst snd] in *;
    destruct Hstops as (Hd & Hlen & Hterm & Hesc).
  - split; [discriminate|]. split.
    { intros e' H. injection H as <-. split; [exact (Hesc e eq_refl)|].
      exact Hd. }
    split; [discriminate|]. split; [exact Hw|].
    split; [exact Hlen|exact Hterm].
  - assert (Hfinal : forall closes : list Event,
               sentToDistributor closes = [] ->
               stoppedWorkers closes = [] ->
               let all :=
                 (LogMessage ("Shutting down: " +:+ reason)%string :: ev)
                   ++ PerformShutdown :: closes
                   ++ [Barrier; LogMessage "Sending final message";
                       SendToDistributor taskStatus] in
               sentToDistributor all = [taskStatus]
               /\ List.last all Barrier = SendToDistributor taskStatus
               /\ In PerformShutdown all
               /\ stoppedWorkers all = stoppedWorkers ev).
    { intros closes Hdc Hsc all. unfold all. split; [|split; [|split]].
      - rewrite sentToDistributor_app.
        change (sentToDistributor (LogMessage ?t :: ev))
          with (sentToDistributor ev).
        change (sentToDistributor (PerformShutdown :: ?l))
          with (sentToDistributor l).
        rewrite Hd, sentToDistributor_app, Hdc. reflexivity.
      - change (PerformShutdown :: closes ++ ?l)
          with ((PerformShutdown :: closes) ++ l).
        rewrite app_assoc.
        change [Barrier; LogMessage "Sending final message";
                SendToDistributor taskStatus]
          with ([Barrier; LogMessage "Sending final message"]
                  ++ [SendToDistributor taskStatus]).
        rewrite app_assoc. apply last_last.
      - apply in_or_app. right. now left.
      - rewrite stoppedWorkers_app.
        change (stoppedWorkers (LogMessage ?t :: ev))
          with (stoppedWorkers ev).
        change (stoppedWorkers (PerformShutdown :: ?l))
          with (stoppedWorkers l).
        rewrite stoppedWorkers_app, Hsc, app_nil_r. reflexivity. }
    destruct (performShutdown c) as [u|e];
      [|destruct (isErrorException e) eqn:Herr]; cbn [fst snd] in *.
    + destruct (Hfinal [] eq_refl eq_refl) as (H1 & H2 & H3 & H4).
      cbn [app] in H1, H2, H3, H4 |- *.
      split; [intros _; repeat split; assumption|].
      split; [discriminate|]. split; [discriminate|]. split; [exact Hw|].
      rewrite H4. split; [exact Hlen|exact Hterm].
    + destruct (Hfinal [LogMessage
                          ("Could not shutdown package processor: "
                             +:+ whatString e)%string] eq_refl eq_refl)
        as (H1 & H2 & H3 & H4).
      cbn [app] in H1, H2, H3, H4 |- *.
      split; [intros _; repeat split; assumption|].
      split; [discriminate|]. split; [discriminate|]. split; [exact Hw|].
      rewrite H4. split; [exact Hlen|exact Hterm].
    + split; [discriminate|]. split.
      { intros e' H. injection H as <-. split; [exact Herr|].
        rewrite sentToDistributor_app.
        change (sentToDistributor (LogMessage ?t :: ev))
          with (sentToDistributor ev).
        rewrite Hd. reflexivity. }
      split; [discriminate|]. split; [exact Hw|].
      rewrite stoppedWorkers_app.
      change (stoppedWorkers (LogMessage ?t :: ev)) with (stoppedWorkers ev).
      change (stoppedWorkers [PerformShutdown]) with (@nil Worker).
      rewrite app_nil_r. split; [exact Hlen|exact Hterm].
Qed.

(** X16.  [shutdown] goes on after every [Error::Exception] of its
    collaborators: when they throw nothing else it returns, and a shutdown
    that returns has called [performShutdown] and has sent the final status
    to Task-0, once, as the last thing it did.  An exception that is no
    [Error::Exception] leaves [shutdown], and then no final status has
    been sent.  In every case it sends nothing to a worker, stops at most
    as many workers as were active, and with [MPI::TermExit] set it does not
    turn to the workers at all. *)
Theorem shutdown_reports (flags : ExitFlags)
    (taskStatus : TaskStatus.t) (reason : string) (c : Closing) :
  let run := shutdown flags taskStatus reason c in
  let evs := fst run in
  (orderly c = true -> snd run = Returned tt)
  /\ (snd run = Returned tt ->
      sentToDistributor evs = [taskStatus]
      /\ List.last evs Barrier = SendToDistributor taskStatus
      /\ In PerformShutdown evs)
  /\ (forall e : Exception,
        snd run = Uncaught e ->
        isErrorException e = false /\ sentToDistributor evs = [])
  /\ snd run <> ScriptEnded
  /\ sentToWorkers evs = []
  /\ Z.of_nat (length (stoppedWorkers evs)) <= Z.max 0 (workerCount c)
  /\ (TermExit (raise flags (c_raised c)) = true -> stoppedWorkers evs = []).
Proof. exact (shutdown_summary flags taskStatus reason c). Qed.

(** A shutdown none of whose collaborators throws anything but
    [Error::Exception]s, after the events [before]. *)
Lemma closes_orderly (flags : ExitFlags) (taskStatus : TaskStatus.t)
    (reason : string) (c : Closing) (before : list Event) :
  orderly c = true ->
  forallb (fun e => negb (isPackageTraffic e)) before = true ->
  let run :=
    let '(ev, e) := shutdown flags taskStatus reason c in (before ++ ev, e) in
  snd run = Returned tt
  /\ sentToDistributor (fst run) = sentToDistributor before ++ [taskStatus]
  /\ forallb (fun e => negb (isPackageTraffic e)) (fst run) = true
  /\ forall x : Event,
       In x (fst run) -> x = PerformInitialization \/ x = StartWorker ->
       In x before.
Proof.
  intros Hord Hbefore.
  destruct (shutdown_summary flags taskStatus reason c)
    as (Hret & Hsent & _).
  pose proof (closingEvents_quiet _
                (shutdown_closingEvents flags taskStatus reason c))
    as (Hq & Hi & Hw & _).
  specialize (Hret Hord). destruct (Hsent Hret) as (Hs & _).
  destruct (shutdown flags taskStatus reason c) as [ev e].
  cbn [fst snd] in *. split; [exact Hret|].
  split; [rewrite sentToDistributor_app, Hs; reflexivity|].
  split; [rewrite forallb_app, Hbefore, Hq; reflexivity|].
  intros x Hin Hx. apply in_app_or in Hin. destruct Hin as [Hin|Hin];
    [exact Hin|]. exfalso. destruct Hx as [-> | ->]; auto.
Qed.

(** X17.  A Receiver that cannot begin its work.  When Task-0's start-up
    flag is [Failed], the Receiver answers [OK] and shuts down with the
    final status [OK], without initializing the package processor or
    starting workers; when [performInitialization] throws an
    [Error::Exception], or no worker is running after [startWorkers], it
    reports [Failed] and shuts down with the final status [Failed] (the
    shutdown being one whose collaborators throw nothing but
    [Error::Exception]s).  In neither case does it ask for a work package
    or send anything to a worker. *)
Theorem start_without_work (flags : ExitFlags) (s : Startup) :
  openLogsheet s = Ok tt ->
  orderly (closing s) = true ->
  let evs := fst (start flags s) in
  ((startupFlag s =? status_int TaskStatus.Failed) = true ->
   snd (start flags s) = Returned tt
   /\ sentToDistributor evs = [TaskStatus.OK; TaskStatus.OK]
   /\ ~ In PerformInitialization evs /\ ~ In StartWorker evs
   /\ forallb (fun e => negb (isPackageTraffic e)) evs = true)
  /\ ((startupFlag s =? status_int TaskStatus.Failed) = false ->
      (exists e, performInitialization s = Throw e
                 /\ isErrorException e = true)
      \/ (performInitialization s = Ok tt
          /\ snd (startWorkers (workerStarts s)) = None
          /\ workersStarted s = 0) ->
      snd (start flags s) = Returned tt
      /\ sentToDistributor evs = [TaskStatus.Failed; TaskStatus.Failed]
      /\ forallb (fun e => negb (isPackageTraffic e)) evs = true).
Proof.
  intros Hlog Hord evs. unfold evs. split.
  - intros Hflag. unfold start. rewrite Hlog, Hflag.
    destruct (closes_orderly flags TaskStatus.OK "Distributor says abort"
                (closing s)
                ([Barrier; LogMessage "Wait for startup message"]
                   ++ [SendToDistributor TaskStatus.OK]) Hord eq_refl)
      as (Hret & Hsent & Hquiet & Honly).
    split; [exact Hret|]. split; [exact Hsent|].
    split; [|split; [|exact Hquiet]]; intros Hin.
    + apply Honly in Hin; [|now left].
      simpl in Hin. intuition discriminate.
    + apply Honly in Hin; [|now right].
      simpl in Hin. intuition discriminate.
  - intros Hflag Hfail. unfold start. rewrite Hlog, Hflag.
    destruct Hfail as [(e & He & Herr)|(Hinit & Hstarts & Hnone)].
    + rewrite He, Herr.
      destruct (closes_orderly flags TaskStatus.Failed
                  "Failed performInitalization()" (closing s)
                  ([Barrier; LogMessage "Wait for startup message"]
                     ++ [PerformInitialization;
                         LogMessage
                           ("Could not initialize package processor: "
                              +:+ whatString e)%string;
                         SendToDistributor TaskStatus.Failed]) Hord eq_refl)
        as (Hret & Hsent & Hquiet & _).
      split; [exact Hret|]. split; [exact Hsent|exact Hquiet].
    + rewrite Hinit, Hnone. cbn [Z.eqb].
      pose proof (startWorkers_events (workerStarts s))
        as (Hd & _ & Hq & _ & _).
      destruct (startWorkers (workerStarts s)) as [evw x].
      cbn [fst snd] in *. subst x.
      destruct (closes_orderly flags TaskStatus.Failed "No workers"
                  (closing s)
                  (([Barrier; LogMessage "Wait for startup message"]
                      ++ PerformInitialization :: evw)
                     ++ [SendToDistributor TaskStatus.Failed]) Hord)
        as (Hret & Hsent & Hquiet & _).
      { rewrite forallb_app. cbn [app forallb isPackageTraffic negb andb].
        rewrite Hq. reflexivity. }
      split; [exact Hret|]. split; [|exact Hquiet].
      rewrite Hsent, sentToDistributor_app. cbn [app].
      change (sentToDistributor
                (Barrier :: LogMessage "Wait for startup message"
                   :: PerformInitialization :: evw))
        with (sentToDistributor evw).
      rewrite Hd. reflexivity.
Qed.

(** When the log sheet cannot be opened, [start] reports [Failed] and goes
    on to [shutdown], which begins by writing to the log sheet that is not
    there. *)
Lemma start_without_logsheet (flags : ExitFlags) (s : Startup)
    (e : Exception) :
  openLogsheet s = Throw e -> isErrorException e = true ->
  sentToDistributor (fst (start flags s)) = [TaskStatus.Failed]
  /\ exists crash : Exception,
       snd (start flags s) = Uncaught crash
       /\ isErrorException crash = false.
Proof.
  intros Hlog Herr. unfold start. rewrite Hlog, Herr.
  split; [reflexivity|]. eexists. split; reflexivity.
Qed.

(** X18.  When Task-0 answers a request with the command [Exit], [QuickExit]
    or [TermExit], the request loop ends and returns the status it had: the
    pass has sent Task-0 the [OK] of its request and nothing else, the
    workers are sent SIGINT for [QuickExit] and SIGKILL for [TermExit], and
    [start] goes on to shut down with the reason of that status, which is
    "Normal end" with the final status [OK] when no job termination was
    requested before.  The command sets no exit flag: after a [TermExit]
    command [shutdown] still turns to the workers it has just killed. *)
Theorem start_ended_by_command (flags seen : ExitFlags) (s : Startup)
    (pre rest : list Round) (r : Round) (evs evw : list Event)
    (status : TaskStatus.t) (c : TaskCommand.t) :
  openLogsheet s = Ok tt ->
  (startupFlag s =? status_int TaskStatus.Failed) = false ->
  performInitialization s = Ok tt ->
  startWorkers (workerStarts s) = (evw, None) ->
  (workersStarted s =? 0) = false ->
  rounds s = pre ++ r :: rest ->
  afterRounds flags TaskStatus.OK pre = Some (evs, seen, status) ->
  localExit (raise seen (r_raised r)) = None ->
  to_enum_command (taskCommand r) = Some c ->
  c = TaskCommand.Exit \/ c = TaskCommand.QuickExit
  \/ c = TaskCommand.TermExit ->
  let flags' := raise seen (r_raised r) in
  let closed := shutdown flags' status (shutdownReason status) (closing s) in
  let pass :=
    [LogMessage "Asking for work package"; AskForWorkPackage]
      ++ broadcastFor c in
  start flags s = (started evw ++ evs ++ pass ++ fst closed, snd closed)
  /\ sentToDistributor pass = [TaskStatus.OK]
  /\ (pre = [] -> shutdownReason status = "Normal end"%string)
  /\ (TermExit (raise flags' (c_raised (closing s))) = false ->
      0 < workerCount (closing s) ->
      In (LogMessage "Stopping workers") (fst closed)).
Proof.
  intros Hlog Hflag Hinit Hstarts Hworkers Hrounds Hpre Hexit Hcmd Hc
    flags' closed pass.
  subst flags' pass. split; [|split; [|split]].
  - unfold start. rewrite Hlog, Hflag, Hinit, Hstarts, Hworkers.
    unfold requestWorkPackages. rewrite Hrounds.
    rewrite (requestLoop_app pre (r :: rest) _ _ _ _ _ Hpre).
    cbn [requestLoop]. unfold round. rewrite Hexit, Hcmd.
    destruct Hc as [-> | [-> | ->]]; cbn [broadcastFor app];
      fold closed; destruct closed as [evc e]; cbn [fst snd];
      unfold started; cbn [app]; rewrite <- ?app_assoc; reflexivity.
  - destruct Hc as [-> | [-> | ->]]; reflexivity.
  - intros ->. cbn [afterRounds] in Hpre. injection Hpre as _ _ <-.
    reflexivity.
  - intros Hterm Hcount. unfold closed, shutdown. rewrite Hterm.
    destruct (Z.ltb_spec 0 (workerCount (closing s))) as [_|Hle]; [|lia].
    cbn [negb andb]. destruct (stopWorkers _ _) as [ev [e|]].
    + right. left. reflexivity.
    + destruct (performShutdown (closing s)) as [u|e];
        [|destruct (isErrorException e)]; right; left; reflexivity.
Qed.

(** X19.  A status message of a worker that does not begin with a number is
    not survived either: [messageToStatus] is called outside of every [try] of
    [sendWorkPackage], the handlers of [requestWorkPackages] do not take the
    exception of [std::stoi], and it leaves [start]: the Receiver does not
    shut down and stops no worker, and Task-0, which has been sent [OK] at
    the start and [OK] with the request, is sent no final status. *)
Theorem receiver_malformed_status (flags : ExitFlags) (s : Startup)
    (r : Round) (rest : list Round) (p : Poll) (ps : list Poll)
    (w : Worker) (m : uint8Array) (e : Exception) (evw : list Event) :
  openLogsheet s = Ok tt ->
  (startupFlag s =? status_int TaskStatus.Failed) = false ->
  performInitialization s = Ok tt ->
  startWorkers (workerStarts s) = (evw, None) ->
  (workersStarted s =? 0) = false ->
  rounds s = r :: rest ->
  localExit (raise flags (r_raised r)) = None ->
  announcesPackage (to_enum_command (taskCommand r)) = true ->
  polls r = p :: ps ->
  (getNumActiveWorkers p =? 0) = false ->
  oobCmd p = None ->
  QuickExit (raise (raise flags (r_raised r)) (p_raised p))
  || TermExit (raise (raise flags (r_raised r)) (p_raised p)) = false ->
  getNextMessage p = Ok (Some (w, m)) ->
  stoi (array_to_string m) = Throw e ->
  start flags s
  = (started evw
       ++ asked (WorkPackage.mk (numElements r) (workPackageRaw r))
       ++ [FromWorker w m],
     Uncaught e)
  /\ sentToDistributor (fst (start flags s))
     = [TaskStatus.OK; TaskStatus.OK]
  /\ stoppedWorkers (fst (start flags s)) = []
  /\ ~ In PerformShutdown (fst (start flags s)).
Proof.
  intros Hlog Hflag Hinit Hstarts Hworkers Hrounds Hexit Hcmd Hpolls Hactive
    Hoob Hflags Hmsg Hstoi.
  destruct (stoi_throws _ _ Hstoi) as [Herr Hterm].
  assert (Hstart : start flags s
                   = (started evw
                        ++ asked (WorkPackage.mk (numElements r)
                                    (workPackageRaw r))
                        ++ [FromWorker w m],
                      Uncaught e)).
  { unfold start. rewrite Hlog, Hflag, Hinit, Hstarts, Hworkers.
    unfold requestWorkPackages. rewrite Hrounds. cbn [requestLoop].
    rewrite round_dispatch by assumption. unfold dispatch.
    rewrite Hpolls. cbn [sendWorkPackage]. rewrite Hactive, Hoob.
    cbn [outOfBand]. rewrite Hflags, Hmsg. unfold messageToStatus.
    rewrite Hstoi, Hterm, Herr. unfold started. cbn [app].
    rewrite <- !app_assoc. reflexivity. }
  pose proof (startWorkers_events (workerStarts s))
    as (Hd & Hst & _ & Hp & _).
  rewrite Hstarts in Hd, Hst, Hp. cbn [fst] in Hd, Hst, Hp.
  rewrite Hstart. cbn [fst]. unfold started, asked. split; [reflexivity|].
  split; [|split].
  - cbn [app]. change (sentToDistributor
                         (Barrier :: LogMessage "Wait for startup message"
                            :: PerformInitialization :: ?l))
      with (sentToDistributor l).
    rewrite !sentToDistributor_app, Hd. reflexivity.
  - cbn [app]. change (stoppedWorkers
                         (Barrier :: LogMessage "Wait for startup message"
                            :: PerformInitialization :: ?l))
      with (stoppedWorkers l).
    rewrite !stoppedWorkers_app, Hst. reflexivity.
  - intros Hin. rewrite !in_app_iff in Hin. simpl in Hin.
    intuition discriminate.
Qed.

End WithCodes.

Lemma shutdown_reports_witness :
  let stuck :=
    mkClosing noFlags 1
      [(Ok (Some (0%nat, Message.statusToMessage (codes := Scenario.codes)
                           TaskStatus.OK)), Ok tt)]
      (Throw (StdException "bad_alloc")) in
  (orderly Scenario.closing = true
   /\ shutdown noFlags TaskStatus.Exit "Early exit" stuck
      = ([LogMessage "Shutting down: Early exit";
          LogMessage "Stopping workers"; StopWorker 0%nat; PerformShutdown],
         Uncaught (StdException "bad_alloc")))
  /\ snd (shutdown noFlags TaskStatus.Exit "Early exit" Scenario.closing)
     = Returned tt
  /\ sentToDistributor
       (fst (shutdown noFlags TaskStatus.Exit "Early exit" Scenario.closing))
     = [TaskStatus.Exit]
  /\ sentToDistributor
       (fst (shutdown noFlags TaskStatus.Exit "Early exit" stuck)) = [].
Proof.
  intros stuck. split; [split; reflexivity|].
  destruct (shutdown_reports noFlags TaskStatus.Exit "Early exit"
              Scenario.closing) as (Hret & Hsent & _).
  destruct (shutdown_reports noFlags TaskStatus.Exit "Early exit" stuck)
    as (_ & _ & Hesc & _).
  specialize (Hret eq_refl). destruct (Hsent Hret) as (Hs & _).
  split; [exact Hret|]. split; [exact Hs|].
  exact (proj2 (Hesc (StdException "bad_alloc") eq_refl)).
Defined.

Lemma start_without_work_witness :
  let s :=
    mkStartup (Ok tt) (status_int (WireCodes := Scenario.codes) TaskStatus.OK)
      (Throw (ErrorException "no model")) [Ok tt; Ok tt] 2
      [Scenario.packageRound noFlags [Scenario.pollFrom 0%nat TaskStatus.OK]]
      Scenario.closing in
  (openLogsheet s = Ok tt /\ orderly (closing s) = true
   /\ isErrorException (ErrorException "no model") = true)
  /\ sentToDistributor (fst (start (codes := Scenario.codes) noFlags s))
     = [TaskStatus.Failed; TaskStatus.Failed]
  /\ snd (start (codes := Scenario.codes) noFlags s) = Returned tt.
Proof.
  intros s. split; [repeat split|].
  destruct (start_without_work (codes := Scenario.codes) noFlags s
              eq_refl eq_refl) as (_ & H).
  destruct (H eq_refl) as (Hret & Hsent & _);
    [left; eexists; split; reflexivity|].
  split; [exact Hsent|exact Hret].
Defined.

Lemma start_ended_by_command_witness :
  let s :=
    mkStartup (Ok tt) (status_int (WireCodes := Scenario.codes) TaskStatus.OK)
      (Ok tt) [Ok tt; Ok tt] 2
      [mkRound noFlags (command_int (WireCodes := Scenario.codes)
                          TaskCommand.TermExit) [] 0 [] Scenario.handoverOk]
      Scenario.closing in
  let closed := shutdown noFlags TaskStatus.OK "Normal end" Scenario.closing in
  start (codes := Scenario.codes) noFlags s
  = (started [StartWorker; StartWorker]
       ++ [LogMessage "Asking for work package"; AskForWorkPackage;
           BroadcastSignal SIGKILL]
       ++ fst closed,
     snd closed)
  /\ In (LogMessage "Stopping workers") (fst closed).
Proof.
  intros s closed.
  destruct (start_ended_by_command (codes := Scenario.codes) noFlags noFlags
              s [] [] _ [] [StartWorker; StartWorker] TaskStatus.OK
              TaskCommand.TermExit
              eq_refl eq_refl eq_refl eq_refl eq_refl eq_refl eq_refl
              eq_refl eq_refl (or_intror (or_intror eq_refl)))
    as (Hstart & _ & _ & Hstop).
  split; [exact Hstart|]. apply Hstop; reflexivity.
Defined.

Lemma receiver_malformed_status_witness :
  let p :=
    mkPoll noFlags 2 None
      (Ok (Some (0%nat, setString (codes := Scenario.codes) "ready")))
      (Ok tt) in
  let s :=
    mkStartup (Ok tt) (status_int (WireCodes := Scenario.codes) TaskStatus.OK)
      (Ok tt) [Ok tt; Ok tt] 2 [Scenario.packageRound noFlags [p]]
      Scenario.closing in
  snd (start (codes := Scenario.codes) noFlags s)
  = Uncaught (StdException "invalid_argument")
  /\ sentToDistributor (fst (start (codes := Scenario.codes) noFlags s))
     = [TaskStatus.OK; TaskStatus.OK].
Proof.
  intros p s.
  destruct (receiver_malformed_status (codes := Scenario.codes) noFlags s
              (Scenario.packageRound noFlags [p]) [] p [] 0%nat
              (setString (codes := Scenario.codes) "ready")
              (StdException "invalid_argument") [StartWorker; StartWorker]
              eq_refl eq_refl eq_refl eq_refl eq_refl eq_refl eq_refl
              eq_refl eq_refl eq_refl eq_refl eq_refl eq_refl eq_refl)
    as (Hstart & Hsent & _).
  split; [rewrite Hstart; reflexivity|exact Hsent].
Defined.

End StartFacts.

(** ** Text utilities *)

Module TextFacts.
Import Text ListFacts.

Section FindIf.
Context {A : Type} (q : A -> bool).

(** All elements fail [q]. *)
Lemma find_if_none (s : list A) :
  forallb (fun c => negb (q c)) s = true -> find_if q s = [].
Proof.
  induction s as [|c s IH]; simpl; [reflexivity|].
  intros H. apply andb_prop in H as [Hc Hs].
  destruct (q c); [discriminate|]. exact (IH Hs).
Qed.

Lemma find_if_skip (l m : list A) :
  forallb (fun c => negb (q c)) l = true ->
  find_if q (l ++ m) = find_if q m.
Proof.
  induction l as [|c l IH]; simpl; [reflexivity|].
  intros H. apply andb_prop in H as [Hc Hl].
  destruct (q c); [discriminate|]. exact (IH Hl).
Qed.

Lemma find_if_here (x : A) (m : list A) :
  q x = true -> find_if q (x :: m) = x :: m.
Proof. intros H. simpl. rewrite H. reflexivity. Qed.

(** A list is free of [q], or it is a core that begins and ends with an
    element satisfying [q], between two parts free of [q]. *)
Lemma core_decomposition (s : list A) :
  forallb (fun c => negb (q c)) s = true
  \/ exists (l r : list A) (x : A) (m : list A) (y : A) (m' : list A),
       s = l ++ (x :: m) ++ r /\ x :: m = m' ++ [y]
       /\ forallb (fun c => negb (q c)) l = true
       /\ forallb (fun c => negb (q c)) r = true
       /\ q x = true /\ q y = true.
Proof.
  induction s as [|c s IH]; [left; reflexivity|].
  destruct IH as [Hfree|(l & r & x & m & y & m' & -> & Hm & Hl & Hr & Hx & Hy)].
  - destruct (q c) eqn:Hc.
    + right. exists [], s, c, [], c, []. simpl. repeat split; auto.
    + left. simpl. rewrite Hc. exact Hfree.
  - right. destruct (q c) eqn:Hc.
    + exists [], r, c, (l ++ x :: m), y, (c :: l ++ m').
      simpl. repeat split; auto.
      * rewrite <- app_assoc. reflexivity.
      * rewrite Hm, <- app_assoc. reflexivity.
    + exists (c :: l), r, x, m, y, m'. simpl. rewrite Hc.
      repeat split; auto.
Qed.

Lemma forallb_rev (p : A -> bool) (s : list A) :
  forallb p (rev s) = forallb p s.
Proof.
  induction s as [|c s IH]; simpl; [reflexivity|].
  rewrite forallb_app, IH. simpl. rewrite andb_true_r. apply andb_comm.
Qed.

(** Erasing from the front leaves the core and what follows it; erasing from
    the back leaves the core and what precedes it. *)
Lemma find_if_core (l r m' : list A) (x y : A) (m : list A) :
  x :: m = m' ++ [y] ->
  forallb (fun c => negb (q c)) l = true ->
  forallb (fun c => negb (q c)) r = true ->
  q x = true -> q y = true ->
  find_if q (l ++ (x :: m) ++ r) = (x :: m) ++ r
  /\ rev (find_if q (rev (l ++ (x :: m) ++ r))) = l ++ x :: m.
Proof.
  intros Hm Hl Hr Hx Hy. split.
  - rewrite find_if_skip by exact Hl. simpl. rewrite Hx. reflexivity.
  - replace (rev (l ++ (x :: m) ++ r))
      with (rev r ++ (y :: rev m') ++ rev l).
    + rewrite find_if_skip by (rewrite forallb_rev; exact Hr).
      simpl. rewrite Hy.
      change (y :: rev m' ++ rev l) with ((y :: rev m') ++ rev l).
      rewrite rev_app_distr, rev_involutive.
      change (y :: rev m') with ([y] ++ rev m').
      rewrite rev_app_distr, rev_involutive. simpl rev.
      rewrite Hm. reflexivity.
    + rewrite !rev_app_distr, Hm, rev_app_distr, <- app_assoc. reflexivity.
Qed.

(** Trimming both ends: the core, whichever end is trimmed first; nothing
    when the list is free of [q]. *)
Lemma trim_core (s : list A) :
  exists l core r : list A,
    s = l ++ core ++ r
    /\ forallb (fun c => negb (q c)) l = true
    /\ forallb (fun c => negb (q c)) r = true
    /\ find_if q (rev (find_if q (rev s))) = core
    /\ rev (find_if q (rev (find_if q s))) = core
    /\ find_if q core = core
    /\ rev (find_if q (rev core)) = core
    /\ (forall c t, core = c :: t -> q c = true)
    /\ (forall t c, core = t ++ [c] -> q c = true).
Proof.
  destruct (core_decomposition s)
    as [Hfree|(l & r & x & m & y & m' & -> & Hm & Hl & Hr & Hx & Hy)].
  - exists s, [], []. rewrite app_nil_r.
    rewrite (find_if_none (rev s)) by (rewrite forallb_rev; exact Hfree).
    rewrite (find_if_none s) by exact Hfree. simpl.
    repeat split; auto; try discriminate.
    intros [] ? ?; discriminate.
  - exists l, (x :: m), r.
    destruct (find_if_core l r m' x y m Hm Hl Hr Hx Hy) as [Hfront Hback].
    destruct (find_if_core [] [] m' x y m Hm eq_refl eq_refl Hx Hy)
      as [Hfront' Hback'].
    rewrite app_nil_r in Hfront', Hback'. simpl app in Hfront', Hback'.
    split; [reflexivity|]. split; [exact Hl|]. split; [exact Hr|].
    split.
    { rewrite Hback.
      destruct (find_if_core l [] m' x y m Hm Hl eq_refl Hx Hy) as [H _].
      rewrite app_nil_r in H. exact H. }
    split.
    { rewrite Hfront.
      destruct (find_if_core [] r m' x y m Hm eq_refl Hr Hx Hy) as [_ H].
      exact H. }
    split; [exact Hfront'|]. split; [exact Hback'|]. split.
    + intros c t H. inversion H; subst. exact Hx.
    + intros t c H. rewrite Hm in H. apply app_inj_tail in H as [_ <-].
      exact Hy.
Qed.

End FindIf.

Lemma forallb_negb_negb {A : Type} (p : A -> bool) (s : list A) :
  forallb (fun c => negb (negb (p c))) s = forallb p s.
Proof.
  induction s as [|c s IH]; simpl; [reflexivity|].
  rewrite IH, negb_involutive. reflexivity.
Qed.

(** X20.  [trimWhitespace(s, locale)] is [s] without the white space at its
    two ends, white space being what the default locale of [ltrimWhitespace]
    and [rtrimWhitespace] takes for it: the [locale] passed is not used.  What
    is cut off is white space only, and the result neither begins nor ends
    with white space. *)
Theorem trimWhitespace_core (defaultLocale locale : locale) (s : list ascii) :
  let out := trimWhitespace defaultLocale s locale in
  (exists l r : list ascii,
      s = l ++ out ++ r
      /\ forallb (isspace defaultLocale) l = true
      /\ forallb (isspace defaultLocale) r = true)
  /\ (forall c t, out = c :: t -> isspace defaultLocale c = false)
  /\ (forall t c, out = t ++ [c] -> isspace defaultLocale c = false).
Proof.
  intros out.
  destruct (trim_core (fun c => negb (isspace defaultLocale c)) s)
    as (l & core & r & Hs & Hl & Hr & Hcore & _ & _ & _ & Hfirst & Hlast).
  rewrite forallb_negb_negb in Hl, Hr.
  assert (Hout : out = core) by exact Hcore.
  rewrite Hout. split; [exists l, r; auto|]. split.
  - intros c t H. apply negb_true_iff. exact (Hfirst c t H).
  - intros t c H. apply negb_true_iff. exact (Hlast t c H).
Qed.

Lemma forallb_is_char (trimChar : ascii) (s : list ascii) :
  forallb (fun c => negb (negb (Ascii.eqb trimChar c))) s = true ->
  s = repeat trimChar (length s).
Proof.
  induction s as [|c s IH]; simpl; [reflexivity|].
  intros H. apply andb_prop in H as [Hc Hs].
  rewrite negb_involutive in Hc. apply Ascii.eqb_eq in Hc. subst c.
  f_equal. exact (IH Hs).
Qed.

(** X21.  [trim(s, trimChar)] is [s] without the run of [trimChar] at each of
    its ends: [s] is [n] times [trimChar], the result, and [k] times
    [trimChar], and the result neither begins nor ends with [trimChar]. *)
Theorem trim_core_char (s : list ascii) (trimChar : ascii) :
  let out := trim s trimChar in
  (exists n k : nat, s = repeat trimChar n ++ out ++ repeat trimChar k)
  /\ (forall c t, out = c :: t -> c <> trimChar)
  /\ (forall t c, out = t ++ [c] -> c <> trimChar).
Proof.
  intros out.
  destruct (trim_core (fun c => negb (Ascii.eqb trimChar c)) s)
    as (l & core & r & Hs & Hl & Hr & Hcore & _ & _ & _ & Hfirst & Hlast).
  assert (Hout : out = core) by exact Hcore.
  rewrite Hout. split.
  - exists (length l), (length r).
    rewrite <- (forallb_is_char trimChar l Hl),
      <- (forallb_is_char trimChar r Hr). exact Hs.
  - split.
    + intros c t H Hc. specialize (Hfirst c t H). subst c.
      rewrite Ascii.eqb_refl in Hfirst. discriminate.
    + intros t c H Hc. specialize (Hlast t c H). subst c.
      rewrite Ascii.eqb_refl in Hlast. discriminate.
Qed.

(** X22.  Trimming is idempotent, and the two ends can be trimmed in either
    order: for [trim], [ltrim], [rtrim] and for the white space functions
    alike. *)
Theorem trim_twice_and_order (defaultLocale l1 l2 : locale)
    (s : list ascii) (trimChar : ascii) :
  trim (trim s trimChar) trimChar = trim s trimChar
  /\ ltrim (rtrim s trimChar) trimChar = rtrim (ltrim s trimChar) trimChar
  /\ trimWhitespace defaultLocale (trimWhitespace defaultLocale s l1) l2
     = trimWhitespace defaultLocale s l1
  /\ ltrimWhitespace (rtrimWhitespace s l1) l1
     = rtrimWhitespace (ltrimWhitespace s l1) l1.
Proof.
  destruct (trim_core (fun c => negb (Ascii.eqb trimChar c)) s)
    as (_ & core & _ & _ & _ & _ & Hc1 & Hc2 & Hc3 & Hc4 & _).
  destruct (trim_core (fun c => negb (isspace defaultLocale c)) s)
    as (_ & coreD & _ & _ & _ & _ & Hd1 & _ & Hd3 & Hd4 & _).
  destruct (trim_core (fun c => negb (isspace l1 c)) s)
    as (_ & coreW & _ & _ & _ & _ & Hw1 & Hw2 & _).
  unfold trim, ltrim, rtrim, trimWhitespace, ltrimWhitespace,
    rtrimWhitespace.
  rewrite Hc1, Hc2, Hd1, Hw1, Hw2, Hc4, Hc3, Hd4, Hd3. repeat split.
Qed.

(** Without [escape] the loop does not look at [str[i - 1]]. *)
Lemma splitLoop_prev (delimiter : ascii) (rest : list ascii) :
  forall (prev prev' : option ascii) (ret : list (list ascii))
         (cur_str : list ascii),
    splitLoop delimiter false prev rest ret cur_str
    = splitLoop delimiter false prev' rest ret cur_str.
Proof.
  induction rest as [|c rest IH]; intros prev prev' ret cur; simpl;
    [reflexivity|].
  destruct (Ascii.eqb c delimiter); [|apply IH].
  destruct (length cur =? 0)%nat; apply IH.
Qed.

(** Characters other than the delimiter are added to the token. *)
Lemma splitLoop_token (delimiter : ascii) (t : list ascii) :
  forall (prev : option ascii) (rest : list ascii)
         (ret : list (list ascii)) (cur_str : list ascii),
    ~ In delimiter t ->
    splitLoop delimiter false prev (t ++ rest) ret cur_str
    = splitLoop delimiter false None rest ret (cur_str ++ t).
Proof.
  induction t as [|c t IH]; intros prev rest ret cur Hfree.
  - simpl. rewrite app_nil_r. apply splitLoop_prev.
  - simpl app. cbn [splitLoop].
    destruct (Ascii.eqb_spec c delimiter) as [->|_];
      [exfalso; apply Hfree; now left|].
    rewrite IH by (intros H; apply Hfree; now right).
    rewrite <- app_assoc. reflexivity.
Qed.

(** A run of delimiters after a token ends the token; a run of delimiters
    with no token begun is passed over. *)
Lemma splitLoop_delimiters (delimiter : ascii) (n : nat) :
  forall (prev : option ascii) (rest : list ascii)
         (ret : list (list ascii)),
    splitLoop delimiter false prev (repeat delimiter n ++ rest) ret []
    = splitLoop delimiter false None rest ret [].
Proof.
  induction n as [|n IH]; intros prev rest ret; simpl.
  - apply splitLoop_prev.
  - rewrite Ascii.eqb_refl. apply IH.
Qed.

Lemma splitLoop_token_end (delimiter : ascii) (n : nat)
    (prev : option ascii) (rest : list ascii) (ret : list (list ascii))
    (cur_str : list ascii) :
  cur_str <> [] ->
  splitLoop delimiter false prev (repeat delimiter (S n) ++ rest) ret cur_str
  = splitLoop delimiter false None rest (ret ++ [cur_str]) [].
Proof.
  intros Hcur. simpl. rewrite Ascii.eqb_refl.
  destruct cur_str as [|c cur]; [contradiction|]. simpl.
  apply splitLoop_delimiters.
Qed.

Lemma splitLoop_separated (delimiter : ascii)
    (tokens : list (list ascii * nat)) :
  forall (rest : list ascii) (ret : list (list ascii)),
    Forall (fun tn => fst tn <> [] /\ ~ In delimiter (fst tn)) tokens ->
    splitLoop delimiter false None (separated delimiter tokens ++ rest) ret []
    = splitLoop delimiter false None rest (ret ++ map fst tokens) [].
Proof.
  induction tokens as [|[t n] tokens IH]; intros rest ret Hok.
  - simpl. rewrite app_nil_r. reflexivity.
  - inversion Hok as [|? ? [Hne Hfree] Hok']; subst. simpl in Hne, Hfree.
    cbn [separated]. rewrite <- !app_assoc.
    rewrite splitLoop_token by exact Hfree. rewrite app_nil_l.
    rewrite splitLoop_token_end by exact Hne.
    rewrite IH by exact Hok'. cbn [map fst]. rewrite <- app_assoc.
    reflexivity.
Qed.

(** X23.  [split] on a string of tokens: leading delimiters, tokens each
    followed by one delimiter or more, and a last token followed by any number
    of delimiters.  The result is the tokens, in order. *)
Theorem split_separated (delimiter : ascii) (n0 nlast : nat)
    (tokens : list (list ascii * nat)) (tlast : list ascii) :
  let str :=
    repeat delimiter n0 ++ separated delimiter tokens
      ++ tlast ++ repeat delimiter nlast in
  delimiter <> "\"%char ->
  Z.of_nat (length str) < 2 ^ 32 ->
  Forall (fun tn => fst tn <> [] /\ ~ In delimiter (fst tn)) tokens ->
  tlast <> [] -> ~ In delimiter tlast ->
  split str delimiter false = inr (map fst tokens ++ [tlast]).
Proof.
  intros str Hd _ Hok Hne Hfree. unfold split.
  destruct (Ascii.eqb_spec delimiter "\"%char) as [E|_]; [contradiction|].
  unfold str. rewrite splitLoop_delimiters, splitLoop_separated by exact Hok.
  rewrite splitLoop_token by exact Hfree. rewrite !app_nil_l.
  assert (Hend : forall prev,
             splitLoop delimiter false prev (repeat delimiter nlast)
               (map fst tokens) tlast
             = if (nlast =? 0)%nat then (map fst tokens, tlast)
               else (map fst tokens ++ [tlast], [])).
  { intros prev. destruct nlast as [|k]; [reflexivity|].
    rewrite <- (app_nil_r (repeat delimiter (S k))).
    rewrite splitLoop_token_end by exact Hne.
    reflexivity. }
  rewrite Hend.
  assert (Hlen : forall l : list (list ascii),
             (length (l ++ [tlast]) =? 0)%nat = false).
  { intros l. rewrite length_app. simpl. apply Nat.eqb_neq. lia. }
  destruct (nlast =? 0)%nat.
  - destruct tlast as [|c tl]; [contradiction|]. simpl length at 1.
    cbn [Nat.eqb]. rewrite Hlen. reflexivity.
  - cbn [length Nat.eqb]. rewrite Hlen. reflexivity.
Qed.

(** No empty token is added to the result. *)
Lemma splitLoop_nonempty (delimiter : ascii) (escape : bool)
    (rest : list ascii) :
  forall (prev : option ascii) (ret : list (list ascii))
         (cur_str : list ascii),
    Forall (fun t => t <> []) ret ->
    Forall (fun t => t <> [])
      (fst (splitLoop delimiter escape prev rest ret cur_str)).
Proof.
  induction rest as [|c rest IH]; intros prev ret cur Hret; simpl;
    [exact Hret|].
  destruct (Ascii.eqb c delimiter); [|apply IH; exact Hret].
  destruct cur as [|c0 cur]; [apply IH; exact Hret|].
  cbn [length Nat.eqb].
  destruct (escape && _); apply IH; [exact Hret|].
  apply Forall_app. split; [exact Hret|].
  constructor; [discriminate|constructor].
Qed.

(** A string of delimiters only starts no token. *)
Lemma splitLoop_only_delimiters (delimiter : ascii) (escape : bool)
    (str : list ascii) :
  forall (prev : option ascii) (ret : list (list ascii)),
    forallb (fun c => Ascii.eqb c delimiter) str = true ->
    splitLoop delimiter escape prev str ret [] = (ret, []).
Proof.
  induction str as [|c str IH]; intros prev ret H; simpl; [reflexivity|].
  simpl in H. apply andb_prop in H as [Hc Hs]. rewrite Hc.
  apply IH. exact Hs.
Qed.

(** X24.  The edges of [split]: a backslash is refused as the delimiter; the
    result is never empty; no token in it is empty, except that the empty
    string gives one empty token; and a string of delimiters only comes back
    whole, as the one token. *)
Theorem split_edges (str : list ascii) (delimiter : ascii) (escape : bool) :
  split str "\"%char escape = inl (ParameterError "Cannot use \ as delimiter")
  /\ (delimiter <> "\"%char ->
      Z.of_nat (length str) < 2 ^ 32 ->
      exists toks : list (list ascii),
        split str delimiter escape = inr toks
        /\ toks <> []
        /\ (Forall (fun t => t <> []) toks \/ (str = [] /\ toks = [[]]))
        /\ (forallb (fun c => Ascii.eqb c delimiter) str = true ->
            toks = [str])).
Proof.
  split; [reflexivity|]. intros Hd _. unfold split.
  destruct (Ascii.eqb_spec delimiter "\"%char) as [E|_]; [contradiction|].
  pose proof (splitLoop_nonempty delimiter escape str None [] []
                (List.Forall_nil _)) as Hne.
  pose proof (splitLoop_only_delimiters delimiter escape str None []) as Hall.
  destruct (splitLoop delimiter escape None str [] []) as [ret cur].
  cbn [fst] in Hne. eexists. split; [reflexivity|].
  destruct cur as [|c cur]; cbn [length Nat.eqb].
  - destruct ret as [|t ret]; cbn [length Nat.eqb app].
    + split; [discriminate|]. split; [|intros _; reflexivity].
      destruct str as [|c str]; [right; split; reflexivity|].
      left. constructor; [discriminate|constructor].
    + split; [discriminate|]. split; [left; exact Hne|].
      intros H. specialize (Hall H). discriminate Hall.
  - assert (Hlen : (length (ret ++ [c :: cur]) =? 0)%nat = false)
      by (rewrite length_app; simpl; apply Nat.eqb_neq; lia).
    rewrite Hlen. split; [destruct ret; discriminate|]. split.
    + left. apply Forall_app. split; [exact Hne|].
      constructor; [discriminate|constructor].
    + intros H. specialize (Hall H). discriminate Hall.
Qed.

Lemma last_some_default (t : list ascii) (c : ascii) (prev : option ascii) :
  List.last (map Some (c :: t)) prev = List.last (map Some t) (Some c).
Proof. apply (last_cons_default (map Some t)). Qed.

Lemma last_some_in (t : list ascii) (prev : option ascii) :
  t <> [] -> exists p, List.last (map Some t) prev = Some p /\ In p t.
Proof.
  revert prev. induction t as [|c t IH]; intros prev H; [contradiction|].
  rewrite last_some_default. destruct t as [|a t].
  - exists c. split; [reflexivity|now left].
  - destruct (IH (Some c)) as (p & Hp & Hin); [discriminate|].
    exists p. split; [exact Hp|now right].
Qed.

(** With [escape], a token written with a backslash before each delimiter
    in it is read as the token. *)
Lemma splitLoop_escaped (delimiter : ascii) (t : list ascii) :
  delimiter <> "\"%char ->
  forall (prev : option ascii) (rest : list ascii)
         (ret : list (list ascii)) (cur_str : list ascii),
    ~ In "\"%char t ->
    splitLoop delimiter true prev (escaped delimiter t ++ rest) ret cur_str
    = splitLoop delimiter true (List.last (map Some t) prev) rest ret
        (cur_str ++ t).
Proof.
  intros Hd. induction t as [|c t IH]; intros prev rest ret cur Hfree.
  - simpl. rewrite app_nil_r. reflexivity.
  - assert (Hc : c <> "\"%char) by (intros ->; apply Hfree; now left).
    assert (Ht : ~ In "\"%char t) by (intros H; apply Hfree; now right).
    rewrite last_some_default. cbn [escaped].
    destruct (Ascii.eqb_spec c delimiter) as [->|Hcd].
    + simpl app. cbn [splitLoop].
      destruct (Ascii.eqb_spec "\"%char delimiter) as [E|_];
        [symmetry in E; contradiction|].
      rewrite Ascii.eqb_refl.
      assert (Hlen : (length (cur ++ ["\"%char]) =? 0)%nat = false)
        by (rewrite length_app; simpl; apply Nat.eqb_neq; lia).
      rewrite Hlen. cbn [andb]. rewrite Ascii.eqb_refl.
      replace (take (length (cur ++ ["\"%char]) - 1) (cur ++ ["\"%char]))
        with cur.
      2:{ rewrite length_app. simpl.
          replace (length cur + 1 - 1)%nat with (length cur) by lia.
          rewrite take_app_length. reflexivity. }
      rewrite IH by exact Ht. rewrite <- app_assoc. reflexivity.
    + simpl app. cbn [splitLoop].
      destruct (Ascii.eqb_spec c delimiter) as [E|_]; [contradiction|].
      rewrite IH by exact Ht. rewrite <- app_assoc. reflexivity.
Qed.

(** The loop over tokens written so and joined with the delimiter: all but
    the last are added to the result, the last is the token begun. *)
Lemma splitLoop_join_escaped (delimiter : ascii) :
  delimiter <> "\"%char ->
  forall (tokens : list (list ascii)) (t : list ascii)
         (prev : option ascii) (ret : list (list ascii)),
    Forall (fun t => t <> [] /\ ~ In "\"%char t) (t :: tokens) ->
    splitLoop delimiter true prev
      (join delimiter (map (escaped delimiter) (t :: tokens))) ret []
    = (ret ++ removelast (t :: tokens), List.last tokens t).
Proof.
  intros Hd. induction tokens as [|t' tokens IH]; intros t prev ret Hok.
  - inversion Hok as [|? ? [Hne Hfree] _]; subst.
    cbn [map join]. rewrite <- (app_nil_r (escaped delimiter t)).
    rewrite splitLoop_escaped by assumption.
    simpl. rewrite app_nil_r. reflexivity.
  - inversion Hok as [|? ? [Hne Hfree] Hok']; subst.
    change (join delimiter (map (escaped delimiter) (t :: t' :: tokens)))
      with (escaped delimiter t
              ++ delimiter
              :: join delimiter (map (escaped delimiter) (t' :: tokens))).
    rewrite splitLoop_escaped by assumption. rewrite app_nil_l.
    destruct (last_some_in t prev Hne) as (p & Hp & Hin). rewrite Hp.
    cbn [splitLoop]. rewrite Ascii.eqb_refl.
    destruct t as [|c t]; [contradiction|]. cbn [length Nat.eqb andb].
    destruct (Ascii.eqb_spec p "\"%char) as [->|_]; [contradiction|].
    rewrite IH by exact Hok'.
    change (removelast ((c :: t) :: t' :: tokens))
      with ((c :: t) :: removelast (t' :: tokens)).
    rewrite <- app_assoc, last_cons_default. reflexivity.
Qed.

(** X25.  [split] with [escape] reads back tokens that were written with a
    backslash before each delimiter in them and joined with the delimiter: a
    token may hold the delimiter, but no backslash, and is not empty. *)
Theorem split_join_escaped (delimiter : ascii) (tokens : list (list ascii)) :
  let str := join delimiter (map (escaped delimiter) tokens) in
  delimiter <> "\"%char ->
  Z.of_nat (length str) < 2 ^ 32 ->
  tokens <> [] ->
  Forall (fun t => t <> [] /\ ~ In "\"%char t) tokens ->
  split str delimiter true = inr tokens.
Proof.
  intros str Hd _ Hne Hok. unfold split.
  destruct (Ascii.eqb_spec delimiter "\"%char) as [E|_]; [contradiction|].
  destruct tokens as [|t tokens]; [contradiction|]. unfold str.
  rewrite splitLoop_join_escaped by assumption. rewrite app_nil_l.
  assert (Hlast : List.last tokens t <> []).
  { assert (Hin : In (List.last tokens t) (t :: tokens)).
    { clear. revert t. induction tokens as [|a l IH]; intros t;
        [now left|].
      right. rewrite last_cons_default. apply IH. }
    rewrite List.Forall_forall in Hok. apply (Hok _ Hin). }
  destruct (List.last tokens t) as [|c l] eqn:El; [contradiction|].
  cbn [length Nat.eqb].
  assert (Hlen : (length (removelast (t :: tokens) ++ [c :: l]) =? 0)%nat
                 = false)
    by (rewrite length_app; simpl; apply Nat.eqb_neq; lia).
  rewrite Hlen. f_equal. rewrite <- El.
  rewrite <- (last_cons_default tokens t t).
  symmetry. apply app_removelast_last. discriminate.
Qed.

Lemma equal_toupper_iff (a : list ascii) :
  forall b : list ascii,
    length a = length b ->
    equal (fun x y => Ascii.eqb (std_toupper x) (std_toupper y)) a b = true
    <-> map std_toupper a = map std_toupper b.
Proof.
  induction a as [|x a IH]; intros [|y b] Hlen; try discriminate Hlen.
  - split; reflexivity.
  - simpl. injection Hlen as Hlen. rewrite andb_true_iff, Ascii.eqb_eq.
    rewrite (IH b Hlen). split.
    + intros [-> ->]. reflexivity.
    + intros H. injection H as Hx Hm. split; assumption.
Qed.

Lemma caseInsensitiveCompare_map (a b : list ascii) :
  caseInsensitiveCompare a b = true
  <-> map std_toupper a = map std_toupper b.
Proof.
  unfold caseInsensitiveCompare.
  rewrite andb_true_iff, Nat.eqb_eq. split.
  - intros [Hlen H]. apply (equal_toupper_iff a b Hlen). exact H.
  - intros H. assert (Hlen : length a = length b).
    { apply (f_equal (@length ascii)) in H.
      rewrite !length_map in H. exact H. }
    split; [exact Hlen|]. apply (equal_toupper_iff a b Hlen). exact H.
Qed.

(** X26.  [caseInsensitiveCompare] holds of two strings exactly when their
    upper-case forms in the classic locale are the same string: it is
    reflexive, symmetric and transitive, and strings of different lengths
    never compare equal. *)
Theorem caseInsensitiveCompare_uppercase (str1 str2 : list ascii) :
  caseInsensitiveCompare str1 str1 = true
  /\ caseInsensitiveCompare str1 str2 = caseInsensitiveCompare str2 str1
  /\ (caseInsensitiveCompare str1 str2 = true
      <-> toUppercase str1 classic = toUppercase str2 classic).
Proof.
  pose proof caseInsensitiveCompare_map as Hiff.
  split; [apply Hiff; reflexivity|]. split; [|apply Hiff].
  destruct (caseInsensitiveCompare str1 str2) eqn:E12;
    destruct (caseInsensitiveCompare str2 str1) eqn:E21; try reflexivity.
  - apply Hiff in E12. symmetry in E12. apply Hiff in E12. congruence.
  - apply Hiff in E21. symmetry in E21. apply Hiff in E21. congruence.
Qed.

Lemma std_toupper_facts (c : ascii) :
  std_toupper (std_toupper c) = std_toupper c
  /\ std_tolower (std_tolower c) = std_tolower c
  /\ std_toupper (std_tolower c) = std_toupper c
  /\ std_tolower (std_toupper c) = std_tolower c.
Proof.
  destruct c as [[] [] [] [] [] [] [] []]; vm_compute; repeat split.
Qed.

(** X27.  The case conversions keep the length of the string; in the classic
    locale they are idempotent, each undoes the other up to case, and a string
    compares equal, letter case aside, to both its forms. *)
Theorem case_conversions (str : list ascii) (locale : locale) :
  length (toUppercase str locale) = length str
  /\ length (toLowercase str locale) = length str
  /\ toUppercase (toUppercase str classic) classic = toUppercase str classic
  /\ toLowercase (toLowercase str classic) classic = toLowercase str classic
  /\ toUppercase (toLowercase str classic) classic = toUppercase str classic
  /\ toLowercase (toUppercase str classic) classic = toLowercase str classic
  /\ caseInsensitiveCompare str (toUppercase str classic) = true
  /\ caseInsensitiveCompare str (toLowercase str classic) = true.
Proof.
  unfold toUppercase, toLowercase. cbn [toupper tolower classic].
  rewrite !length_map, !map_map.
  assert (Hext : forall f g : ascii -> ascii,
             (forall c, f c = g c) -> map f str = map g str).
  { intros f g H. apply map_ext. exact H. }
  split; [reflexivity|]. split; [reflexivity|].
  split; [apply Hext; intros c; apply std_toupper_facts|].
  split; [apply Hext; intros c; apply std_toupper_facts|].
  split; [apply Hext; intros c; apply std_toupper_facts|].
  split; [apply Hext; intros c; apply std_toupper_facts|].
  split.
  - apply caseInsensitiveCompare_map. rewrite map_map. symmetry.
    apply Hext. intros c. apply std_toupper_facts.
  - apply caseInsensitiveCompare_map. rewrite map_map. symmetry.
    apply Hext. intros c. apply std_toupper_facts.
Qed.

Lemma trimWhitespace_core_witness :
  let s := list_ascii_of_string "  a b " in
  trimWhitespace classic s classic = list_ascii_of_string "a b"
  /\ isspace classic "a"%char = false
  /\ isspace classic "b"%char = false.
Proof.
  intros s. split; [reflexivity|].
  destruct (trimWhitespace_core classic classic s) as (_ & Hfirst & Hlast).
  split.
  - exact (Hfirst "a"%char (list_ascii_of_string " b") eq_refl).
  - exact (Hlast (list_ascii_of_string "a ") "b"%char eq_refl).
Defined.

Lemma trim_core_char_witness :
  let s := list_ascii_of_string "xxaxbx" in
  trim s "x"%char = list_ascii_of_string "axb"
  /\ "a"%char <> "x"%char /\ "b"%char <> "x"%char.
Proof.
  intros s. split; [reflexivity|].
  destruct (trim_core_char s "x"%char) as (_ & Hfirst & Hlast).
  split.
  - exact (Hfirst "a"%char (list_ascii_of_string "xb") eq_refl).
  - exact (Hlast (list_ascii_of_string "ax") "b"%char eq_refl).
Defined.

Lemma split_separated_witness :
  let tokens := [(list_ascii_of_string "ab", 1%nat);
                 (list_ascii_of_string "c", 0%nat)] in
  let str := list_ascii_of_string ",ab,,c,d,," in
  (","%char <> "\"%char /\ Z.of_nat (length str) < 2 ^ 32
   /\ Forall (fun tn => fst tn <> [] /\ ~ In ","%char (fst tn)) tokens)
  /\ split str ","%char false
     = inr (map list_ascii_of_string ["ab"; "c"; "d"]%string).
Proof.
  intros tokens str.
  assert (H1 : ","%char <> "\"%char) by discriminate.
  assert (H2 : Z.of_nat (length str) < 2 ^ 32) by reflexivity.
  assert (H3 : Forall (fun tn => fst tn <> [] /\ ~ In ","%char (fst tn))
                 tokens).
  { repeat constructor; try discriminate;
      simpl; intros H; intuition discriminate. }
  split; [repeat split; assumption|].
  apply (split_separated ","%char 1 2 tokens (list_ascii_of_string "d")
           H1 H2 H3); [discriminate|].
  simpl. intros H; intuition discriminate.
Defined.

Lemma split_edges_witness :
  split (list_ascii_of_string ",,,") ","%char true
  = inr [list_ascii_of_string ",,,"].
Proof.
  destruct (split_edges (list_ascii_of_string ",,,") ","%char true)
    as [_ H].
  destruct H as (toks & Hsplit & _ & _ & Hwhole);
    [discriminate|reflexivity|].
  rewrite Hsplit, (Hwhole eq_refl). reflexivity.
Defined.

Lemma split_join_escaped_witness :
  let tokens := map list_ascii_of_string ["a,b"; ","; "c"]%string in
  join ","%char (map (escaped ","%char) tokens)
  = list_ascii_of_string "a\,b,\,,c"
  /\ split (list_ascii_of_string "a\,b,\,,c") ","%char true = inr tokens.
Proof.
  intros tokens. split; [reflexivity|].
  apply (split_join_escaped ","%char tokens);
    [discriminate|reflexivity|discriminate|].
  repeat constructor; try discriminate;
    simpl; intros H; intuition discriminate.
Defined.

End TextFacts.

(** ** Timers *)

Module TimerFacts.
Import Timer.

(** X28.  A function that throws inside [time()] leaves the timer in progress:
    [stop()] is not reached.  From then on [elapsed()] throws, and so does
    every further [time()] and [start()], without running the function, until
    [stop()] is called; the interval then measured began at the [start()] of
    the failed [time()]. *)
Theorem time_throwing_function (tm : t) (e : Exception)
    (now1 now2 : Z) :
  _inProgress tm = false ->
  let tm' := snd (time (Some (Throw e)) now1 now2 tm) in
  time (Some (Throw e)) now1 now2 tm = (Throw e, tm')
  /\ _inProgress tm' = true
  /\ (forall nano, elapsed nano tm'
                   = Throw (StrategyError "Timing in progress"))
  /\ (forall outcome n1 n2,
         time (Some outcome) n1 n2 tm'
         = (Throw (StrategyError "Timing already in progress"), tm'))
  /\ (forall n, start n tm'
                = (Throw (StrategyError "Timing already in progress"), tm'))
  /\ (forall now3,
         fst (stop now3 tm') = Ok tt
         /\ elapsed true (snd (stop now3 tm')) = Ok (uint64_t (now3 - now1))).
Proof.
  intros Hidle tm'. unfold tm', time, start. rewrite Hidle. cbn [snd].
  repeat split.
Qed.


Lemma time_throwing_function_witness :
  let tm' := snd (time (Some (Throw (ErrorException "failed"))) 5 9 create) in
  _inProgress create = false
  /\ _inProgress tm' = true
  /\ time (Some (Ok tt)) 20 30 tm'
     = (Throw (StrategyError "Timing already in progress"), tm')
  /\ elapsed true (snd (stop 12 tm')) = Ok 7.
Proof.
  intros tm'.
  destruct (time_throwing_function create (ErrorException "failed") 5 9
              eq_refl) as (_ & Hin & _ & Htime & _ & Hstop).
  split; [reflexivity|]. split; [exact Hin|].
  split; [apply Htime|]. destruct (Hstop 12) as [_ H]. exact H.
Defined.


End TimerFacts.
